(** * etl.py: the Sparkify data-lake pipeline, embedded in Rocq

    The development follows [src/etl.py]: the two readers, the two
    transformers [process_song_data] and [process_log_data], and the
    orchestrator [main].  The dataframe engine the script drives (column
    resolution, [select], [withColumn], [filter], [distinct],
    [dropDuplicates], [join], the partitioned writer) is modelled by
    executable list functions with an explicit error type, so that every
    table of the script can be evaluated on concrete records.

    The engine computes lazily and the script eagerly names frames; here
    each frame is computed where the script names it.  An error is then met
    at the first statement whose frame cannot be computed, which is where a
    run of the script stops, the writes being the only actions. *)

From Stdlib Require Import ZArith List String Ascii Bool Lia Permutation.
From Stdlib Require Import Floats.SpecFloat.
Import ListNotations.

Local Open Scope string_scope.
Local Open Scope list_scope.
Local Open Scope Z_scope.

(** ** Errors and the result monad *)

Module Result.

(** What the script can die of.  The first six are the engine's
    [AnalysisException]s; [AttributeError] is what [df.name] raises in the
    driver when the frame has no column [name]; the next four are raised
    inside the Python UDF.  [OutsideModel] is no exception of the script:
    it is the outcome given to a read whose glob uses what is not modelled
    here (see [supported]), so that no statement below speaks of such a
    run. *)
Inductive exn : Type :=
| UnresolvedColumn (c : string)
| AmbiguousReference (c : string)
| PartitionColumnNotFound (c : string)
| PathAlreadyExists (p : string)
| PathDoesNotExist (p : string)
| UnableToInferSchema
| AttributeError (name : string)
| ValueError (msg : string)
| TypeError (msg : string)
| OverflowError (msg : string)
| ZeroDivisionError (msg : string)
| OutsideModel (pattern : string).

Inductive result (A : Type) : Type :=
| Ok (a : A)
| Err (e : exn).

Arguments Ok {A} a.
Arguments Err {A} e.

Definition bind {A B} (m : result A) (k : A -> result B) : result B :=
  match m with
  | Ok a => k a
  | Err e => Err e
  end.

Definition fmap {A B} (f : A -> B) (m : result A) : result B :=
  bind m (fun a => Ok (f a)).

Fixpoint mapM {A B} (f : A -> result B) (l : list A) : result (list B) :=
  match l with
  | [] => Ok []
  | x :: xs =>
      bind (f x) (fun y => bind (mapM f xs) (fun ys => Ok (y :: ys)))
  end.

Definition is_ok {A} (m : result A) : bool :=
  match m with Ok _ => true | Err _ => false end.

End Result.
Import Result.

Declare Scope result_scope.
Delimit Scope result_scope with result.
Notation "x <- m ;; k" := (bind m (fun x => k))
  (at level 61, m at next level, right associativity) : result_scope.
Local Open Scope result_scope.

(** ** Cells, rows and dataframes *)

(** The SQL types the script meets: JSON strings, longs and doubles from the
    readers, [IntegerType] and [TimestampType] from its two casts, [DateType]
    from [to_date], booleans from the filter and join predicates. *)
Inductive value : Type :=
| VNull
| VBool (b : bool)
| VInt (n : Z)
| VLong (n : Z)
| VDouble (x : spec_float)
| VString (s : string)
| VDate (days : Z)
| VTimestamp (micros : Z).

Inductive DataType : Type :=
| IntegerType
| TimestampType.

Definition spec_float_eq_dec (x y : spec_float) : {x = y} + {x <> y}.
Proof.
  decide equality; try apply Z.eq_dec; try apply Pos.eq_dec; apply bool_dec.
Defined.

Definition value_eq_dec (x y : value) : {x = y} + {x <> y}.
Proof.
  decide equality;
    try apply Z.eq_dec; try apply bool_dec;
    try apply string_dec; apply spec_float_eq_dec.
Defined.

Definition row := list value.

Definition row_eq_dec : forall r s : row, {r = s} + {r <> s} :=
  list_eq_dec value_eq_dec.

Definition row_eqb (r s : row) : bool :=
  if row_eq_dec r s then true else false.

Record DataFrame : Type := mkDataFrame {
  columns : list string;
  rows : list row
}.

(** *** Column resolution *)

Fixpoint indices (c : string) (cols : list string) (i : nat) : list nat :=
  match cols with
  | [] => []
  | c' :: rest =>
      if String.eqb c c' then i :: indices c rest (S i)
      else indices c rest (S i)
  end.

(** A name resolves when exactly one column of the schema bears it. *)
Definition resolve (cols : list string) (c : string) : result nat :=
  match indices c cols 0 with
  | [] => Err (UnresolvedColumn c)
  | [i] => Ok i
  | _ :: _ :: _ => Err (AmbiguousReference c)
  end.

Definition cell (i : nat) (r : row) : value := nth i r VNull.

Definition pick (idxs : list nat) (r : row) : row :=
  map (fun i => cell i r) idxs.

(** *** Column expressions *)

Inductive Column : Type :=
| col (name : string)
| lit (v : value)
| cast (c : Column) (t : DataType)
| equals (a b : Column)
| udf (f : value -> result value) (c : Column)
| builtin (f : value -> value) (c : Column).

(** Where the engine compares or groups values it does not tell [-0.0]
    from [0.0], nor one NaN from another ([spec_float] has one NaN only):
    it works on the value with a zero made positive. *)
Definition normalize (v : value) : value :=
  match v with
  | VDouble (S754_zero _) => VDouble (S754_zero false)
  | _ => v
  end.

(** [==] of the engine: three-valued, a null operand gives null. *)
Definition sql_eq (a b : value) : value :=
  match a, b with
  | VNull, _ | _, VNull => VNull
  | _, _ =>
      VBool (if value_eq_dec (normalize a) (normalize b) then true else false)
  end.

Definition is_true (v : value) : bool :=
  match v with VBool true => true | _ => false end.

Section Compile.

Variable cast_value : DataType -> value -> value.

(** Analysis (name resolution) happens once per expression; evaluation
    happens per row and can fail only inside a UDF. *)
Fixpoint compile (cols : list string) (c : Column)
  : result (row -> result value) :=
  match c with
  | col n => i <- resolve cols n ;; Ok (fun r => Ok (cell i r))
  | lit v => Ok (fun _ => Ok v)
  | cast c' t =>
      f <- compile cols c' ;;
      Ok (fun r => v <- f r ;; Ok (cast_value t v))
  | equals a b =>
      f <- compile cols a ;;
      g <- compile cols b ;;
      Ok (fun r => x <- f r ;; y <- g r ;; Ok (sql_eq x y))
  | udf h c' =>
      f <- compile cols c' ;;
      Ok (fun r => v <- f r ;; h v)
  | builtin h c' =>
      f <- compile cols c' ;;
      Ok (fun r => v <- f r ;; Ok (h v))
  end.

End Compile.

(** ** The calendar

    Both the Python side ([datetime.fromtimestamp]) and the engine side
    ([year], [month], [dayofmonth], [weekofyear], [dayofweek]) work in the
    proleptic Gregorian calendar; days are counted from 1970-01-01. *)

Module Calendar.

Definition days_from_civil (y m d : Z) : Z :=
  let y' := if m <=? 2 then y - 1 else y in
  let era := y' / 400 in
  let yoe := y' - era * 400 in
  let mp := if m <=? 2 then m + 9 else m - 3 in
  let doy := (153 * mp + 2) / 5 + d - 1 in
  let doe := yoe * 365 + yoe / 4 - yoe / 100 + doy in
  era * 146097 + doe - 719468.

Definition civil_from_days (z : Z) : Z * Z * Z :=
  let z' := z + 719468 in
  let era := z' / 146097 in
  let doe := z' - era * 146097 in
  let yoe := (doe - doe / 1460 + doe / 36524 - doe / 146096) / 365 in
  let doy := doe - (365 * yoe + yoe / 4 - yoe / 100) in
  let mp := (5 * doy + 2) / 153 in
  let d := doy - (153 * mp + 2) / 5 + 1 in
  let m := if mp <? 10 then mp + 3 else mp - 9 in
  let y := yoe + era * 400 in
  (if m <=? 2 then y + 1 else y, m, d).

Definition is_leap (y : Z) : bool :=
  ((y mod 4 =? 0) && negb (y mod 100 =? 0)) || (y mod 400 =? 0).

Definition days_in_month (y m : Z) : Z :=
  if m =? 2 then (if is_leap y then 29 else 28)
  else if (m =? 4) || (m =? 6) || (m =? 9) || (m =? 11) then 30
  else 31.

(** ISO-8601 day of the week, Monday = 1 ... Sunday = 7. *)
Definition iso_weekday (days : Z) : Z := (days + 3) mod 7 + 1.

(** ISO-8601 week number: the week of a day is the week of its Thursday. *)
Definition iso_week (days : Z) : Z :=
  let thursday := days - (iso_weekday days - 1) + 3 in
  let '(y, _, _) := civil_from_days thursday in
  (thursday - days_from_civil y 1 1) / 7 + 1.

End Calendar.

(** ** The Python side of the UDF: [t / 1000], [datetime.fromtimestamp]
    and [isoformat] *)

Module Py.

(** A Python [float] is an IEEE-754 binary64. *)
Definition float := spec_float.
Definition prec : Z := 53.
Definition emax : Z := 1024.

Definition float_of_Z (n : Z) : float := binary_normalize prec emax n 0 false.

(** [a / b] on Python ints: the correctly rounded quotient. *)
Definition truediv (a b : Z) : result float :=
  if b =? 0 then Err (ZeroDivisionError "division by zero")
  else if a =? 0 then Ok (S754_zero false)
  else
    let s := xorb (a <? 0) (b <? 0) in
    let '(mz, ez, lz) :=
      SFdiv_core_binary prec emax (Z.abs a) 0 (Z.abs b) 0 in
    match binary_round_aux prec emax s mz ez lz with
    | S754_infinity _ | S754_nan =>
        Err (OverflowError "integer division result too large for a float")
    | q => Ok q
    end.

(** [modf]: the fractional part as a float, the integral part (exact,
    truncated toward zero) as an integer. *)
Definition modf (x : float) : option (float * Z) :=
  match x with
  | S754_zero s => Some (S754_zero s, 0)
  | S754_finite s m e =>
      if 0 <=? e then
        Some (S754_zero s, cond_Zopp s (Z.shiftl (Zpos m) e))
      else
        let ip := Z.shiftr (Zpos m) (- e) in
        let fm := Zpos m - Z.shiftl ip (- e) in
        Some (binary_normalize prec emax (cond_Zopp s fm) e s, cond_Zopp s ip)
  | S754_infinity _ | S754_nan => None
  end.

(** Rounding of a float to the nearest integer, ties to even. *)
Definition round_half_even (x : float) : option Z :=
  match x with
  | S754_zero _ => Some 0
  | S754_finite s m e =>
      if 0 <=? e then Some (cond_Zopp s (Z.shiftl (Zpos m) e))
      else
        let q := Z.shiftr (Zpos m) (- e) in
        let r := Zpos m - Z.shiftl q (- e) in
        let half := Z.shiftl 1 (- e - 1) in
        let q' :=
          match r ?= half with
          | Lt => q
          | Gt => q + 1
          | Eq => if Z.even q then q else q + 1
          end in
        Some (cond_Zopp s q')
  | S754_infinity _ | S754_nan => None
  end.

(** The timezone-naive [datetime] object. *)
Record datetime : Type := mkDatetime {
  dt_year : Z; dt_month : Z; dt_day : Z;
  dt_hour : Z; dt_minute : Z; dt_second : Z;
  dt_microsecond : Z
}.

Definition MINYEAR : Z := 1.
Definition MAXYEAR : Z := 9999.

(** [utcoffset s] is the offset of the host's zone, in seconds east of
    UTC, at epoch second [s].  The offset of a zone is less than a day: a
    parameter beyond that is read as a day. *)
Definition gmtoff (utcoffset : Z -> Z) (s : Z) : Z :=
  Z.max (-86400) (Z.min 86400 (utcoffset s)).

(** [time.localtime]. *)
Definition localtime (utcoffset : Z -> Z) (s : Z) : Z * Z * Z * Z * Z * Z :=
  let w := s + gmtoff utcoffset s in
  let '(y, m, d) := Calendar.civil_from_days (w / 86400) in
  let sod := w mod 86400 in
  (y, m, d, sod / 3600, (sod mod 3600) / 60, sod mod 60).

(** [local(u)] of the C implementation: the seconds the local wall clock
    shows at epoch second [u], counted from the epoch; the conversion
    raises when the local year is not a year of [datetime]. *)
Definition local (utcoffset : Z -> Z) (u : Z) : result Z :=
  let '(y, _, _, _, _, _) := localtime utcoffset u in
  if (MINYEAR <=? y) && (y <=? MAXYEAR) then Ok (u + gmtoff utcoffset u)
  else Err (ValueError "year is out of range").

Definition max_fold_seconds : Z := 86400.

(** [datetime.fromtimestamp(x)] with no [tz] argument: split off the
    fraction, scale it to microseconds, round half to even, carry into the
    seconds, convert to local civil time.  To set [fold] the conversion
    also converts the instant [max_fold_seconds] earlier and, when the
    offset has dropped in between, the instant of the transition: each of
    these conversions can raise.  ([fold] itself is not printed by
    [isoformat] and is not kept.) *)
Definition fromtimestamp (utcoffset : Z -> Z) (x : float) : result datetime :=
  match modf x with
  | None => Err (ValueError "cannot convert float NaN or infinity to integer")
  | Some (frac, ip) =>
      match round_half_even (SFmul prec emax frac (float_of_Z 1000000)) with
      | None => Err (ValueError "cannot convert float NaN or infinity to integer")
      | Some us =>
          let '(t, us) :=
            if 1000000 <=? us then (ip + 1, us - 1000000)
            else if us <? 0 then (ip - 1, us + 1000000)
            else (ip, us) in
          let '(y, m, d, hh, mm, ss) := localtime utcoffset t in
          result_seconds <- local utcoffset t ;;
          probe_seconds <- local utcoffset (t - max_fold_seconds) ;;
          let transition :=
            result_seconds - probe_seconds - max_fold_seconds in
          _ <- (if transition <? 0 then local utcoffset (t + transition)
                else Ok 0) ;;
          Ok (mkDatetime y m d hh mm (Z.min ss 59) us)
      end
  end.

Definition digit (n : Z) : ascii :=
  ascii_of_nat (48 + Z.to_nat (n mod 10)).

(** ["%0wd" % n] for a non-negative [n] of at most [w] digits. *)
Fixpoint zero_padded (w : nat) (n : Z) : string :=
  match w with
  | O => ""
  | S w' => (zero_padded w' (n / 10) ++ String (digit n) "")%string
  end.

(** [datetime.isoformat()], separator ['T'], microseconds only when they
    are not zero. *)
Definition isoformat (dt : datetime) : string :=
  (zero_padded 4 (dt_year dt) ++ "-" ++ zero_padded 2 (dt_month dt) ++ "-"
    ++ zero_padded 2 (dt_day dt) ++ "T"
    ++ zero_padded 2 (dt_hour dt) ++ ":" ++ zero_padded 2 (dt_minute dt)
    ++ ":" ++ zero_padded 2 (dt_second dt)
    ++ (if (dt_microsecond dt =? 0)%Z then ""
        else "." ++ zero_padded 6 (dt_microsecond dt)))%string.

End Py.

(** ** The engine side: casts and date functions

    A [TimestampType] cell is a count of microseconds.  The script builds it
    from a zone-less string and only ever reads it back through the field
    extractors, both in the session time zone, so the model keeps the
    wall-clock count: microseconds since 1970-01-01 00:00:00 on the session
    clock. *)

Module Sql.

Definition MICROS_PER_SECOND : Z := 1000000.
Definition MICROS_PER_DAY : Z := 86400000000.

Definition is_digit (c : ascii) : bool :=
  let n := nat_of_ascii c in ((48 <=? n) && (n <=? 57))%nat.

Definition digit_val (c : ascii) : Z := Z.of_nat (nat_of_ascii c) - 48.

(** Reads the longest run of decimal digits: its value, its length and
    what follows it. *)
Fixpoint digits_from (s : string) (acc : Z) (n : nat) : Z * nat * string :=
  match s with
  | String c s' =>
      if is_digit c then digits_from s' (10 * acc + digit_val c) (S n)
      else (acc, n, s)
  | EmptyString => (acc, n, s)
  end.

Definition digits (s : string) : Z * nat * string := digits_from s 0 0%nat.

Definition expect (c : ascii) (s : string) : option string :=
  match s with
  | String c' s' => if Ascii.eqb c c' then Some s' else None
  | EmptyString => None
  end.

Definition one_or_two (n : nat) : bool := ((1 <=? n) && (n <=? 2))%nat.

(** [hh:mm:ss[.ffffff]] to the end of the string, as microseconds of the
    day.  Digits of the fraction past the sixth are dropped. *)
Definition parse_time_of_day (s : string) : option Z :=
  let '(hh, nh, s1) := digits s in
  match expect ":" s1 with
  | None => None
  | Some s2 =>
      let '(mm, nm, s3) := digits s2 in
      match expect ":" s3 with
      | None => None
      | Some s4 =>
          let '(ss, ns, s5) := digits s4 in
          let whole := (hh * 3600 + mm * 60 + ss) * MICROS_PER_SECOND in
          if one_or_two nh && one_or_two nm && one_or_two ns
             && (hh <? 24) && (mm <? 60) && (ss <? 60)
          then
            match s5 with
            | EmptyString => Some whole
            | String c s6 =>
                if Ascii.eqb c "." then
                  let '(f, nf, s7) := digits s6 in
                  match s7 with
                  | EmptyString =>
                      let k := Z.of_nat nf in
                      Some (whole +
                            (if k <=? 6 then f * 10 ^ (6 - k)
                             else f / 10 ^ (k - 6)))
                  | String _ _ => None
                  end
                else None
            end
          else None
      end
  end.

(** The string-to-timestamp cast on [yyyy-[m]m-[d]d] optionally followed
    by ['T'] or a blank and a time of day; any other text (a zone suffix
    included) is read as null. *)
Definition parse_timestamp (s : string) : option Z :=
  let '(y, ny, s1) := digits s in
  match expect "-" s1 with
  | None => None
  | Some s2 =>
      let '(m, nm, s3) := digits s2 in
      match expect "-" s3 with
      | None => None
      | Some s4 =>
          let '(d, nd, s5) := digits s4 in
          if (ny =? 4)%nat && one_or_two nm && one_or_two nd
             && (1 <=? m) && (m <=? 12)
             && (1 <=? d) && (d <=? Calendar.days_in_month y m)
          then
            let day0 := Calendar.days_from_civil y m d * MICROS_PER_DAY in
            match s5 with
            | EmptyString => Some day0
            | String c s6 =>
                if Ascii.eqb c "T" || Ascii.eqb c " " then
                  match parse_time_of_day s6 with
                  | Some us => Some (day0 + us)
                  | None => None
                  end
                else None
            end
          else None
      end
  end.

Definition wrap32 (n : Z) : Z := (n + 2 ^ 31) mod 2 ^ 32 - 2 ^ 31.

Definition in_int32 (n : Z) : bool := (- 2 ^ 31 <=? n) && (n <? 2 ^ 31).

(** The bytes the cast trims from both ends of a string: white space and
    control characters. *)
Definition is_blank (c : ascii) : bool :=
  let n := nat_of_ascii c in ((n <=? 32) || (n =? 127))%nat.

Fixpoint trim_left (s : string) : string :=
  match s with
  | String c s' => if is_blank c then trim_left s' else s
  | EmptyString => s
  end.

Fixpoint trim_right (s : string) : string :=
  match s with
  | String c s' =>
      match trim_right s' with
      | EmptyString => if is_blank c then EmptyString else String c EmptyString
      | r => String c r
      end
  | EmptyString => s
  end.

(** The string-to-integer cast, on the trimmed string: an optional sign
    (not alone), the digits of the integral part, then nothing or a point
    and digits only, which are dropped.  Neither run of digits need hold a
    digit: [.5], [-.5] and [.] are all read as 0.  Anything else, or a
    value outside 32 bits, is null. *)
Definition parse_int (s : string) : option Z :=
  match trim_right (trim_left s) with
  | EmptyString => None
  | String c s' =>
      let '(neg, body, alone) :=
        if Ascii.eqb c "-" then (true, s', String.eqb s' "")
        else if Ascii.eqb c "+" then (false, s', String.eqb s' "")
        else (false, String c s', false) in
      let '(n, _, rest) := digits body in
      let v := if neg then - n else n in
      let ok_tail :=
        match rest with
        | EmptyString => true
        | String c r =>
            Ascii.eqb c "." &&
            (let '(_, _, r') := digits r in
             match r' with EmptyString => true | String _ _ => false end)
        end in
      if negb alone && ok_tail && in_int32 v then Some v else None
  end.

(** A double truncated toward zero, when it is finite. *)
Definition trunc_double (x : spec_float) : option Z :=
  match Py.modf x with
  | Some (_, ip) => Some ip
  | None => None
  end.

Definition cast_value (t : DataType) (v : value) : value :=
  match t, v with
  | _, VNull => VNull
  | IntegerType, VBool b => VInt (if b then 1 else 0)
  | IntegerType, VInt n => VInt n
  | IntegerType, VLong n => VInt (wrap32 n)
  | IntegerType, VDouble x =>
      match trunc_double x with
      | Some n => VInt (Z.max (- 2 ^ 31) (Z.min (2 ^ 31 - 1) n))
      | None =>
          match x with
          | S754_infinity false => VInt (2 ^ 31 - 1)
          | S754_infinity true => VInt (- 2 ^ 31)
          | _ => VInt 0
          end
      end
  | IntegerType, VString s =>
      match parse_int s with Some n => VInt n | None => VNull end
  | IntegerType, VDate _ => VNull
  | IntegerType, VTimestamp us => VInt (wrap32 (us / MICROS_PER_SECOND))
  | TimestampType, VBool b => VTimestamp (if b then 1 else 0)
  | TimestampType, VInt n => VTimestamp (n * MICROS_PER_SECOND)
  | TimestampType, VLong n => VTimestamp (n * MICROS_PER_SECOND)
  | TimestampType, VDouble x =>
      match trunc_double
              (SFmul Py.prec Py.emax x (Py.float_of_Z MICROS_PER_SECOND)) with
      | Some us => VTimestamp us
      | None => VNull
      end
  | TimestampType, VString s =>
      match parse_timestamp s with Some us => VTimestamp us | None => VNull end
  | TimestampType, VDate d => VTimestamp (d * MICROS_PER_DAY)
  | TimestampType, VTimestamp us => VTimestamp us
  end.

(** The field extractors take a timestamp (or a date, or a string the
    engine casts for them) and give null on null. *)
Definition micros_of (v : value) : option Z :=
  match cast_value TimestampType v with
  | VTimestamp us =>
      match v with
      | VTimestamp _ | VDate _ | VString _ => Some us
      | _ => None
      end
  | _ => None
  end.

Definition days_of (v : value) : option Z :=
  match micros_of v with
  | Some us => Some (us / MICROS_PER_DAY)
  | None => None
  end.

Definition on_days (f : Z -> Z) (v : value) : value :=
  match days_of v with Some d => VInt (f d) | None => VNull end.

Definition to_date (v : value) : value :=
  match days_of v with Some d => VDate d | None => VNull end.

Definition hour (v : value) : value :=
  match micros_of v with
  | Some us => VInt ((us mod MICROS_PER_DAY) / (3600 * MICROS_PER_SECOND))
  | None => VNull
  end.

Definition year : value -> value :=
  on_days (fun d => let '(y, _, _) := Calendar.civil_from_days d in y).

Definition month : value -> value :=
  on_days (fun d => let '(_, m, _) := Calendar.civil_from_days d in m).

Definition dayofmonth : value -> value :=
  on_days (fun d => let '(_, _, dd) := Calendar.civil_from_days d in dd).

Definition weekofyear : value -> value := on_days Calendar.iso_week.

(** [dayofweek]: 1 = Sunday, 2 = Monday, ..., 7 = Saturday. *)
Definition dayofweek : value -> value :=
  on_days (fun d => (d + 4) mod 7 + 1).

End Sql.

(** ** Dataframe operations *)

Module DF.

Definition has_column (name : string) (cols : list string) : bool :=
  existsb (String.eqb name) cols.

(** [df.name]: the driver looks the name up among the columns of the frame
    when the expression is built, and raises when it is not there. *)
Definition getattr (df : DataFrame) (name : string) : result Column :=
  if has_column name (columns df) then Ok (col name)
  else Err (AttributeError name).

(** [df[c1, ..., cn]] *)
Definition select (names : list string) (df : DataFrame) : result DataFrame :=
  idxs <- mapM (resolve (columns df)) names ;;
  Ok (mkDataFrame names (map (pick idxs) (rows df))).

Fixpoint replace_cells (name : string) (cols : list string) (v : value)
         (r : row) : row :=
  match cols, r with
  | c :: cols', x :: r' =>
      (if String.eqb name c then v else x) :: replace_cells name cols' v r'
  | _, _ => r
  end.

(** A new name is appended to the schema; an existing one is overwritten
    in place. *)
Definition put (cols : list string) (name : string) (v : value) (r : row)
  : row :=
  if has_column name cols then replace_cells name cols v r else r ++ [v].

Definition put_schema (cols : list string) (name : string) : list string :=
  if has_column name cols then cols else cols ++ [name].

Definition withColumn (name : string) (c : Column) (df : DataFrame)
  : result DataFrame :=
  f <- compile Sql.cast_value (columns df) c ;;
  rs <- mapM (fun r => v <- f r ;; Ok (put (columns df) name v r)) (rows df) ;;
  Ok (mkDataFrame (put_schema (columns df) name) rs).

Fixpoint filterM (f : row -> result value) (rs : list row)
  : result (list row) :=
  match rs with
  | [] => Ok []
  | r :: rest =>
      v <- f r ;;
      rest' <- filterM f rest ;;
      Ok (if is_true v then r :: rest' else rest')
  end.

(** Rows on which the predicate is null are dropped with the false ones. *)
Definition filter (c : Column) (df : DataFrame) : result DataFrame :=
  f <- compile Sql.cast_value (columns df) c ;;
  rs <- filterM f (rows df) ;;
  Ok (mkDataFrame (columns df) rs).

(** One survivor per key.  The engine keeps whichever row of a key it
    meets first; the order in which it meets the rows of a frame is that of
    the list, which belongs to the run and not to the input files. *)
Fixpoint dedup (key : row -> row) (rs : list row) : list row :=
  match rs with
  | [] => []
  | r :: rest =>
      r :: List.filter (fun r' => negb (row_eqb (key r') (key r)))
                       (dedup key rest)
  end.

(** The cells at the positions [idxs] normalized, the others kept. *)
Fixpoint normalize_at (idxs : list nat) (i : nat) (r : row) : row :=
  match r with
  | [] => []
  | v :: r' =>
      (if existsb (Nat.eqb i) idxs then normalize v else v)
      :: normalize_at idxs (S i) r'
  end.

(** [distinct()] groups by every column: the rows are compared, and
    returned, normalized. *)
Definition distinct (df : DataFrame) : DataFrame :=
  mkDataFrame (columns df) (dedup (fun r => r) (map (map normalize) (rows df))).

(** [dropDuplicates(subset)] groups by the columns of [subset], which are
    compared and returned normalized; the other cells are those of the
    surviving row. *)
Definition dropDuplicates (subset : list string) (df : DataFrame)
  : result DataFrame :=
  idxs <- mapM (resolve (columns df)) subset ;;
  Ok (mkDataFrame (columns df)
        (dedup (pick idxs) (map (normalize_at idxs 0) (rows df)))).

Definition cross (l r : list row) : list row :=
  flat_map (fun x => map (fun y => x ++ y) r) l.

(** [left.join(right, on, "inner")]: the pairs of rows on which the
    condition is true.  The script writes the condition with the columns of
    the two frames ([song_df.artist_name == df.artist]); both names occur
    once in the joined schema, where they are resolved here. *)
Definition join (left right : DataFrame) (on : Column) : result DataFrame :=
  let cols := columns left ++ columns right in
  f <- compile Sql.cast_value cols on ;;
  rs <- filterM f (cross (rows left) (rows right)) ;;
  Ok (mkDataFrame cols rs).

Fixpoint number_rows (ids : nat -> Z) (cols : list string) (name : string)
         (i : nat) (rs : list row) : list row :=
  match rs with
  | [] => []
  | r :: rest =>
      put cols name (VLong (ids i)) r :: number_rows ids cols name (S i) rest
  end.

(** [withColumn(name, monotonically_increasing_id())]: the row at
    position [i] gets [ids i], where [ids] is the numbering of the run
    (partition index in the high bits, position within the partition in
    the low ones). *)
Definition withColumn_id (ids : nat -> Z) (name : string) (df : DataFrame)
  : DataFrame :=
  mkDataFrame (put_schema (columns df) name)
              (number_rows ids (columns df) name 0 (rows df)).

End DF.

(** ** The sink *)

Record Table : Type := mkTable {
  partitioning : list string;
  contents : DataFrame
}.

Definition storage := list (string * Table).

Definition exists_path (path : string) (st : storage) : bool :=
  existsb (fun e => String.eqb path (fst e)) st.

Definition check_partition_column (df : DataFrame) (c : string) : result unit :=
  if DF.has_column c (columns df) then Ok tt
  else Err (PartitionColumnNotFound c).

(** [df.write.partitionBy(cols).parquet(path)] in the default save mode:
    every partition column must be a column of the table, and the path must
    not exist yet. *)
Definition write_parquet (partitionBy : list string) (path : string)
           (df : DataFrame) (st : storage) : result storage :=
  _ <- mapM (check_partition_column df) partitionBy ;;
  if exists_path path st then Err (PathAlreadyExists path)
  else Ok ((path, mkTable partitionBy df) :: st).

(** ** The record source *)

(** *** Paths

    The engine hands the string of a read to Hadoop's [Path] and glob.
    [Path] takes a scheme (what precedes a colon that comes before every
    slash), then an authority (what follows [//], up to the next slash,
    when something follows), and reads the rest as the path: runs of
    slashes count as one slash and a trailing slash is dropped, so that a
    path is the list of its components.  The same reading applies to the
    paths by which the session lists its files. *)

Fixpoint no_char (c : ascii) (s : string) : bool :=
  match s with
  | EmptyString => true
  | String d s' => negb (Ascii.eqb d c) && no_char c s'
  end.

Record Path : Type := mkPath {
  scheme : option string;
  authority : string;
  path_names : list string
}.

Fixpoint split_scheme (s : string) : option (string * string) :=
  match s with
  | EmptyString => None
  | String c s' =>
      if Ascii.eqb c ":" then Some (EmptyString, s')
      else if Ascii.eqb c "/" then None
      else
        match split_scheme s' with
        | Some (sch, rest) => Some (String c sch, rest)
        | None => None
        end
  end.

(** What follows the scheme. *)
Definition rest_of (s : string) : string :=
  match split_scheme s with Some (_, rest) => rest | None => s end.

(** The text after a leading [//], when there is some. *)
Definition after_double_slash (s : string) : option string :=
  match s with
  | String c (String d (String e t)) =>
      if Ascii.eqb c "/" && Ascii.eqb d "/" then Some (String e t) else None
  | _ => None
  end.

(** The text up to the first slash, and the text from that slash on. *)
Fixpoint until_slash (s : string) : string * string :=
  match s with
  | EmptyString => (EmptyString, EmptyString)
  | String c s' =>
      if Ascii.eqb c "/" then (EmptyString, s)
      else let '(a, r) := until_slash s' in (String c a, r)
  end.

Definition starts_name (s : string) : bool :=
  match s with
  | String c _ => negb (Ascii.eqb c "/")
  | EmptyString => false
  end.

(** The components of a path. *)
Fixpoint names (s : string) : list string :=
  match s with
  | EmptyString => []
  | String c s' =>
      if Ascii.eqb c "/" then names s'
      else if starts_name s' then
        match names s' with
        | n :: ns => String c n :: ns
        | [] => [String c EmptyString]
        end
      else String c EmptyString :: names s'
  end.

Definition parse_path (s : string) : Path :=
  let sch :=
    match split_scheme s with Some (sch, _) => Some sch | None => None end in
  match after_double_slash (rest_of s) with
  | Some t => let '(a, p) := until_slash t in mkPath sch a (names p)
  | None => mkPath sch EmptyString (names (rest_of s))
  end.

(** The path [sub] below [p]. *)
Definition extend (p : Path) (sub : list string) : Path :=
  mkPath (scheme p) (authority p) (path_names p ++ sub).

(** The file at [path] lies at [sub] below [base]. *)
Definition located (base path : string) (sub : list string) : Prop :=
  parse_path path = extend (parse_path base) sub.

(** *** Globs

    A glob is matched component by component.  In a component [*] stands
    for any run of characters, [?] for any one character, and any other
    character of those modelled for itself. *)
Fixpoint glob_match (p : string) : string -> bool :=
  match p with
  | EmptyString =>
      fun s => match s with EmptyString => true | String _ _ => false end
  | String c p' =>
      if Ascii.eqb c "*" then
        fix star (s : string) : bool :=
          glob_match p' s
          || match s with
             | String _ s' => star s'
             | EmptyString => false
             end
      else if Ascii.eqb c "?" then
        fun s =>
          match s with
          | String _ s' => glob_match p' s'
          | EmptyString => false
          end
      else
        fun s =>
          match s with
          | String d s' => Ascii.eqb c d && glob_match p' s'
          | EmptyString => false
          end
  end.

Fixpoint match_names (ps ns : list string) : bool :=
  match ps, ns with
  | [], [] => true
  | p :: ps', n :: ns' => glob_match p n && match_names ps' ns'
  | _, _ => false
  end.

Definition scheme_eqb (a b : option string) : bool :=
  match a, b with
  | Some x, Some y => String.eqb x y
  | None, None => true
  | _, _ => false
  end.

(** The glob [pattern] selects the file at [path]. *)
Definition selects (pattern path : string) : bool :=
  let p := parse_path pattern in
  let k := parse_path path in
  scheme_eqb (scheme p) (scheme k)
  && String.eqb (authority p) (authority k)
  && match_names (path_names p) (path_names k).

(** What is modelled: globs without the operators [[..]], [{..}] and the
    escape, and without the components [.] and [..].  A read with another
    glob is given the outcome [OutsideModel]. *)
Definition dots (n : string) : bool := String.eqb n "." || String.eqb n "..".

Definition backslash : ascii := ascii_of_nat 92.

Definition operators (s : string) : bool :=
  negb (no_char "[" s && no_char "{" s && no_char backslash s).

Definition supported (pattern : string) : bool :=
  negb (operators pattern)
  && forallb (fun n => negb (dots n)) (path_names (parse_path pattern)).

(** A component in which every character stands for itself. *)
Definition literal (n : string) : bool := no_char "*" n && no_char "?" n.

(** A base path to which the readers can append their globs and have them
    read below it: its components are literal ones, and it is not the bare
    root [/], after which the [/] of the suffix would start an
    authority. *)
Definition plain (base : string) : bool :=
  negb (operators base)
  && negb (String.eqb (rest_of base) "/")
  && forallb (fun n => literal n && negb (dots n))
             (path_names (parse_path base)).

(** *** Hidden files

    The engine leaves out of a read the files whose name starts with [_]
    (unless it holds a [=]) or with [.], or ends with [._COPYING_]; the
    names that start with [_metadata] or [_common_metadata] are read. *)
Fixpoint ends_with (suffix s : string) : bool :=
  String.eqb suffix s
  || match s with
     | String _ s' => ends_with suffix s'
     | EmptyString => false
     end.

Definition hidden (name : string) : bool :=
  let exclude :=
    (String.prefix "_" name && no_char "=" name)
    || String.prefix "." name || ends_with "._COPYING_" name in
  let include :=
    String.prefix "_common_metadata" name || String.prefix "_metadata" name in
  exclude && negb include.

Definition file_name (path : string) : string :=
  last (path_names (parse_path path)) EmptyString.

(** The catalog records, with the fields the script names and the types
    the JSON reader infers for them in the song files: strings, a long
    [year], double [duration] and coordinates.  A record carries each of
    these fields, as those of the data set do; the value of a field may be
    null. *)
Record song_record : Type := mkSong {
  artist_id : option string;
  artist_latitude : option spec_float;
  artist_location : option string;
  artist_longitude : option spec_float;
  artist_name : option string;
  duration : option spec_float;
  song_id : option string;
  title : option string;
  year : option Z
}.

(** The activity records, with the fields the script names.  In the log
    files [userId] is a JSON string (hence the cast of line 173), [ts] and
    [sessionId] are longs.  A record carries each of these fields; the
    value of a field may be null. *)
Record log_record : Type := mkLog {
  artist : option string;
  firstName : option string;
  gender : option string;
  lastName : option string;
  level : option string;
  location : option string;
  page : option string;
  sessionId : option Z;
  ts : option Z;
  userAgent : option string;
  userId : option string
}.

Definition str (o : option string) : value :=
  match o with Some s => VString s | None => VNull end.

Definition long (o : option Z) : value :=
  match o with Some n => VLong n | None => VNull end.

Definition double (o : option spec_float) : value :=
  match o with Some x => VDouble x | None => VNull end.

(** The JSON reader orders the inferred fields by name. *)
Definition song_schema : list string :=
  ["artist_id"; "artist_latitude"; "artist_location"; "artist_longitude";
   "artist_name"; "duration"; "song_id"; "title"; "year"].

Definition song_row (s : song_record) : row :=
  [str (artist_id s); double (artist_latitude s); str (artist_location s);
   double (artist_longitude s); str (artist_name s); double (duration s);
   str (song_id s); str (title s); long (year s)].

Definition log_schema : list string :=
  ["artist"; "firstName"; "gender"; "lastName"; "level"; "location"; "page";
   "sessionId"; "ts"; "userAgent"; "userId"].

Definition log_row (a : log_record) : row :=
  [str (artist a); str (firstName a); str (gender a); str (lastName a);
   str (level a); str (location a); str (page a); long (sessionId a);
   long (ts a); str (userAgent a); str (userId a)].

Definition song_df (catalog : list song_record) : DataFrame :=
  mkDataFrame song_schema (map song_row catalog).

Definition log_df (activity : list log_record) : DataFrame :=
  mkDataFrame log_schema (map log_row activity).

(** What the session can see: the JSON files, by path, already parsed. *)
Record SparkSession : Type := mkSession {
  song_files : list (string * list song_record);
  log_files : list (string * list log_record)
}.

(** The files a glob selects, in the order in which the engine lists
    them. *)
Definition matching {R : Type} (pattern : string)
           (files : list (string * list R)) : list (string * list R) :=
  List.filter (fun f => selects pattern (fst f)) files.

Definition visible {R : Type} (f : string * list R) : bool :=
  negb (hidden (file_name (fst f))).

(** The records a read finds: those of the selected files that are not
    hidden. *)
Definition records {R : Type} (pattern : string)
           (files : list (string * list R)) : list R :=
  flat_map snd (List.filter visible (matching pattern files)).

(** [spark.read.json(pattern)].  The engine fails when the glob selects no
    file, and when every selected file is hidden, since it is left without
    a file to infer the schema from.  The schema it infers holds the fields
    of the records: the frame of files without a record has no column;
    otherwise it is [frame] of the records, whose types carry the fields
    the script names. *)
Definition read_json {R : Type} (files : list (string * list R))
           (frame : list R -> DataFrame) (pattern : string) : result DataFrame :=
  if negb (supported pattern) then Err (OutsideModel pattern)
  else
    match matching pattern files with
    | [] => Err (PathDoesNotExist pattern)
    | fs =>
        match List.filter visible fs with
        | [] => Err UnableToInferSchema
        | _ =>
            match records pattern files with
            | [] => Ok (mkDataFrame [] [])
            | recs => Ok (frame recs)
            end
        end
    end.

Definition ALLOW_READ : bool := true.
Definition ALLOW_WRITE : bool := true.

(** The two globs, lines 35-38 and 58-61; the flag is the module constant
    [ALLOW_READ] in the readers below. *)

Definition song_data (allow_read : bool) (input_data : string) : string :=
  if allow_read then (input_data ++ "/song-data/A/A/*/*.json")%string
  else "data/song-data/A/A/*/*.json".

Definition log_data (allow_read : bool) (input_data : string) : string :=
  if allow_read then (input_data ++ "/log-data/A/A/*.json")%string
  else "data/log-data/*.json".

Definition read_song_data (spark : SparkSession) (input_data : string)
  : result DataFrame :=
  read_json (song_files spark) song_df (song_data ALLOW_READ input_data).

Definition read_log_data (spark : SparkSession) (input_data : string)
  : result DataFrame :=
  read_json (log_files spark) log_df (log_data ALLOW_READ input_data).

(** ** The catalog transformer *)

(** [songs_table]: lines 110-118. *)
Definition songs_table (df : DataFrame) : result DataFrame :=
  t <- DF.select ["song_id"; "title"; "artist_id"; "year"; "duration"] df ;;
  DF.dropDuplicates ["song_id"] t.

(** [artists_table]: lines 127-133. *)
Definition artists_table (df : DataFrame) : result DataFrame :=
  t <- DF.select ["artist_id"; "artist_name"; "artist_location";
                  "artist_latitude"; "artist_longitude"] df ;;
  Ok (DF.distinct t).

Definition write_if_allowed (partitionBy : list string) (path : string)
           (df : DataFrame) (st : storage) : result storage :=
  if ALLOW_WRITE then write_parquet partitionBy path df st else Ok st.

Definition process_song_data (spark : SparkSession)
           (input_data output_data : string) (st : storage) : result storage :=
  df <- read_song_data spark input_data ;;
  songs <- songs_table df ;;
  st <- write_if_allowed ["year"; "artist_id"]
          (output_data ++ "songs/songs_table.parquet")%string songs st ;;
  artists <- artists_table df ;;
  write_if_allowed []
    (output_data ++ "artists/artists_table.parquet")%string artists st.

(** ** The activity transformer *)

Section Run.

(** What a run depends on besides its inputs: the time zone of the host,
    as seconds east of UTC at each epoch second, and the numbering
    [monotonically_increasing_id] hands out. *)
Variable utcoffset : Z -> Z.
Variable ids : nat -> Z.

(** [lambda t: datetime.fromtimestamp(t / 1000).isoformat()] on a long
    column; the UDF returns a string column. *)
Definition get_timestamp (t : value) : result value :=
  match t with
  | VLong n | VInt n =>
      x <- Py.truediv n 1000 ;;
      d <- Py.fromtimestamp utcoffset x ;;
      Ok (VString (Py.isoformat d))
  | VBool b =>
      x <- Py.truediv (if b then 1 else 0) 1000 ;;
      d <- Py.fromtimestamp utcoffset x ;;
      Ok (VString (Py.isoformat d))
  | VDouble x =>
      d <- Py.fromtimestamp utcoffset
             (SFdiv Py.prec Py.emax x (Py.float_of_Z 1000)) ;;
      Ok (VString (Py.isoformat d))
  | _ => Err (TypeError "unsupported operand type(s) for /")
  end.

(** Lines 171-178: the integer copy of [userId], then the page filter. *)
Definition filtered (df : DataFrame) : result DataFrame :=
  user <- DF.getattr df "userId" ;;
  df1 <- DF.withColumn "user_id" (cast user IntegerType) df ;;
  action <- DF.getattr df "page" ;;
  DF.filter (equals action (lit (VString "NextSong"))) df1.

(** Lines 181-187, on the filtered frame. *)
Definition user_table (df : DataFrame) : result DataFrame :=
  t <- DF.select ["firstName"; "lastName"; "gender"; "level"; "userId"] df ;;
  Ok (DF.distinct t).

(** Lines 200-238: [start_time], [datetime] and the six calendar columns. *)
Definition with_time_columns (df : DataFrame) : result DataFrame :=
  df <- DF.withColumn "start_time"
          (cast (udf get_timestamp (col "ts")) TimestampType) df ;;
  df <- DF.withColumn "datetime"
          (cast (builtin Sql.to_date (col "start_time")) TimestampType) df ;;
  df <- DF.withColumn "hour" (builtin Sql.hour (col "start_time")) df ;;
  df <- DF.withColumn "day" (builtin Sql.dayofmonth (col "start_time")) df ;;
  df <- DF.withColumn "month" (builtin Sql.month (col "start_time")) df ;;
  df <- DF.withColumn "year" (builtin Sql.year (col "start_time")) df ;;
  df <- DF.withColumn "week" (builtin Sql.weekofyear (col "start_time")) df ;;
  DF.withColumn "weekday" (builtin Sql.dayofweek (col "start_time")) df.

Definition time_columns : list string :=
  ["start_time"; "hour"; "day"; "week"; "month"; "year"; "weekday"].

(** Lines 240-248, on the frame with the time columns. *)
Definition time_table (df : DataFrame) : result DataFrame :=
  t <- DF.select time_columns df ;;
  Ok (DF.distinct t).

Definition songplays_columns : list string :=
  ["start_time"; "userId"; "level"; "sessionId"; "location"; "userAgent";
   "song_id"; "artist_id"].

(** Lines 263-275: the join on the artist's name and the projection,
    before [distinct]. *)
Definition songplays_joined (df song_df : DataFrame) : result DataFrame :=
  name <- DF.getattr song_df "artist_name" ;;
  performer <- DF.getattr df "artist" ;;
  j <- DF.join df song_df (equals name performer) ;;
  DF.select songplays_columns j.

(** Lines 263-279. *)
Definition songplays_table (df song_df : DataFrame) : result DataFrame :=
  t <- songplays_joined df song_df ;;
  Ok (DF.withColumn_id ids "songplay_id" (DF.distinct t)).

Definition process_log_data (spark : SparkSession)
           (input_data output_data : string) (st : storage) : result storage :=
  df <- read_log_data spark input_data ;;
  df <- filtered df ;;
  users <- user_table df ;;
  st <- write_if_allowed []
          (output_data ++ "users/users_table.parquet")%string users st ;;
  df <- with_time_columns df ;;
  time <- time_table df ;;
  st <- write_if_allowed ["year"; "month"]
          (output_data ++ "time/time_table.parquet")%string time st ;;
  song_df <- read_song_data spark input_data ;;
  songplays <- songplays_table df song_df ;;
  write_if_allowed ["year"; "month"]
    (output_data ++ "songplays/songplays_table.parquet")%string songplays st.

Definition main (spark : SparkSession) (st : storage) : result storage :=
  let input_data := "s3a://udacity-dend/" in
  let output_data := "s3a://aws-logs-368346057517-us-west-2/elasticmapreduce/" in
  st <- process_song_data spark input_data output_data st ;;
  process_log_data spark input_data output_data st.

(** The frame after lines 171-238, and the three activity tables as
    functions of the raw frames. *)
Definition timed (log : DataFrame) : result DataFrame :=
  df <- filtered log ;; with_time_columns df.

Definition Users (log : DataFrame) : result DataFrame :=
  df <- filtered log ;; user_table df.

Definition Time (log : DataFrame) : result DataFrame :=
  df <- timed log ;; time_table df.

Definition Plays_joined (log catalog : DataFrame) : result DataFrame :=
  df <- timed log ;; songplays_joined df catalog.

Definition Plays (log catalog : DataFrame) : result DataFrame :=
  df <- timed log ;; songplays_table df catalog.

(** The [start_time] cell of one row: the UDF, then the cast of its
    string. *)
Definition start_time (t : value) : result value :=
  s <- get_timestamp t ;; Ok (Sql.cast_value TimestampType s).

End Run.

(** ** The rows of each table, read off the records

    These functions restate no step of the script; they name the rows that
    the lemmas below show the script to compute. *)

Definition is_next_song (a : log_record) : bool :=
  match page a with
  | Some p => String.eqb p "NextSong"
  | None => false
  end.

Definition next_songs (log : list log_record) : list log_record :=
  List.filter is_next_song log.

Definition filtered_schema : list string := log_schema ++ ["user_id"].

Definition filtered_row (a : log_record) : row :=
  log_row a ++ [Sql.cast_value IntegerType (str (userId a))].

Definition user_columns : list string :=
  ["firstName"; "lastName"; "gender"; "level"; "userId"].

Definition user_row (a : log_record) : row :=
  [str (firstName a); str (lastName a); str (gender a); str (level a);
   str (userId a)].

Definition song_columns : list string :=
  ["song_id"; "title"; "artist_id"; "year"; "duration"].

Definition item_row (s : song_record) : row :=
  [str (song_id s); str (title s); str (artist_id s); long (year s);
   double (duration s)].

Definition artist_columns : list string :=
  ["artist_id"; "artist_name"; "artist_location"; "artist_latitude";
   "artist_longitude"].

Definition creator_row (s : song_record) : row :=
  [str (artist_id s); str (artist_name s); str (artist_location s);
   double (artist_latitude s); double (artist_longitude s)].

(** The row of a creator as [distinct()] returns it. *)
Definition grouped_creator_row (s : song_record) : row :=
  map normalize (creator_row s).

Definition time_cells (st : value) : row :=
  [st; Sql.cast_value TimestampType (Sql.to_date st); Sql.hour st;
   Sql.dayofmonth st; Sql.month st; Sql.year st; Sql.weekofyear st;
   Sql.dayofweek st].

Definition timed_schema : list string :=
  filtered_schema ++ ["start_time"; "datetime"; "hour"; "day"; "month";
                      "year"; "week"; "weekday"].

Definition time_row (st : value) : row :=
  [st; Sql.hour st; Sql.dayofmonth st; Sql.weekofyear st; Sql.month st;
   Sql.year st; Sql.dayofweek st].

(** The join predicate on a pair of records: both names are present and
    are the same string. *)
Definition same_name (p : log_record * song_record) : bool :=
  match artist_name (snd p), artist (fst p) with
  | Some x, Some y => String.eqb x y
  | _, _ => false
  end.

Definition plays_columns : list string := songplays_columns ++ ["songplay_id"].

Section Rows.

Variable utcoffset : Z -> Z.

(** The UDF raises on no row of the record. *)
Definition ts_ok (a : log_record) : Prop :=
  is_ok (start_time utcoffset (long (ts a))) = true.

Definition start_time_of (a : log_record) : value :=
  match start_time utcoffset (long (ts a)) with
  | Ok v => v
  | Err _ => VNull
  end.

Definition timed_row (a : log_record) : row :=
  filtered_row a ++ time_cells (start_time_of a).

Definition play_row (p : log_record * song_record) : row :=
  let '(a, s) := p in
  [start_time_of a; str (userId a); str (level a); long (sessionId a);
   str (location a); str (userAgent a); str (song_id s); str (artist_id s)].

Definition matched_pairs (log : list log_record)
           (catalog : list song_record) : list (log_record * song_record) :=
  List.filter same_name (list_prod (next_songs log) catalog).

End Rows.

(** Two runs agree on a table when both fail or both produce the same
    columns and the same rows, in whatever order. *)
Definition same_table (r r' : result DataFrame) : Prop :=
  match r, r' with
  | Ok t, Ok t' => columns t = columns t' /\ Permutation (rows t) (rows t')
  | Err _, Err _ => True
  | _, _ => False
  end.

Fixpoint drop_cells (name : string) (cols : list string) (r : row) : row :=
  match cols, r with
  | c :: cols', x :: r' =>
      if String.eqb name c then drop_cells name cols' r'
      else x :: drop_cells name cols' r'
  | _, _ => r
  end.

(** [df.drop(name)], used to compare two Plays tables up to their ids. *)
Definition drop (name : string) (df : DataFrame) : DataFrame :=
  mkDataFrame (List.filter (fun c => negb (String.eqb name c)) (columns df))
              (map (drop_cells name (columns df)) (rows df)).

(** Spec wording of the scenario ("start_time truncates to whole seconds"):
    the local wall-clock second of the epoch millisecond, fraction dropped. *)
Definition start_time_truncated (utcoffset : Z -> Z) (timestamp_ms : Z) : value :=
  let s := timestamp_ms / 1000 in
  VTimestamp ((s + utcoffset s) * Sql.MICROS_PER_SECOND).

Definition UTC (s : Z) : Z := 0.

(** ** Sample records

    The records on which the statements below are evaluated.  [ann_play] is
    a play at 1541990258796 ms, the instant of the scenario; [ann_again] is
    the same play once more and [ann_later] one second later. *)

Definition ann_play : log_record :=
  mkLog (Some "Abba") (Some "Ann") (Some "F") (Some "Lee") (Some "paid")
        (Some "Lund") (Some "NextSong") (Some 7) (Some 1541990258796)
        (Some "Mozilla") (Some "39").

Definition ann_again : log_record :=
  mkLog (Some "Abba") (Some "Ann") (Some "F") (Some "Lee") (Some "paid")
        (Some "Lund") (Some "NextSong") (Some 7) (Some 1541990258796)
        (Some "Mozilla") (Some "39").

Definition ann_later : log_record :=
  mkLog (Some "Abba") (Some "Ann") (Some "F") (Some "Lee") (Some "paid")
        (Some "Lund") (Some "NextSong") (Some 7) (Some 1541990259796)
        (Some "Mozilla") (Some "39").

(** A record that is no play. *)
Definition bob_home : log_record :=
  mkLog (Some "Abba") (Some "Bob") (Some "M") (Some "Ray") (Some "free")
        (Some "Oslo") (Some "Home") (Some 8) (Some 1541990258796)
        (Some "Mozilla") (Some "40").

(** Plays whose artist differs from "Abba" by case, by a trailing blank, or
    altogether. *)
Definition abba_lower : log_record :=
  mkLog (Some "abba") (Some "Cid") (Some "M") (Some "Orr") (Some "free")
        (Some "Bergen") (Some "NextSong") (Some 9) (Some 1541990258796)
        (Some "Mozilla") (Some "41").

Definition abba_blank : log_record :=
  mkLog (Some "Abba ") (Some "Dee") (Some "F") (Some "Poe") (Some "free")
        (Some "Turku") (Some "NextSong") (Some 10) (Some 1541990258796)
        (Some "Mozilla") (Some "42").

Definition zz_top : log_record :=
  mkLog (Some "ZZ Top") (Some "Eve") (Some "F") (Some "Roe") (Some "free")
        (Some "Vaasa") (Some "NextSong") (Some 11) (Some 1541990258796)
        (Some "Mozilla") (Some "43").

(** Two catalog records of the song "S1" that differ only in [duration],
    and a song of another artist. *)
Definition S1_short : song_record :=
  mkSong (Some "AR1") None (Some "Stockholm") None (Some "Abba")
         (Some (Py.float_of_Z 200)) (Some "S1") (Some "Waterloo") (Some 1974).

Definition S1_long : song_record :=
  mkSong (Some "AR1") None (Some "Stockholm") None (Some "Abba")
         (Some (Py.float_of_Z 300)) (Some "S1") (Some "Waterloo") (Some 1974).

Definition S2_elsewhere : song_record :=
  mkSong (Some "AR2") None (Some "Oslo") None (Some "A-ha")
         (Some (Py.float_of_Z 225)) (Some "S2") (Some "Take On Me")
         (Some 1984).

(** Two buckets: one file of each kind under [A/A]; the same with a
    hidden file beside the catalog file, and with files elsewhere. *)
Definition udacity : SparkSession :=
  mkSession
    [("s3a://udacity-dend/song-data/A/A/B/TRAAB.json", [S1_short])]
    [("s3a://udacity-dend/log-data/A/A/2018-11-12-events.json",
      [bob_home; ann_play])].

Definition bucket : SparkSession :=
  mkSession
    [("s3a://udacity-dend/song-data/A/A/B/TRAAB.json", [S1_short]);
     ("s3a://udacity-dend/song-data/A/A/B/_TRAAC.json", [S1_long]);
     ("s3a://udacity-dend/song-data/A/B/C/TRABC.json", [S2_elsewhere]);
     ("s3a://udacity-dend/song-data/B/A/A/TRBAA.json", [S2_elsewhere])]
    [("s3a://udacity-dend/log-data/A/A/2018-11-12-events.json", [ann_play]);
     ("s3a://udacity-dend/log-data/2018/11/2018-11-13-events.json",
      [zz_top])].

(** A numbering, the Plays table of [ann_play], the Time rows of a log on a
    host in UTC, and the instant of the scenario. *)
Definition numbering (i : nat) : Z := Z.of_nat i.

Definition plays_of_ann : DataFrame :=
  mkDataFrame plays_columns [play_row UTC (ann_play, S1_short) ++ [VLong 0]].

Definition time_rows_of (log : list log_record) : list row :=
  map (fun a => time_row (start_time_of UTC a)) (next_songs log).

Definition scenario_ms : Z := 1541990258796.

Definition scenario_s : Z := 1541990258.

(** ** Datetimes as the cast reads them

    A [datetime] whose fields are a civil date and a time of day, and the
    second of the wall clock it denotes. *)

Definition valid_datetime (dt : Py.datetime) : Prop :=
  1 <= Py.dt_year dt <= 9999
  /\ 1 <= Py.dt_month dt <= 12
  /\ 1 <= Py.dt_day dt
          <= Calendar.days_in_month (Py.dt_year dt) (Py.dt_month dt)
  /\ 0 <= Py.dt_hour dt < 24
  /\ 0 <= Py.dt_minute dt < 60
  /\ 0 <= Py.dt_second dt < 60.

Definition wall_clock_seconds (dt : Py.datetime) : Z :=
  Calendar.days_from_civil (Py.dt_year dt) (Py.dt_month dt) (Py.dt_day dt)
  * 86400
  + (Py.dt_hour dt * 3600 + Py.dt_minute dt * 60 + Py.dt_second dt).

(** More sample records: Ann after she left the paid level, the catalog
    record of "S1" with the artist at another location, and a datetime. *)
Definition ann_free : log_record :=
  mkLog (Some "Abba") (Some "Ann") (Some "F") (Some "Lee") (Some "free")
        (Some "Lund") (Some "NextSong") (Some 12) (Some 1541990259796)
        (Some "Mozilla") (Some "39").

Definition S1_moved : song_record :=
  mkSong (Some "AR1") None (Some "Malmo") None (Some "Abba")
         (Some (Py.float_of_Z 200)) (Some "S1") (Some "Waterloo") (Some 1974).

(** The catalog record of "S1" with the artist on the equator, the
    latitude written [0.0] and [-0.0], and a bucket that holds them. *)
Definition S1_north : song_record :=
  mkSong (Some "AR1") (Some (S754_zero false)) (Some "Stockholm") None
         (Some "Abba") (Some (Py.float_of_Z 200)) (Some "S1")
         (Some "Waterloo") (Some 1974).

Definition S1_south : song_record :=
  mkSong (Some "AR1") (Some (S754_zero true)) (Some "Stockholm") None
         (Some "Abba") (Some (Py.float_of_Z 200)) (Some "S1")
         (Some "Waterloo") (Some 1974).

Definition equator : SparkSession :=
  mkSession
    [("s3a://udacity-dend/song-data/A/A/B/TRAAB.json",
      [S1_north; S1_moved; S1_south])]
    [].

(** A bucket whose two files hold no record. *)
Definition blank : SparkSession :=
  mkSession
    [("s3a://udacity-dend/song-data/A/A/B/TRAAB.json", [])]
    [("s3a://udacity-dend/log-data/A/A/2018-11-12-events.json", [])].

Definition leap_day_noon : Py.datetime :=
  Py.mkDatetime 2020 2 29 12 0 7 5.

(** The catalog records a run reads, and the activity records. *)
Definition catalog_of (spark : SparkSession) (input_data : string)
  : list song_record :=
  records (song_data ALLOW_READ input_data) (song_files spark).

Definition activity_of (spark : SparkSession) (input_data : string)
  : list log_record :=
  records (log_data ALLOW_READ input_data) (log_files spark).

(** The bucket of [udacity] with more records in its two files. *)
Definition udacity_in_place : SparkSession :=
  mkSession
    [("s3a://udacity-dend/song-data/A/A/B/TRAAB.json", [S1_short; S1_long])]
    [("s3a://udacity-dend/log-data/A/A/2018-11-12-events.json",
      [bob_home; ann_play; ann_again; ann_free])].

(** A play without [ts]. *)
Definition ann_untimed : log_record :=
  mkLog (Some "Abba") (Some "Ann") (Some "F") (Some "Lee") (Some "paid")
        (Some "Lund") (Some "NextSong") (Some 7) None
        (Some "Mozilla") (Some "39").

Definition untimed : SparkSession :=
  mkSession
    []
    [("s3a://udacity-dend/log-data/A/A/2018-11-12-events.json",
      [bob_home; ann_play; ann_untimed])].

(** * Properties *)

#[local] Arguments Sql.cast_value : simpl never.
#[local] Arguments get_timestamp : simpl never.
#[local] Arguments Sql.to_date : simpl never.
#[local] Arguments Sql.hour : simpl never.
#[local] Arguments Sql.dayofmonth : simpl never.
#[local] Arguments Sql.month : simpl never.
#[local] Arguments Sql.year : simpl never.
#[local] Arguments Sql.weekofyear : simpl never.
#[local] Arguments Sql.dayofweek : simpl never.

(** ** The result monad over lists *)

Lemma mapM_map_ok {A B C} (f : B -> result C) (g : A -> B) (h : A -> C) l :
  (forall a, In a l -> f (g a) = Ok (h a)) ->
  mapM f (map g l) = Ok (map h l).
Proof.
  induction l as [|a l IH]; intros H; cbn; [reflexivity|].
  rewrite (H a (or_introl eq_refl)). cbn.
  rewrite IH by (intros; apply H; right; assumption). reflexivity.
Qed.

Lemma mapM_ok_inv {A B} (f : A -> result B) l ys :
  mapM f l = Ok ys -> Forall (fun x => is_ok (f x) = true) l.
Proof.
  revert ys. induction l as [|x l IH]; intros ys H; [constructor|].
  cbn in H. destruct (f x) as [y|e] eqn:E; [|discriminate]. cbn in H.
  destruct (mapM f l) as [zs|e] eqn:E'; [|discriminate].
  constructor; [rewrite E; reflexivity | eapply IH; reflexivity].
Qed.

Lemma filterM_map_ok {A} (f : row -> result value) (g : A -> row)
      (p : A -> bool) l :
  (forall a, In a l -> exists v, f (g a) = Ok v /\ is_true v = p a) ->
  DF.filterM f (map g l) = Ok (map g (List.filter p l)).
Proof.
  induction l as [|a l IH]; intros H; cbn; [reflexivity|].
  destruct (H a (or_introl eq_refl)) as (v & -> & <-). cbn.
  rewrite IH by (intros; apply H; right; assumption). cbn.
  destruct (is_true v); reflexivity.
Qed.

Lemma value_eqb_string p q :
  (if value_eq_dec (VString p) (VString q) then true else false)
  = String.eqb p q.
Proof.
  destruct (value_eq_dec (VString p) (VString q)) as [E|N].
  - injection E as ->. symmetry. apply String.eqb_refl.
  - symmetry. apply String.eqb_neq. intros ->. apply N. reflexivity.
Qed.

(** ** Dataframe operations on frames given as [map g l] *)

Lemma select_map {A} names cols idxs (g : A -> row) (h : A -> row) l :
  mapM (resolve cols) names = Ok idxs ->
  (forall a, pick idxs (g a) = h a) ->
  DF.select names (mkDataFrame cols (map g l))
  = Ok (mkDataFrame names (map h l)).
Proof.
  intros R H. unfold DF.select. cbn [columns rows]. rewrite R. cbn [bind].
  rewrite map_map. do 2 f_equal. apply map_ext. exact H.
Qed.

Lemma select_columns names df t :
  DF.select names df = Ok t -> columns t = names.
Proof.
  unfold DF.select. destruct (mapM _ names); cbn; [|discriminate].
  intros [= <-]. reflexivity.
Qed.

Lemma withColumn_map {A} name c cols f (g : A -> row) (h : A -> value) l :
  compile Sql.cast_value cols c = Ok f ->
  DF.has_column name cols = false ->
  (forall a, In a l -> f (g a) = Ok (h a)) ->
  DF.withColumn name c (mkDataFrame cols (map g l))
  = Ok (mkDataFrame (cols ++ [name]) (map (fun a => g a ++ [h a]) l)).
Proof.
  intros C N H. unfold DF.withColumn, DF.put, DF.put_schema.
  cbn [columns rows]. rewrite C, N. cbn [bind].
  rewrite (mapM_map_ok _ g (fun a => g a ++ [h a])); [reflexivity|].
  intros a Ha. rewrite (H a Ha). reflexivity.
Qed.

Ltac with_column h :=
  erewrite (withColumn_map _ _ _ _ _ h);
  [ cbn [bind] | reflexivity | reflexivity | intros; reflexivity ].

Lemma cross_map {A B} (f : A -> row) (g : B -> row) l c :
  DF.cross (map f l) (map g c)
  = map (fun p => f (fst p) ++ g (snd p)) (list_prod l c).
Proof.
  unfold DF.cross. induction l as [|a l IH]; cbn; [reflexivity|].
  rewrite map_app, IH, !map_map. reflexivity.
Qed.

(** ** Deduplication *)

Lemma row_eqb_eq r s : row_eqb r s = true <-> r = s.
Proof.
  unfold row_eqb. destruct (row_eq_dec r s); split; intros; congruence.
Qed.

Section Dedup.

Variable key : row -> row.

Lemma dedup_In r l : In r (DF.dedup key l) -> In r l.
Proof.
  induction l as [|x l IH]; cbn; [tauto|].
  intros [->|H]; [left; reflexivity|]. right. apply IH.
  apply filter_In in H. apply H.
Qed.

Lemma dedup_key_In r l :
  In r l -> exists r', In r' (DF.dedup key l) /\ key r' = key r.
Proof.
  induction l as [|x l IH]; cbn; [tauto|].
  intros [->|H]; [exists r; split; [left|]; reflexivity|].
  destruct (IH H) as (r' & Hr' & E).
  destruct (row_eq_dec (key r') (key x)) as [Ex|Nx].
  - exists x. split; [left; reflexivity | congruence].
  - exists r'. split; [|exact E]. right. apply filter_In. split; [exact Hr'|].
    apply negb_true_iff.
    destruct (row_eqb (key r') (key x)) eqn:B; [|reflexivity].
    apply row_eqb_eq in B. contradiction.
Qed.

Lemma dedup_NoDup_keys l : NoDup (map key (DF.dedup key l)).
Proof.
  induction l as [|x l IH]; cbn; constructor.
  - intros H. apply in_map_iff in H. destruct H as (y & E & Hy).
    apply filter_In in Hy. destruct Hy as [_ Hy].
    apply negb_true_iff in Hy.
    assert (row_eqb (key y) (key x) = true) by (apply row_eqb_eq; exact E).
    congruence.
  - clear - IH. induction (DF.dedup key l) as [|y d IHd]; cbn; [constructor|].
    inversion IH; subst.
    destruct (negb (row_eqb (key y) (key x))); cbn; [|auto].
    constructor; [|auto]. intros H. apply in_map_iff in H.
    destruct H as (z & E & Hz). apply filter_In in Hz.
    apply H1. apply in_map_iff. exists z. tauto.
Qed.

Lemma dedup_NoDup l : NoDup (DF.dedup key l).
Proof. eapply NoDup_map_inv. apply dedup_NoDup_keys. Qed.

(** Two keys that identify the same rows of [l] keep the same survivors. *)
Lemma dedup_ext (key' : row -> row) l :
  (forall r s, In r l -> In s l -> (key r = key s <-> key' r = key' s)) ->
  DF.dedup key l = DF.dedup key' l.
Proof.
  induction l as [|x l IH]; intros H; cbn; [reflexivity|].
  rewrite <- IH by (intros; apply H; right; assumption).
  f_equal. apply filter_ext_in. intros r Hr. f_equal.
  apply dedup_In in Hr.
  destruct (row_eqb (key r) (key x)) eqn:B,
           (row_eqb (key' r) (key' x)) eqn:B'; try reflexivity.
  - apply row_eqb_eq in B.
    apply H in B; [|right; assumption|left; reflexivity].
    apply row_eqb_eq in B. congruence.
  - apply row_eqb_eq in B'.
    apply H in B'; [|right; assumption|left; reflexivity].
    apply row_eqb_eq in B'. congruence.
Qed.

End Dedup.

Lemma dedup_id_In r l : In r (DF.dedup (fun x => x) l) <-> In r l.
Proof.
  split; [apply dedup_In|]. intros H.
  destruct (dedup_key_In (fun x => x) r l H) as (r' & Hr & E). congruence.
Qed.

Lemma dedup_id_same_rows l l' :
  (forall r, In r l <-> In r l') ->
  Permutation (DF.dedup (fun x => x) l) (DF.dedup (fun x => x) l').
Proof.
  intros P. apply NoDup_Permutation; try apply dedup_NoDup.
  intros r. rewrite !dedup_id_In. apply P.
Qed.

(** ** The rows the script computes, table by table *)

Lemma is_next_song_page a :
  is_next_song a = true <-> page a = Some "NextSong".
Proof.
  unfold is_next_song. destruct (page a) as [p|]; [|split; discriminate].
  rewrite String.eqb_eq. split; congruence.
Qed.

Lemma next_songs_In a log :
  In a (next_songs log) <-> In a log /\ page a = Some "NextSong".
Proof.
  unfold next_songs. rewrite filter_In, is_next_song_page. reflexivity.
Qed.

Lemma next_songs_idem log : next_songs (next_songs log) = next_songs log.
Proof.
  unfold next_songs. induction log as [|a l IH]; cbn; [reflexivity|].
  destruct (is_next_song a) eqn:E; cbn; [rewrite E, IH|]; auto.
Qed.

Lemma filtered_spec log :
  filtered (log_df log)
  = Ok (mkDataFrame filtered_schema (map filtered_row (next_songs log))).
Proof.
  unfold filtered, DF.withColumn, log_df. cbn.
  rewrite (mapM_map_ok _ log_row filtered_row) by reflexivity.
  cbn. unfold DF.filter. cbn.
  rewrite (filterM_map_ok _ filtered_row is_next_song); [reflexivity|].
  intros a _. eexists. split; [reflexivity|].
  cbn. unfold is_next_song. destruct (page a) as [p|]; cbn; [|reflexivity].
  rewrite value_eqb_string. destruct (String.eqb p "NextSong"); reflexivity.
Qed.

Lemma filtered_next_songs log :
  filtered (log_df (next_songs log)) = filtered (log_df log).
Proof. rewrite !filtered_spec, next_songs_idem. reflexivity. Qed.

(** Strings and longs are their own normal forms, so [distinct] returns
    rows without doubles as they are. *)
Lemma normalize_str o : normalize (str o) = str o.
Proof. destruct o; reflexivity. Qed.

Lemma normalize_long o : normalize (long o) = long o.
Proof. destruct o; reflexivity. Qed.

Lemma normalize_idem v : normalize (normalize v) = normalize v.
Proof. destruct v as [| | | |[]| | |]; reflexivity. Qed.

Lemma distinct_map {A} cols (f : A -> row) l :
  (forall a, In a l -> map normalize (f a) = f a) ->
  DF.distinct (mkDataFrame cols (map f l))
  = mkDataFrame cols (DF.dedup (fun r => r) (map f l)).
Proof.
  intros H. unfold DF.distinct. cbn [rows columns]. rewrite map_map.
  rewrite (map_ext_in _ f) by exact H. reflexivity.
Qed.

Lemma user_row_normal a : map normalize (user_row a) = user_row a.
Proof. unfold user_row. cbn [map]. rewrite !normalize_str. reflexivity. Qed.

Lemma item_row_normal s : DF.normalize_at [0%nat] 0 (item_row s) = item_row s.
Proof. unfold item_row. cbn. rewrite normalize_str. reflexivity. Qed.

Lemma Users_spec log :
  Users (log_df log)
  = Ok (mkDataFrame user_columns
          (DF.dedup (fun r => r) (map user_row (next_songs log)))).
Proof.
  unfold Users. rewrite filtered_spec. cbn [bind]. unfold user_table.
  erewrite (select_map _ _ _ filtered_row user_row);
    [|reflexivity|reflexivity].
  cbn [bind]. rewrite distinct_map; [reflexivity|].
  intros a _. apply user_row_normal.
Qed.

Lemma songs_table_spec catalog :
  songs_table (song_df catalog)
  = Ok (mkDataFrame song_columns
          (DF.dedup (pick [0%nat]) (map item_row catalog))).
Proof.
  unfold songs_table, song_df.
  erewrite (select_map _ _ _ song_row item_row); [|reflexivity|reflexivity].
  cbn [bind]. unfold DF.dropDuplicates. cbn [columns rows].
  replace (mapM (resolve ["song_id"; "title"; "artist_id"; "year"; "duration"])
                ["song_id"])
    with (Ok (A := list nat) [0%nat]) by reflexivity.
  cbn [bind]. rewrite map_map.
  rewrite (map_ext _ item_row) by apply item_row_normal. reflexivity.
Qed.

Lemma artists_table_spec catalog :
  artists_table (song_df catalog)
  = Ok (mkDataFrame artist_columns
          (DF.dedup (fun r => r) (map grouped_creator_row catalog))).
Proof.
  unfold artists_table, song_df.
  erewrite (select_map _ _ _ song_row creator_row); [|reflexivity|reflexivity].
  cbn [bind]. unfold DF.distinct. cbn [columns rows]. rewrite map_map.
  reflexivity.
Qed.

Lemma write_parquet_ok partitionBy path df st st' :
  write_if_allowed partitionBy path df st = Ok st' ->
  st' = (path, mkTable partitionBy df) :: st.
Proof.
  unfold write_if_allowed, write_parquet. cbn [ALLOW_WRITE].
  destruct (mapM _ partitionBy); [|discriminate]. cbn [bind].
  destruct (exists_path path st); [discriminate|]. intros [= <-]. reflexivity.
Qed.

(** What a successful run of the catalog transformer leaves in the
    destination: the two tables of lines 110-133, Items partitioned by
    [year] and [artist_id]. *)
Lemma process_song_data_writes spark input_data output_data st st' :
  process_song_data spark input_data output_data st = Ok st' ->
  exists df songs artists,
    read_song_data spark input_data = Ok df
    /\ songs_table df = Ok songs
    /\ artists_table df = Ok artists
    /\ st' = [((output_data ++ "artists/artists_table.parquet")%string,
               mkTable [] artists);
              ((output_data ++ "songs/songs_table.parquet")%string,
               mkTable ["year"; "artist_id"] songs)] ++ st.
Proof.
  unfold process_song_data. intros H.
  destruct (read_song_data spark input_data) as [df|] eqn:R; [|discriminate].
  cbn [bind] in H.
  destruct (songs_table df) as [songs|] eqn:S; [|discriminate].
  cbn [bind] in H.
  destruct (write_if_allowed _ _ songs st) as [st1|] eqn:W1; [|discriminate].
  cbn [bind] in H.
  destruct (artists_table df) as [artists|] eqn:A; [|discriminate].
  cbn [bind] in H.
  apply write_parquet_ok in W1, H. subst.
  exists df, songs, artists. repeat split; assumption || reflexivity.
Qed.

Section Timed.

Variable utcoffset : Z -> Z.

Lemma ts_ok_start_time a :
  ts_ok utcoffset a ->
  start_time utcoffset (long (ts a)) = Ok (start_time_of utcoffset a).
Proof.
  unfold ts_ok, start_time_of.
  destruct (start_time utcoffset (long (ts a))); cbn;
    [reflexivity|discriminate].
Qed.

Lemma start_time_ts_ok a v :
  start_time utcoffset (long (ts a)) = Ok v ->
  ts_ok utcoffset a /\ start_time_of utcoffset a = v.
Proof.
  unfold ts_ok, start_time_of. intros ->. split; reflexivity.
Qed.

Lemma with_time_columns_ok l :
  Forall (ts_ok utcoffset) l ->
  with_time_columns utcoffset
    (mkDataFrame filtered_schema (map filtered_row l))
  = Ok (mkDataFrame timed_schema (map (timed_row utcoffset) l)).
Proof.
  intros H. unfold with_time_columns.
  erewrite (withColumn_map _ _ _ _ _ (start_time_of utcoffset));
    [ cbn [bind] | reflexivity | reflexivity | ].
  2:{ intros a Ha. rewrite Forall_forall in H.
      rewrite <- (ts_ok_start_time a (H a Ha)). reflexivity. }
  with_column (fun a => Sql.cast_value TimestampType
                          (Sql.to_date (start_time_of utcoffset a))).
  with_column (fun a => Sql.hour (start_time_of utcoffset a)).
  with_column (fun a => Sql.dayofmonth (start_time_of utcoffset a)).
  with_column (fun a => Sql.month (start_time_of utcoffset a)).
  with_column (fun a => Sql.year (start_time_of utcoffset a)).
  with_column (fun a => Sql.weekofyear (start_time_of utcoffset a)).
  with_column (fun a => Sql.dayofweek (start_time_of utcoffset a)).
  reflexivity.
Qed.

Lemma with_time_columns_inv l df :
  with_time_columns utcoffset
    (mkDataFrame filtered_schema (map filtered_row l)) = Ok df ->
  Forall (ts_ok utcoffset) l.
Proof.
  unfold with_time_columns. intros H.
  destruct (DF.withColumn "start_time" _ _) as [d|e] eqn:E; [|discriminate].
  clear H. unfold DF.withColumn in E. cbn in E.
  destruct (mapM _ _) as [rs|e] eqn:M in E; [|discriminate].
  apply mapM_ok_inv in M. rewrite Forall_map in M.
  eapply Forall_impl; [|exact M]. intros a Ha. unfold ts_ok, start_time.
  cbn in Ha.
  destruct (get_timestamp utcoffset (long (ts a)));
    [reflexivity|discriminate].
Qed.

(** The UDF is the only step of lines 171-238 that can raise: the frame
    exists exactly when it raises on no "NextSong" record. *)
Lemma timed_ok log :
  Forall (ts_ok utcoffset) (next_songs log) ->
  timed utcoffset (log_df log)
  = Ok (mkDataFrame timed_schema
          (map (timed_row utcoffset) (next_songs log))).
Proof.
  intros H. unfold timed. rewrite filtered_spec. cbn [bind].
  apply with_time_columns_ok. exact H.
Qed.

Lemma timed_inv log df :
  timed utcoffset (log_df log) = Ok df ->
  Forall (ts_ok utcoffset) (next_songs log).
Proof.
  unfold timed. rewrite filtered_spec. cbn [bind].
  apply with_time_columns_inv.
Qed.

Lemma timed_cases log :
  (Forall (ts_ok utcoffset) (next_songs log)
   /\ timed utcoffset (log_df log)
      = Ok (mkDataFrame timed_schema
              (map (timed_row utcoffset) (next_songs log))))
  \/ (~ Forall (ts_ok utcoffset) (next_songs log)
      /\ exists e, timed utcoffset (log_df log) = Err e).
Proof.
  destruct (timed utcoffset (log_df log)) as [df|e] eqn:E.
  - left. apply timed_inv in E as F. split; [exact F|].
    rewrite <- E. apply timed_ok. exact F.
  - right. split; [|exists e; reflexivity].
    intros F. rewrite (timed_ok log F) in E. discriminate.
Qed.

Lemma timed_next_songs log :
  timed utcoffset (log_df (next_songs log)) = timed utcoffset (log_df log).
Proof. unfold timed. rewrite filtered_next_songs. reflexivity. Qed.

Lemma time_select l :
  DF.select time_columns
    (mkDataFrame timed_schema (map (timed_row utcoffset) l))
  = Ok (mkDataFrame time_columns
          (map (fun a => time_row (start_time_of utcoffset a)) l)).
Proof.
  erewrite (select_map _ _ _ (timed_row utcoffset)); reflexivity.
Qed.

(** The UDF returns a string, which the cast reads as a timestamp or as
    null: a [start_time] cell is its own normal form, and so are the
    fields taken from it. *)
Lemma get_timestamp_string v s :
  get_timestamp utcoffset v = Ok s -> exists x, s = VString x.
Proof.
  unfold get_timestamp. intros H.
  destruct v; try discriminate;
    repeat match type of H with
           | context [bind ?m _] =>
               destruct m; cbn [bind] in H; [|discriminate]
           end;
    injection H as <-; eexists; reflexivity.
Qed.

Lemma start_time_of_normal a :
  normalize (start_time_of utcoffset a) = start_time_of utcoffset a.
Proof.
  unfold start_time_of, start_time.
  destruct (get_timestamp utcoffset (long (ts a))) as [s|] eqn:G;
    cbn [bind]; [|reflexivity].
  apply get_timestamp_string in G. destruct G as [x ->].
  unfold Sql.cast_value. destruct (Sql.parse_timestamp x); reflexivity.
Qed.

Lemma on_days_normal f v : normalize (Sql.on_days f v) = Sql.on_days f v.
Proof. unfold Sql.on_days. destruct (Sql.days_of v); reflexivity. Qed.

Lemma hour_normal v : normalize (Sql.hour v) = Sql.hour v.
Proof. unfold Sql.hour. destruct (Sql.micros_of v); reflexivity. Qed.

Lemma time_row_normal st :
  normalize st = st -> map normalize (time_row st) = time_row st.
Proof.
  intros H. unfold time_row, Sql.dayofmonth, Sql.weekofyear, Sql.month,
    Sql.year, Sql.dayofweek.
  cbn [map]. rewrite H, hour_normal, !on_days_normal. reflexivity.
Qed.

Lemma play_row_normal p :
  map normalize (play_row utcoffset p) = play_row utcoffset p.
Proof.
  destruct p as [a s]. unfold play_row. cbn [map].
  rewrite start_time_of_normal, !normalize_str, normalize_long. reflexivity.
Qed.

Lemma Time_ok log :
  Forall (ts_ok utcoffset) (next_songs log) ->
  Time utcoffset (log_df log)
  = Ok (mkDataFrame time_columns
          (DF.dedup (fun r => r)
             (map (fun a => time_row (start_time_of utcoffset a))
                  (next_songs log)))).
Proof.
  intros H. unfold Time. rewrite (timed_ok log H). cbn [bind].
  unfold time_table. rewrite time_select. cbn [bind].
  rewrite distinct_map; [reflexivity|].
  intros a _. apply time_row_normal, start_time_of_normal.
Qed.

Lemma songplays_joined_spec l catalog :
  songplays_joined
    (mkDataFrame timed_schema (map (timed_row utcoffset) l))
    (song_df catalog)
  = Ok (mkDataFrame songplays_columns
          (map (play_row utcoffset)
               (List.filter same_name (list_prod l catalog)))).
Proof.
  unfold songplays_joined.
  change (DF.getattr (song_df catalog) "artist_name")
    with (Ok (col "artist_name")).
  change (DF.getattr (mkDataFrame timed_schema (map (timed_row utcoffset) l))
                     "artist")
    with (Ok (col "artist")).
  cbn [bind]. unfold DF.join, song_df. cbn [columns rows].
  rewrite cross_map.
  replace (compile Sql.cast_value (timed_schema ++ song_schema)
             (equals (col "artist_name") (col "artist")))
    with (Ok (fun r : row => Ok (sql_eq (cell 24 r) (cell 0 r))))
    by reflexivity.
  cbn [bind].
  rewrite (filterM_map_ok _ _ same_name).
  2:{ intros [a s] _. eexists. split; [reflexivity|].
      cbn. unfold same_name. cbn.
      destruct (artist_name s) as [x|], (artist a) as [y|]; cbn;
        try reflexivity.
      rewrite value_eqb_string. destruct (String.eqb x y); reflexivity. }
  cbn [bind].
  erewrite (select_map _ _ _ _ (play_row utcoffset));
    [reflexivity|reflexivity|].
  intros [a s]. reflexivity.
Qed.

Lemma Plays_joined_ok log catalog :
  Forall (ts_ok utcoffset) (next_songs log) ->
  Plays_joined utcoffset (log_df log) (song_df catalog)
  = Ok (mkDataFrame songplays_columns
          (map (play_row utcoffset) (matched_pairs log catalog))).
Proof.
  intros H. unfold Plays_joined. rewrite (timed_ok log H). cbn [bind].
  apply songplays_joined_spec.
Qed.

Lemma Plays_ok ids log catalog :
  Forall (ts_ok utcoffset) (next_songs log) ->
  Plays utcoffset ids (log_df log) (song_df catalog)
  = Ok (DF.withColumn_id ids "songplay_id"
          (mkDataFrame songplays_columns
             (DF.dedup (fun r => r)
                (map (play_row utcoffset) (matched_pairs log catalog))))).
Proof.
  intros H. unfold Plays. rewrite (timed_ok log H). cbn [bind].
  unfold songplays_table. rewrite songplays_joined_spec. cbn [bind].
  rewrite distinct_map; [reflexivity|].
  intros p _. apply play_row_normal.
Qed.

Lemma same_name_iff a s :
  same_name (a, s) = true
  <-> exists n, artist a = Some n /\ artist_name s = Some n.
Proof.
  unfold same_name. cbn.
  destruct (artist_name s) as [x|], (artist a) as [y|].
  - rewrite String.eqb_eq. split.
    + intros ->. exists y. split; reflexivity.
    + intros (n & [= ->] & [= ->]). reflexivity.
  - split; [discriminate | intros (n & E & _); discriminate].
  - split; [discriminate | intros (n & _ & E); discriminate].
  - split; [discriminate | intros (n & E & _); discriminate].
Qed.

Lemma matched_pairs_In a s log catalog :
  In (a, s) (matched_pairs log catalog)
  <-> In a log /\ page a = Some "NextSong" /\ In s catalog
      /\ exists n, artist a = Some n /\ artist_name s = Some n.
Proof.
  unfold matched_pairs.
  rewrite filter_In, in_prod_iff, next_songs_In, same_name_iff. tauto.
Qed.

End Timed.

(** ** Items *)

Lemma pick_song_id r : pick [0%nat] r = [cell 0 r].
Proof. reflexivity. Qed.

Lemma NoDup_first_cells (l : list row) :
  NoDup (map (pick [0%nat]) l) -> NoDup (map (cell 0) l).
Proof.
  intros H. apply (NoDup_map_inv (fun v => [v])).
  rewrite map_map. exact H.
Qed.

(** C4. For every catalog the Items table ([songs_table]) is produced and
    holds at most one row per [song_id]: the [song_id] cells of its rows are
    pairwise distinct, every row is the projection of a catalog record, and
    each [song_id] of the catalog occurs in exactly one row (so two records
    with [song_id = "S1"] that differ only in [duration] leave exactly one
    row with [song_id = "S1"]). *)
Theorem items_one_row_per_song_id (catalog : list song_record) :
  exists df,
    songs_table (song_df catalog) = Ok df
    /\ NoDup (map (cell 0) (rows df))
    /\ (forall r, In r (rows df) -> exists s, In s catalog /\ r = item_row s)
    /\ (forall s, In s catalog ->
          count_occ value_eq_dec (map (cell 0) (rows df)) (str (song_id s))
          = 1%nat).
Proof.
  eexists. split; [apply songs_table_spec|]. cbn [rows].
  assert (U : NoDup (map (cell 0)
                        (DF.dedup (pick [0%nat]) (map item_row catalog)))).
  { apply NoDup_first_cells, dedup_NoDup_keys. }
  split; [exact U|]. split.
  - intros r Hr. apply dedup_In in Hr. apply in_map_iff in Hr.
    destruct Hr as (s & <- & Hs). exists s. split; [exact Hs|reflexivity].
  - intros s Hs.
    assert (I : In (str (song_id s))
                   (map (cell 0)
                        (DF.dedup (pick [0%nat]) (map item_row catalog)))).
    { destruct (dedup_key_In (pick [0%nat]) (item_row s) (map item_row catalog))
        as (r' & Hr' & E); [apply in_map; exact Hs|].
      rewrite !pick_song_id in E. injection E as E.
      apply in_map_iff. exists r'. split; [exact E|exact Hr']. }
    apply (count_occ_In value_eq_dec) in I.
    pose proof (proj1 (NoDup_count_occ value_eq_dec _) U (str (song_id s))).
    lia.
Qed.

(** The scenario of the specification, evaluated: one row survives, the
    one of the record delivered first. *)
Example items_scenario_S1 :
  songs_table (song_df [S1_short; S1_long])
  = Ok (mkDataFrame song_columns [item_row S1_short]).
Proof. reflexivity. Qed.

(** ** Users, Time and Plays come from "NextSong" records only *)

Lemma number_rows_In ids cols name r rs : forall i,
  In r (DF.number_rows ids cols name i rs) ->
  exists r0 j, In r0 rs /\ r = DF.put cols name (VLong (ids j)) r0.
Proof.
  induction rs as [|x rs IH]; intros i; cbn; [tauto|].
  intros [<-|H].
  - exists x, i. split; [left|]; reflexivity.
  - destruct (IH _ H) as (r0 & j & H0 & E). exists r0, j.
    split; [right; exact H0|exact E].
Qed.

(** C5. Every row of Users, Time and Plays is the projection of an activity
    record whose [page] is the string "NextSong" (for Time, of its
    [start_time]; for Plays, of the record paired with a catalog record),
    and the three tables are unchanged when every record with another page
    is removed from the input. *)
Theorem activity_tables_from_next_song
        (utcoffset : Z -> Z) (ids : nat -> Z)
        (log : list log_record) (catalog : list song_record) :
  (forall df r, Users (log_df log) = Ok df -> In r (rows df) ->
     exists a, In a log /\ page a = Some "NextSong" /\ r = user_row a)
  /\ (forall df r, Time utcoffset (log_df log) = Ok df -> In r (rows df) ->
        exists a st, In a log /\ page a = Some "NextSong"
                     /\ start_time utcoffset (long (ts a)) = Ok st
                     /\ r = time_row st)
  /\ (forall df r,
        Plays utcoffset ids (log_df log) (song_df catalog) = Ok df ->
        In r (rows df) ->
        exists a s id, In a log /\ page a = Some "NextSong" /\ In s catalog
                       /\ r = play_row utcoffset (a, s) ++ [VLong id])
  /\ Users (log_df (next_songs log)) = Users (log_df log)
  /\ Time utcoffset (log_df (next_songs log)) = Time utcoffset (log_df log)
  /\ Plays utcoffset ids (log_df (next_songs log)) (song_df catalog)
     = Plays utcoffset ids (log_df log) (song_df catalog).
Proof.
  repeat split.
  - intros df r E Hr. rewrite Users_spec in E. injection E as <-.
    cbn [rows] in Hr. apply dedup_In, in_map_iff in Hr.
    destruct Hr as (a & <- & Ha). apply next_songs_In in Ha.
    exists a. tauto.
  - intros df r E Hr.
    assert (F : Forall (ts_ok utcoffset) (next_songs log)).
    { unfold Time in E.
      destruct (timed utcoffset (log_df log)) eqn:T; [|discriminate].
      eapply timed_inv; eassumption. }
    rewrite (Time_ok utcoffset log F) in E. injection E as <-.
    cbn [rows] in Hr. apply dedup_In, in_map_iff in Hr.
    destruct Hr as (a & <- & Ha).
    rewrite Forall_forall in F. pose proof (F a Ha) as Hok.
    apply next_songs_In in Ha. exists a, (start_time_of utcoffset a).
    repeat split; try tauto. apply ts_ok_start_time. exact Hok.
  - intros df r E Hr.
    assert (F : Forall (ts_ok utcoffset) (next_songs log)).
    { unfold Plays in E.
      destruct (timed utcoffset (log_df log)) eqn:T; [|discriminate].
      eapply timed_inv; eassumption. }
    rewrite (Plays_ok utcoffset ids log catalog F) in E. injection E as <-.
    cbn [rows DF.withColumn_id columns] in Hr.
    apply number_rows_In in Hr. destruct Hr as (r0 & j & H0 & ->).
    apply dedup_In, in_map_iff in H0. destruct H0 as ([a s] & <- & Hp).
    apply matched_pairs_In in Hp. exists a, s, (ids j).
    repeat split; tauto.
  - unfold Users. rewrite filtered_next_songs. reflexivity.
  - unfold Time. rewrite timed_next_songs. reflexivity.
  - unfold Plays. rewrite timed_next_songs. reflexivity.
Qed.

(** The scenario of the specification: one "Home" record and one
    "NextSong" record give one Users row, from the latter. *)
Lemma activity_tables_from_next_song_witness :
  exists a, In a [bob_home; ann_play] /\ page a = Some "NextSong"
            /\ user_row ann_play = user_row a.
Proof.
  apply (proj1 (activity_tables_from_next_song UTC numbering
                  [bob_home; ann_play] [S1_short])
               (mkDataFrame user_columns [user_row ann_play])).
  - reflexivity.
  - left. reflexivity.
Defined.

(** ** The join *)

(** C6. Before [distinct], the Plays table has one row for each pair of a
    "NextSong" activity record and a catalog record whose artist names are
    both present and are the same string, in the order of the pairs, and no
    other row: whenever the table is produced it is that list of rows, it
    is produced whenever the UDF raises on no "NextSong" record, and the
    pairs are exactly those with equal names.  String equality is exact:
    neither case nor surrounding blanks are ignored. *)
Theorem plays_joined_exact_pairs
        (utcoffset : Z -> Z) (log : list log_record)
        (catalog : list song_record) :
  (forall df,
      Plays_joined utcoffset (log_df log) (song_df catalog) = Ok df ->
      df = mkDataFrame songplays_columns
             (map (play_row utcoffset) (matched_pairs log catalog)))
  /\ (Forall (ts_ok utcoffset) (next_songs log) ->
      Plays_joined utcoffset (log_df log) (song_df catalog)
      = Ok (mkDataFrame songplays_columns
              (map (play_row utcoffset) (matched_pairs log catalog))))
  /\ (forall a s,
        In (a, s) (matched_pairs log catalog)
        <-> In a log /\ page a = Some "NextSong" /\ In s catalog
            /\ exists n, artist a = Some n /\ artist_name s = Some n)
  /\ (forall a s x y,
        artist a = Some x -> artist_name s = Some y ->
        same_name (a, s) = String.eqb y x)
  /\ String.eqb "Abba" "abba" = false
  /\ String.eqb "Abba" "Abba " = false.
Proof.
  split; [|split; [|split; [|split; [|split]]]].
  - intros df E.
    assert (F : Forall (ts_ok utcoffset) (next_songs log)).
    { unfold Plays_joined in E.
      destruct (timed utcoffset (log_df log)) eqn:T; [|discriminate].
      eapply timed_inv; eassumption. }
    rewrite (Plays_joined_ok utcoffset log catalog F) in E.
    injection E as <-. reflexivity.
  - apply Plays_joined_ok.
  - intros a s. apply matched_pairs_In.
  - intros a s x y Ha Hs. unfold same_name. cbn. rewrite Ha, Hs. reflexivity.
  - reflexivity.
  - reflexivity.
Qed.

(** Four activity records against the two "Abba" catalog records: only the
    "NextSong" record with the very same name joins, once per catalog
    record. *)
Lemma plays_joined_exact_pairs_witness :
  Plays_joined UTC (log_df [bob_home; abba_lower; ann_play; abba_blank])
               (song_df [S1_short; S1_long])
  = Ok (mkDataFrame songplays_columns
          [play_row UTC (ann_play, S1_short); play_row UTC (ann_play, S1_long)]).
Proof.
  apply (proj1 (proj2 (plays_joined_exact_pairs UTC
           [bob_home; abba_lower; ann_play; abba_blank] [S1_short; S1_long]))).
  repeat constructor.
Defined.

(** ** Time *)

Lemma time_row_start_time st : cell 0 (time_row st) = st.
Proof. reflexivity. Qed.

Lemma time_rows_same_key (l : list value) r s :
  In r (map time_row l) -> In s (map time_row l) ->
  (r = s <-> pick [0%nat] r = pick [0%nat] s).
Proof.
  intros Hr Hs. apply in_map_iff in Hr. apply in_map_iff in Hs.
  destruct Hr as (x & <- & _), Hs as (y & <- & _).
  split; [intros ->; reflexivity|].
  rewrite !pick_song_id, !time_row_start_time. intros [= ->]. reflexivity.
Qed.

(** C7. On the projection [t] of the seven Time columns, dropping
    duplicates by [start_time] alone gives the table that [distinct] gives,
    because every row is [time_row] of its [start_time]; that table is the
    Time table, its [start_time] cells are pairwise distinct, and they are
    exactly the [start_time] values of the "NextSong" records. *)
Theorem time_distinct_is_by_start_time
        (utcoffset : Z -> Z) (log : list log_record) (df t : DataFrame) :
  timed utcoffset (log_df log) = Ok df ->
  DF.select time_columns df = Ok t ->
  DF.dropDuplicates ["start_time"] t = Ok (DF.distinct t)
  /\ Time utcoffset (log_df log) = Ok (DF.distinct t)
  /\ (forall r, In r (rows t) -> r = time_row (cell 0 r))
  /\ NoDup (map (cell 0) (rows (DF.distinct t)))
  /\ (forall st, In st (map (cell 0) (rows (DF.distinct t)))
                 <-> exists a, In a log /\ page a = Some "NextSong"
                               /\ start_time utcoffset (long (ts a)) = Ok st).
Proof.
  intros T S.
  pose proof (timed_inv utcoffset log df T) as F.
  pose proof T as T'. rewrite (timed_ok utcoffset log F) in T'.
  injection T' as <-. rewrite time_select in S. injection S as <-.
  rewrite distinct_map
    by (intros a _; apply time_row_normal, start_time_of_normal).
  set (sts := map (start_time_of utcoffset) (next_songs log)).
  assert (R : map (fun a => time_row (start_time_of utcoffset a))
                  (next_songs log) = map time_row sts).
  { unfold sts. rewrite map_map. reflexivity. }
  cbn [rows columns]. rewrite R.
  assert (D : DF.dedup (pick [0%nat]) (map time_row sts)
              = DF.dedup (fun r => r) (map time_row sts)).
  { symmetry. apply dedup_ext. intros r s. apply time_rows_same_key. }
  assert (N : map (DF.normalize_at [0%nat] 0) (map time_row sts)
              = map time_row sts).
  { unfold sts. rewrite !map_map. apply map_ext. intros a.
    unfold time_row. cbn [DF.normalize_at existsb Nat.eqb orb].
    rewrite start_time_of_normal. reflexivity. }
  split; [|split; [|split; [|split]]].
  - unfold DF.dropDuplicates. cbn [columns rows].
    replace (mapM (resolve time_columns) ["start_time"])
      with (Ok (A := list nat) [0%nat]) by reflexivity.
    cbn [bind]. rewrite N, D. reflexivity.
  - rewrite (Time_ok utcoffset log F), R. reflexivity.
  - intros r Hr. apply in_map_iff in Hr. destruct Hr as (x & <- & _).
    reflexivity.
  - rewrite <- D. apply NoDup_first_cells, dedup_NoDup_keys.
  - intros st. split.
    + intros H. apply in_map_iff in H. destruct H as (r & <- & Hr).
      apply dedup_In, in_map_iff in Hr. destruct Hr as (x & <- & Hx).
      unfold sts in Hx. apply in_map_iff in Hx. destruct Hx as (a & <- & Ha).
      rewrite Forall_forall in F. pose proof (F a Ha) as Hok.
      apply next_songs_In in Ha. exists a. repeat split; try tauto.
      apply ts_ok_start_time. exact Hok.
    + intros (a & Ha & Hp & E).
      apply start_time_ts_ok in E. destruct E as [_ <-].
      apply in_map_iff. exists (time_row (start_time_of utcoffset a)).
      split; [reflexivity|]. apply dedup_id_In, in_map. unfold sts.
      apply in_map. apply next_songs_In. tauto.
Qed.

(** Three plays at two instants: two Time rows. *)
Lemma time_distinct_is_by_start_time_witness :
  Time UTC (log_df [ann_play; ann_later; ann_again])
  = Ok (mkDataFrame time_columns
          [time_row (VTimestamp 1541990258796000);
           time_row (VTimestamp 1541990259796000)]).
Proof.
  apply (proj1 (proj2 (time_distinct_is_by_start_time UTC
           [ann_play; ann_later; ann_again]
           (mkDataFrame timed_schema
              (map (timed_row UTC) [ann_play; ann_later; ann_again]))
           (mkDataFrame time_columns
              (time_rows_of [ann_play; ann_later; ann_again]))
           eq_refl eq_refl))).
Defined.

(** ** Empty stages *)





(** ** The write of Plays *)

Lemma songplays_table_columns ids df catalog t :
  songplays_table ids df catalog = Ok t -> columns t = plays_columns.
Proof.
  unfold songplays_table, songplays_joined.
  destruct (DF.getattr catalog _) as [name|e]; [|discriminate]. cbn [bind].
  destruct (DF.getattr df _) as [performer|e]; [|discriminate]. cbn [bind].
  destruct (DF.join df catalog _) as [j|e]; [|discriminate]. cbn [bind].
  destruct (DF.select songplays_columns j) as [t0|e] eqn:S; [|discriminate].
  cbn [bind]. intros [= <-]. apply select_columns in S.
  unfold DF.withColumn_id, DF.distinct. cbn [columns]. rewrite S.
  reflexivity.
Qed.

Lemma write_plays_fails path t st :
  columns t = plays_columns ->
  write_if_allowed ["year"; "month"] path t st
  = Err (PartitionColumnNotFound "year").
Proof.
  intros C. unfold write_if_allowed, write_parquet, check_partition_column.
  cbn. rewrite C. reflexivity.
Qed.

(** C1 (what the code does).  The projection of lines 267-276 keeps eight
    columns and [songplay_id] is added to them, so whatever the inputs the
    Plays table has neither a [year] nor a [month] column, its write
    partitioned by [year] and [month] stops on the missing column [year],
    and [process_log_data] never returns normally. *)
Theorem plays_write_misses_partition_columns
        (utcoffset : Z -> Z) (ids : nat -> Z) (spark : SparkSession)
        (input_data output_data : string) (st : storage) :
  (forall df catalog t path st',
      songplays_table ids df catalog = Ok t ->
      columns t = plays_columns
      /\ DF.has_column "year" (columns t) = false
      /\ DF.has_column "month" (columns t) = false
      /\ write_parquet ["year"; "month"] path t st'
         = Err (PartitionColumnNotFound "year"))
  /\ is_ok (process_log_data utcoffset ids spark input_data output_data st)
     = false.
Proof.
  split.
  - intros df catalog t path st' E.
    apply songplays_table_columns in E.
    pose proof (write_plays_fails path t st' E) as W.
    split; [exact E|]. rewrite E.
    split; [reflexivity|]. split; [reflexivity|exact W].
  - unfold process_log_data.
    destruct (read_log_data spark input_data); [|reflexivity]. cbn [bind].
    destruct (filtered _); [|reflexivity]. cbn [bind].
    destruct (user_table _); [|reflexivity]. cbn [bind].
    destruct (write_if_allowed [] _ _ _); [|reflexivity]. cbn [bind].
    destruct (with_time_columns _ _); [|reflexivity]. cbn [bind].
    destruct (time_table _); [|reflexivity]. cbn [bind].
    destruct (write_if_allowed _ _ _ _); [|reflexivity]. cbn [bind].
    destruct (read_song_data spark input_data); [|reflexivity]. cbn [bind].
    destruct (songplays_table _ _ _) eqn:E; [|reflexivity]. cbn [bind].
    rewrite write_plays_fails; [reflexivity|].
    eapply songplays_table_columns. exact E.
Qed.

Lemma plays_write_misses_partition_columns_witness :
  columns plays_of_ann = plays_columns
  /\ DF.has_column "year" (columns plays_of_ann) = false
  /\ DF.has_column "month" (columns plays_of_ann) = false
  /\ write_parquet ["year"; "month"] "out/songplays/songplays_table.parquet"
                   plays_of_ann []
     = Err (PartitionColumnNotFound "year").
Proof.
  apply (proj1 (plays_write_misses_partition_columns UTC numbering
                  (mkSession [] []) "in" "out/" [])
               (mkDataFrame timed_schema (map (timed_row UTC) [ann_play]))
               (song_df [S1_short])).
  reflexivity.
Defined.

(** A whole run on one catalog file and one activity file: the catalog
    transformer and the writes of Users and Time go through, the write of
    Plays does not. *)
Example main_stops_at_plays :
  is_ok (process_song_data udacity "s3a://udacity-dend/" "out/" []) = true
  /\ main UTC numbering udacity [] = Err (PartitionColumnNotFound "year").
Proof. split; reflexivity. Qed.

(** ** Users and the integer copy of [userId] *)

(** C3 (what the code does).  The filter stage does add the integer copy
    of [userId] as a column [user_id], but the Users projection names
    [userId]: the Users table has no column [user_id], and its [userId]
    cell is the raw cell of the record, which differs from the coerced
    value for every record that has a [userId]. *)
Theorem users_keep_raw_userId (log : list log_record) (df : DataFrame) (r : row) :
  Users (log_df log) = Ok df -> In r (rows df) ->
  (exists fdf, filtered (log_df log) = Ok fdf
               /\ resolve (columns fdf) "user_id" = Ok 11%nat
               /\ forall a, In a (next_songs log) ->
                    In (log_row a ++ [Sql.cast_value IntegerType (str (userId a))])
                       (rows fdf))
  /\ columns df = user_columns
  /\ resolve (columns df) "user_id" = Err (UnresolvedColumn "user_id")
  /\ exists a, In a log /\ page a = Some "NextSong" /\ r = user_row a
               /\ cell 4 r = str (userId a)
               /\ (userId a <> None ->
                   cell 4 r <> Sql.cast_value IntegerType (str (userId a))).
Proof.
  intros E Hr. rewrite Users_spec in E. injection E as <-.
  cbn [rows columns] in *. split; [|split; [|split]]; try reflexivity.
  - eexists. split; [apply filtered_spec|]. split; [reflexivity|].
    intros a Ha. cbn [rows]. apply (in_map filtered_row). exact Ha.
  - apply dedup_In, in_map_iff in Hr. destruct Hr as (a & <- & Ha).
    apply next_songs_In in Ha. exists a. repeat split; try tauto.
    change (cell 4 (user_row a)) with (str (userId a)).
    intros N. destruct (userId a) as [u|]; [|congruence].
    cbn [str]. unfold Sql.cast_value.
    destruct (Sql.parse_int u); discriminate.
Qed.

(** The record of user "39": Users holds the string "39", the coerced
    value is the integer 39. *)
Lemma users_keep_raw_userId_witness :
  cell 4 (user_row ann_play) = VString "39"
  /\ Sql.cast_value IntegerType (VString "39") = VInt 39
  /\ cell 4 (user_row ann_play)
     <> Sql.cast_value IntegerType (str (userId ann_play)).
Proof.
  split; [reflexivity|]. split; [reflexivity|].
  destruct (users_keep_raw_userId [bob_home; ann_play]
              (mkDataFrame user_columns [user_row ann_play])
              (user_row ann_play) eq_refl (or_introl eq_refl))
    as (_ & _ & _ & a & Ha & _ & Er & _ & N).
  destruct Ha as [<-|[<-|[]]]; [discriminate Er|].
  apply N. discriminate.
Defined.

(** ** The timestamp of the scenario: 1541990258796 ms *)

Lemma digit_spec k :
  Sql.is_digit (Py.digit k) = true /\ Sql.digit_val (Py.digit k) = k mod 10.
Proof.
  unfold Py.digit.
  assert (H : 0 <= k mod 10 < 10) by (apply Z.mod_pos_bound; lia).
  assert (C : k mod 10 = 0 \/ k mod 10 = 1 \/ k mod 10 = 2 \/ k mod 10 = 3
              \/ k mod 10 = 4 \/ k mod 10 = 5 \/ k mod 10 = 6 \/ k mod 10 = 7
              \/ k mod 10 = 8 \/ k mod 10 = 9) by lia.
  repeat (destruct C as [C|C]); rewrite C; split; reflexivity.
Qed.

(** A two-digit field printed by [isoformat] is read back by the cast. *)
Lemma digits_two n c rest :
  0 <= n < 100 -> Sql.is_digit c = false ->
  Sql.digits (Py.zero_padded 2 n ++ String c rest)%string
  = (n, 2%nat, String c rest).
Proof.
  intros Hn Hc. unfold Sql.digits. cbn [Py.zero_padded append Sql.digits_from].
  destruct (digit_spec (n / 10)) as [D1 V1], (digit_spec n) as [D2 V2].
  rewrite D1, D2, Hc, V1, V2.
  assert (E : n / 10 mod 10 = n / 10).
  { apply Z.mod_small.
    split; [apply Z.div_pos; lia | apply Z.div_lt_upper_bound; lia]. }
  rewrite E. f_equal. f_equal.
  pose proof (Z.div_mod n 10). lia.
Qed.

Lemma expect_same c s : Sql.expect c (String c s) = Some s.
Proof. unfold Sql.expect. rewrite Ascii.eqb_refl. reflexivity. Qed.

Lemma parse_time_of_day_iso h m s :
  0 <= h < 24 -> 0 <= m < 60 -> 0 <= s < 60 ->
  Sql.parse_time_of_day
    (Py.zero_padded 2 h ++ String ":" (Py.zero_padded 2 m ++ String ":"
       (Py.zero_padded 2 s ++ String "." "796000")))%string
  = Some ((h * 3600 + m * 60 + s) * Sql.MICROS_PER_SECOND + 796000).
Proof.
  intros Hh Hm Hs. unfold Sql.parse_time_of_day.
  rewrite (digits_two h), expect_same by (try reflexivity; lia).
  cbv beta iota.
  rewrite (digits_two m), expect_same by (try reflexivity; lia).
  cbv beta iota.
  rewrite (digits_two s) by (try reflexivity; lia).
  cbv beta iota.
  replace (h <? 24) with true by (symmetry; apply Z.ltb_lt; lia).
  replace (m <? 60) with true by (symmetry; apply Z.ltb_lt; lia).
  replace (s <? 60) with true by (symmetry; apply Z.ltb_lt; lia).
  reflexivity.
Qed.

Lemma parse_timestamp_2018_11 d tod :
  10 <= d <= 30 ->
  Sql.parse_timestamp
    ("2018-11-" ++ Py.zero_padded 2 d ++ String "T" tod)%string
  = match Sql.parse_time_of_day tod with
    | Some us =>
        Some (Calendar.days_from_civil 2018 11 d * Sql.MICROS_PER_DAY + us)
    | None => None
    end.
Proof.
  intros Hd. unfold Sql.parse_timestamp.
  change (Sql.digits ("2018-11-" ++ Py.zero_padded 2 d ++ String "T" tod)%string)
    with (2018, 4%nat, ("-11-" ++ Py.zero_padded 2 d ++ String "T" tod)%string).
  cbv beta iota.
  change (Sql.expect "-" ("-11-" ++ Py.zero_padded 2 d ++ String "T" tod)%string)
    with (Some ("11-" ++ Py.zero_padded 2 d ++ String "T" tod)%string).
  cbv beta iota.
  change (Sql.digits ("11-" ++ Py.zero_padded 2 d ++ String "T" tod)%string)
    with (11, 2%nat, ("-" ++ Py.zero_padded 2 d ++ String "T" tod)%string).
  cbv beta iota.
  change (Sql.expect "-" ("-" ++ Py.zero_padded 2 d ++ String "T" tod)%string)
    with (Some (Py.zero_padded 2 d ++ String "T" tod)%string).
  cbv beta iota.
  rewrite (digits_two d) by (try reflexivity; lia).
  cbv beta iota.
  change (Calendar.days_in_month 2018 11) with 30.
  replace (1 <=? d) with true by (symmetry; apply Z.leb_le; lia).
  replace (d <=? 30) with true by (symmetry; apply Z.leb_le; lia).
  reflexivity.
Qed.

(** The float part of the UDF on the instant of the scenario: the quotient
    is 1541990258.796 to the nearest double, its fraction scaled by [1e6]
    rounds to 796000 microseconds. *)
Lemma gmtoff_bound utcoffset s : -86400 <= Py.gmtoff utcoffset s <= 86400.
Proof. unfold Py.gmtoff. lia. Qed.

Lemma gmtoff_within utcoffset s :
  -86400 <= utcoffset s <= 86400 -> Py.gmtoff utcoffset s = utcoffset s.
Proof. unfold Py.gmtoff. lia. Qed.

(** Around the instant of the scenario every conversion to local time
    succeeds, whatever the zone. *)
Lemma local_scenario utcoffset u :
  1541990258 - 172800 <= u <= 1541990258 ->
  Py.local utcoffset u = Ok (u + Py.gmtoff utcoffset u).
Proof.
  intros H. unfold Py.local, Py.localtime.
  pose proof (gmtoff_bound utcoffset u) as B.
  set (w := u + Py.gmtoff utcoffset u) in *.
  assert (L : 17844 <= w / 86400) by (apply Z.div_le_lower_bound; lia).
  assert (U : w / 86400 < 17849) by (apply Z.div_lt_upper_bound; lia).
  assert (C : w / 86400 = 17844 \/ w / 86400 = 17845 \/ w / 86400 = 17846
              \/ w / 86400 = 17847 \/ w / 86400 = 17848) by lia.
  destruct C as [ -> | [ -> | [ -> | [ -> | -> ] ] ] ]; reflexivity.
Qed.

Lemma get_timestamp_scenario utcoffset :
  get_timestamp utcoffset (VLong 1541990258796)
  = let '(y, m, d, hh, mm, ss) := Py.localtime utcoffset 1541990258 in
    Ok (VString (Py.isoformat
                   (Py.mkDatetime y m d hh mm (Z.min ss 59) 796000))).
Proof.
  unfold get_timestamp.
  replace (Py.truediv 1541990258796 1000)
    with (Ok (A := Py.float) (S754_finite false 6467575910429098 (-22)))
    by (vm_compute; reflexivity).
  cbn [bind]. unfold Py.fromtimestamp.
  replace (Py.modf (S754_finite false 6467575910429098 (-22)))
    with (Some (S754_finite false 7169730641133568 (-53), 1541990258))
    by (vm_compute; reflexivity).
  replace (Py.round_half_even _) with (Some 796000) by (vm_compute; reflexivity).
  cbn [Z.leb Z.ltb Z.compare Pos.compare Pos.compare_cont].
  destruct (Py.localtime utcoffset 1541990258) as [[[[[y m] d] hh] mm] ss].
  unfold Py.max_fold_seconds.
  rewrite !local_scenario by lia. cbn [bind].
  pose proof (gmtoff_bound utcoffset 1541990258).
  pose proof (gmtoff_bound utcoffset (1541990258 - 86400)).
  destruct (_ <? 0) eqn:T; [|reflexivity].
  apply Z.ltb_lt in T. rewrite local_scenario by lia. reflexivity.
Qed.

Lemma isoformat_time_of_day y m d hh mm ss :
  Py.isoformat (Py.mkDatetime y m d hh mm ss 796000)
  = (Py.zero_padded 4 y ++ String "-" (Py.zero_padded 2 m ++ String "-"
      (Py.zero_padded 2 d ++ String "T"
        (Py.zero_padded 2 hh ++ String ":" (Py.zero_padded 2 mm ++ String ":"
          (Py.zero_padded 2 ss ++ String "." "796000"))))))%string.
Proof. reflexivity. Qed.

Lemma civil_from_days_scenario D :
  17846 <= D <= 17848 ->
  Calendar.civil_from_days D = (2018, 11, D - 17835)
  /\ Calendar.days_from_civil 2018 11 (D - 17835) = D.
Proof.
  intros H.
  assert (C : D = 17846 \/ D = 17847 \/ D = 17848) by lia.
  destruct C as [ -> | [ -> | -> ] ]; split; reflexivity.
Qed.

Lemma seconds_of_day sod :
  0 <= sod < 86400 ->
  0 <= sod / 3600 < 24 /\ 0 <= sod mod 3600 / 60 < 60 /\ 0 <= sod mod 60 < 60
  /\ sod / 3600 * 3600 + sod mod 3600 / 60 * 60 + sod mod 60 = sod.
Proof.
  intros H.
  pose proof (Z.div_mod sod 3600 ltac:(lia)) as E1.
  pose proof (Z.mod_pos_bound sod 3600 ltac:(lia)) as B1.
  pose proof (Z.div_mod (sod mod 3600) 60 ltac:(lia)) as E2.
  pose proof (Z.mod_pos_bound (sod mod 3600) 60 ltac:(lia)) as B2.
  pose proof (Z.mod_pos_bound sod 60 ltac:(lia)) as B3.
  assert (E3 : (sod mod 3600) mod 60 = sod mod 60).
  { apply Z.mod_mod_divide. exists 60. reflexivity. }
  rewrite E3 in E2.
  assert (0 <= sod / 3600) by (apply Z.div_pos; lia).
  assert (sod / 3600 < 24) by (apply Z.div_lt_upper_bound; lia).
  assert (0 <= sod mod 3600 / 60) by (apply Z.div_pos; lia).
  assert (sod mod 3600 / 60 < 60) by (apply Z.div_lt_upper_bound; lia).
  lia.
Qed.

Lemma local_day_scenario off :
  -86400 <= off <= 86400 -> 17846 <= (scenario_s + off) / 86400 <= 17848.
Proof.
  intros H. unfold scenario_s.
  assert ((1541990258 + off) / 86400 < 17849)
    by (apply Z.div_lt_upper_bound; lia).
  assert (17846 <= (1541990258 + off) / 86400)
    by (apply Z.div_le_lower_bound; lia).
  lia.
Qed.

Lemma start_time_scenario utcoffset :
  -86400 <= utcoffset scenario_s <= 86400 ->
  start_time utcoffset (VLong scenario_ms)
  = Ok (VTimestamp ((scenario_s + utcoffset scenario_s) * 1000000 + 796000)).
Proof.
  intros Hoff. unfold start_time, scenario_ms.
  rewrite get_timestamp_scenario. unfold Py.localtime. fold scenario_s.
  rewrite (gmtoff_within utcoffset scenario_s Hoff).
  pose proof (local_day_scenario _ Hoff) as HD.
  set (w := scenario_s + utcoffset scenario_s) in *.
  destruct (civil_from_days_scenario _ HD) as [E1 E2]. rewrite E1.
  cbv beta iota. cbn [bind].
  pose proof (Z.mod_pos_bound w 86400 ltac:(lia)) as Hsod.
  destruct (seconds_of_day _ Hsod) as (Hh & Hm & Hs & Esum).
  rewrite Z.min_l by lia.
  rewrite isoformat_time_of_day.
  unfold Sql.cast_value.
  change (Py.zero_padded 4 2018 ++ String "-"
            (Py.zero_padded 2 11 ++ String "-" ?x))%string
    with ("2018-11-" ++ x)%string.
  rewrite parse_timestamp_2018_11 by lia.
  rewrite parse_time_of_day_iso by assumption.
  rewrite E2, Esum. do 2 f_equal.
  pose proof (Z.div_mod w 86400 ltac:(lia)).
  unfold Sql.MICROS_PER_DAY, Sql.MICROS_PER_SECOND. lia.
Qed.

Lemma micros_day_scenario w :
  (w * 1000000 + 796000) / Sql.MICROS_PER_DAY = w / 86400
  /\ (w * 1000000 + 796000) mod Sql.MICROS_PER_DAY / (3600 * Sql.MICROS_PER_SECOND)
     = w mod 86400 / 3600.
Proof.
  unfold Sql.MICROS_PER_DAY, Sql.MICROS_PER_SECOND.
  pose proof (Z.div_mod w 86400 ltac:(lia)) as E.
  pose proof (Z.mod_pos_bound w 86400 ltac:(lia)) as B.
  set (D := w / 86400) in *. set (sod := w mod 86400) in *.
  assert (Q : (w * 1000000 + 796000) / 86400000000 = D).
  { symmetry. apply (Z.div_unique _ _ D (sod * 1000000 + 796000)); lia. }
  assert (M : (w * 1000000 + 796000) mod 86400000000 = sod * 1000000 + 796000).
  { symmetry. apply (Z.mod_unique _ _ D); lia. }
  split; [exact Q|]. rewrite M.
  pose proof (Z.div_mod sod 3600 ltac:(lia)) as E'.
  pose proof (Z.mod_pos_bound sod 3600 ltac:(lia)) as B'.
  symmetry.
  apply (Z.div_unique _ _ _ (sod mod 3600 * 1000000 + 796000)); lia.
Qed.

(** C2 (as amended).  For the record of 1541990258796 ms, on a host whose
    zone is within a day of UTC at that instant, [start_time] is the local
    wall-clock instant with its 796 milliseconds kept, not dropped; the
    Time row of such a record is [time_row] of that instant; and the
    fields agree with it: [year], [month] and [day] are the civil date of
    its day number and give that day number back, [hour] is the hour of
    its second of the day, [week] and [weekday] are the ISO week and the
    Sunday-first weekday of that date. *)
Theorem start_time_scenario_keeps_milliseconds (utcoffset : Z -> Z) :
  -86400 <= utcoffset scenario_s <= 86400 ->
  let local_s := scenario_s + utcoffset scenario_s in
  let us := local_s * 1000000 + 796000 in
  start_time utcoffset (VLong scenario_ms) = Ok (VTimestamp us)
  /\ us mod 1000000 = 796000
  /\ (forall a, page a = Some "NextSong" -> ts a = Some scenario_ms ->
        Time utcoffset (log_df [a])
        = Ok (mkDataFrame time_columns [time_row (VTimestamp us)]))
  /\ exists y m d h,
       Sql.year (VTimestamp us) = VInt y
       /\ Sql.month (VTimestamp us) = VInt m
       /\ Sql.dayofmonth (VTimestamp us) = VInt d
       /\ Sql.hour (VTimestamp us) = VInt h
       /\ Calendar.civil_from_days (us / Sql.MICROS_PER_DAY) = (y, m, d)
       /\ Calendar.days_from_civil y m d = us / Sql.MICROS_PER_DAY
       /\ h = local_s mod 86400 / 3600
       /\ Sql.weekofyear (VTimestamp us)
          = VInt (Calendar.iso_week (Calendar.days_from_civil y m d))
       /\ Sql.dayofweek (VTimestamp us)
          = VInt ((Calendar.days_from_civil y m d + 4) mod 7 + 1).
Proof.
  intros Hoff local_s us.
  pose proof (start_time_scenario utcoffset Hoff) as S. fold local_s us in S.
  split; [exact S|]. split; [|split].
  - unfold us. rewrite Z.add_comm, Z.mod_add by lia. reflexivity.
  - intros a Hp Ht.
    assert (N : next_songs [a] = [a]).
    { unfold next_songs. cbn.
      rewrite (proj2 (is_next_song_page a) Hp). reflexivity. }
    assert (O : start_time utcoffset (long (ts a)) = Ok (VTimestamp us))
      by (rewrite Ht; exact S).
    apply start_time_ts_ok in O. destruct O as [O V].
    rewrite Time_ok by (rewrite N; repeat constructor; exact O).
    rewrite N. cbn [map DF.dedup List.filter]. rewrite V. reflexivity.
  - pose proof (local_day_scenario _ Hoff) as HD. fold local_s in HD.
    destruct (micros_day_scenario local_s) as [Q M]. fold us in Q, M.
    destruct (civil_from_days_scenario _ HD) as [C1 C2].
    exists 2018, 11, (local_s / 86400 - 17835), (local_s mod 86400 / 3600).
    unfold Sql.year, Sql.month, Sql.dayofmonth, Sql.weekofyear, Sql.dayofweek,
      Sql.hour, Sql.on_days, Sql.days_of.
    change (Sql.micros_of (VTimestamp us)) with (Some us).
    cbv beta iota. rewrite Q, M, C1, C2. repeat split; reflexivity.
Qed.

(** On a host in UTC: 2018-11-12 02:37:38.796, a Monday of week 46. *)
Lemma start_time_scenario_keeps_milliseconds_witness :
  start_time UTC (VLong scenario_ms) = Ok (VTimestamp 1541990258796000).
Proof.
  apply (proj1 (start_time_scenario_keeps_milliseconds UTC
                  (conj (Zle_bool_imp_le (-86400) 0 eq_refl)
                        (Zle_bool_imp_le 0 86400 eq_refl)))).
Defined.

Example time_row_scenario :
  time_row (VTimestamp 1541990258796000)
  = [VTimestamp 1541990258796000; VInt 2; VInt 12; VInt 46; VInt 11;
     VInt 2018; VInt 2].
Proof. reflexivity. Qed.

(** C2 (as stated) fails: the millisecond part is not discarded.  The UDF
    divides by 1000 in floating point, [isoformat] prints the six
    fractional digits, and the cast reads them back. *)
Lemma start_time_scenario_not_truncated :
  get_timestamp UTC (VLong scenario_ms)
  = Ok (VString "2018-11-12T02:37:38.796000")
  /\ start_time UTC (VLong scenario_ms) = Ok (VTimestamp 1541990258796000)
  /\ start_time_truncated UTC scenario_ms = VTimestamp 1541990258000000
  /\ start_time UTC (VLong scenario_ms)
     <> Ok (start_time_truncated UTC scenario_ms).
Proof.
  split; [vm_compute; reflexivity|].
  split; [vm_compute; reflexivity|].
  split; [vm_compute; reflexivity|].
  vm_compute. discriminate.
Qed.

(** ** Two runs

    The input of a run is the set of files under the base path.  The order
    in which the engine lists the files and delivers their records to the
    transformers is not part of it: two runs on the same files are two runs
    on two permutations of the same records.  The numbering of
    [monotonically_increasing_id] likewise belongs to the run. *)

Lemma same_elements_map {A B} (f : A -> B) l l' :
  (forall a, In a l <-> In a l') ->
  forall b, In b (map f l) <-> In b (map f l').
Proof.
  intros H b. rewrite !in_map_iff.
  split; intros (a & E & Ha); exists a; (split; [exact E|apply H; exact Ha]).
Qed.

Lemma Permutation_same_elements {A} (l l' : list A) :
  Permutation l l' -> forall a, In a l <-> In a l'.
Proof.
  intros P a. split; apply Permutation_in; [|symmetry]; exact P.
Qed.

Lemma next_songs_same_elements log log' :
  (forall a, In a log <-> In a log') ->
  forall a, In a (next_songs log) <-> In a (next_songs log').
Proof. intros H a. rewrite !next_songs_In, H. reflexivity. Qed.

Lemma matched_pairs_same_elements log log' catalog catalog' :
  (forall a, In a log <-> In a log') ->
  (forall s, In s catalog <-> In s catalog') ->
  forall p, In p (matched_pairs log catalog)
            <-> In p (matched_pairs log' catalog').
Proof.
  intros H H' [a s]. rewrite !matched_pairs_In, H, H'. reflexivity.
Qed.

Lemma str_inj x y : str x = str y -> x = y.
Proof. destruct x, y; cbn; congruence. Qed.

Lemma drop_numbered utcoffset ids (rs : list row) : forall i,
  (forall r, In r rs -> exists p, r = play_row utcoffset p) ->
  map (drop_cells "songplay_id" plays_columns)
      (DF.number_rows ids songplays_columns "songplay_id" i rs) = rs.
Proof.
  induction rs as [|r rs IH]; intros i H; [reflexivity|].
  cbn [DF.number_rows map]. rewrite IH by (intros; apply H; right; assumption).
  f_equal. destruct (H r (or_introl eq_refl)) as ([a s] & ->). reflexivity.
Qed.

Lemma Plays_without_id utcoffset ids log catalog :
  Forall (ts_ok utcoffset) (next_songs log) ->
  fmap (drop "songplay_id")
       (Plays utcoffset ids (log_df log) (song_df catalog))
  = Ok (mkDataFrame songplays_columns
          (DF.dedup (fun r => r)
             (map (play_row utcoffset) (matched_pairs log catalog)))).
Proof.
  intros F. rewrite (Plays_ok utcoffset ids log catalog F).
  unfold fmap, drop, DF.withColumn_id. cbn [bind columns rows].
  change (DF.put_schema songplays_columns "songplay_id") with plays_columns.
  rewrite (drop_numbered utcoffset); [reflexivity|].
  intros r Hr. apply dedup_In, in_map_iff in Hr.
  destruct Hr as (p & <- & _). exists p. reflexivity.
Qed.

Lemma Plays_fails utcoffset ids log catalog :
  ~ Forall (ts_ok utcoffset) (next_songs log) ->
  exists e, Plays utcoffset ids (log_df log) (song_df catalog) = Err e
            /\ Time utcoffset (log_df log) = Err e.
Proof.
  intros N. destruct (timed_cases utcoffset log) as [[F _]|[_ [e E]]];
    [contradiction|].
  exists e. unfold Plays, Time. rewrite E. split; reflexivity.
Qed.

Lemma ts_ok_dec utcoffset l :
  Forall (ts_ok utcoffset) l \/ ~ Forall (ts_ok utcoffset) l.
Proof.
  destruct (Forall_dec (ts_ok utcoffset)
              (fun a => bool_dec (is_ok (start_time utcoffset (long (ts a))))
                                 true) l); [left|right]; assumption.
Qed.

(** C9 (as amended).  Take two runs that are handed the same records, the
    engine delivering them in any two orders, on hosts in the same zone and
    with any two id numberings.  Then Creators, Users and Time agree, and
    so does Plays once [songplay_id] is dropped: both runs fail, or both
    give the same columns and the same rows up to order.  Items agrees as
    well when the catalog records that share a [song_id] have the same
    Items columns; in any case both runs produce Items with the same set of
    [song_id]s. *)
Theorem tables_independent_of_delivery_order
        (utcoffset : Z -> Z) (ids ids' : nat -> Z)
        (log log' : list log_record) (catalog catalog' : list song_record) :
  Permutation log log' -> Permutation catalog catalog' ->
  same_table (artists_table (song_df catalog))
             (artists_table (song_df catalog'))
  /\ same_table (Users (log_df log)) (Users (log_df log'))
  /\ same_table (Time utcoffset (log_df log)) (Time utcoffset (log_df log'))
  /\ same_table
       (fmap (drop "songplay_id")
             (Plays utcoffset ids (log_df log) (song_df catalog)))
       (fmap (drop "songplay_id")
             (Plays utcoffset ids' (log_df log') (song_df catalog')))
  /\ ((forall s s', In s catalog -> In s' catalog ->
                    song_id s = song_id s' -> item_row s = item_row s') ->
      same_table (songs_table (song_df catalog))
                 (songs_table (song_df catalog')))
  /\ exists t t',
       songs_table (song_df catalog) = Ok t
       /\ songs_table (song_df catalog') = Ok t'
       /\ columns t = columns t'
       /\ forall v, In v (map (cell 0) (rows t))
                    <-> In v (map (cell 0) (rows t')).
Proof.
  intros PL PC.
  pose proof (Permutation_same_elements _ _ PL) as EL.
  pose proof (Permutation_same_elements _ _ PC) as EC.
  pose proof (next_songs_same_elements _ _ EL) as EN.
  assert (FF : Forall (ts_ok utcoffset) (next_songs log)
               <-> Forall (ts_ok utcoffset) (next_songs log')).
  { rewrite !Forall_forall. split; intros H a Ha; apply H, EN, Ha. }
  split; [|split; [|split; [|split; [|split]]]].
  - rewrite !artists_table_spec. cbn. split; [reflexivity|].
    apply dedup_id_same_rows, same_elements_map, EC.
  - rewrite !Users_spec. cbn. split; [reflexivity|].
    apply dedup_id_same_rows, same_elements_map, EN.
  - destruct (ts_ok_dec utcoffset (next_songs log)) as [F|N].
    + rewrite (Time_ok utcoffset log F),
        (Time_ok utcoffset log' (proj1 FF F)).
      cbn. split; [reflexivity|].
      apply dedup_id_same_rows, same_elements_map, EN.
    + destruct (Plays_fails utcoffset ids log catalog N) as (e & _ & ->).
      destruct (Plays_fails utcoffset ids log' catalog
                  (fun F => N (proj2 FF F))) as (e' & _ & ->).
      exact I.
  - destruct (ts_ok_dec utcoffset (next_songs log)) as [F|N].
    + rewrite (Plays_without_id utcoffset ids log catalog F),
        (Plays_without_id utcoffset ids' log' catalog' (proj1 FF F)).
      cbn. split; [reflexivity|].
      apply dedup_id_same_rows, same_elements_map,
        matched_pairs_same_elements; assumption.
    + destruct (Plays_fails utcoffset ids log catalog N) as (e & -> & _).
      destruct (Plays_fails utcoffset ids' log' catalog'
                  (fun F => N (proj2 FF F))) as (e' & -> & _).
      exact I.
  - intros A. rewrite !songs_table_spec. cbn. split; [reflexivity|].
    assert (K : forall c, (forall s, In s c <-> In s catalog) ->
                DF.dedup (pick [0%nat]) (map item_row c)
                = DF.dedup (fun r => r) (map item_row c)).
    { intros c Hc. symmetry. apply dedup_ext. intros r s Hr Hs.
      apply in_map_iff in Hr. apply in_map_iff in Hs.
      destruct Hr as (x & <- & Hx), Hs as (y & <- & Hy).
      split; [intros ->; reflexivity|].
      rewrite !pick_song_id. intros [= E]. apply str_inj in E.
      apply A; [apply Hc; exact Hx|apply Hc; exact Hy|exact E]. }
    rewrite (K catalog) by reflexivity.
    rewrite (K catalog') by (intros s; symmetry; apply EC).
    apply dedup_id_same_rows, same_elements_map, EC.
  - eexists. eexists. split; [apply songs_table_spec|].
    split; [apply songs_table_spec|]. split; [reflexivity|].
    cbn [rows]. intros v.
    assert (K : forall c, In v (map (cell 0)
                                    (DF.dedup (pick [0%nat]) (map item_row c)))
                          <-> exists s, In s c /\ str (song_id s) = v).
    { intros c. split.
      - intros H. apply in_map_iff in H. destruct H as (r & <- & Hr).
        apply dedup_In, in_map_iff in Hr. destruct Hr as (s & <- & Hs).
        exists s. split; [exact Hs|reflexivity].
      - intros (s & Hs & <-).
        destruct (dedup_key_In (pick [0%nat]) (item_row s) (map item_row c))
          as (r' & Hr' & E); [apply in_map; exact Hs|].
        rewrite !pick_song_id in E. injection E as E.
        apply in_map_iff. exists r'. split; [exact E|exact Hr']. }
    rewrite !K. split; intros (s & Hs & E); exists s;
      (split; [apply EC; exact Hs|exact E]).
Qed.

(** Two runs over the activity and catalog records of the examples above,
    delivered in opposite orders and numbered differently. *)
Lemma tables_independent_of_delivery_order_witness :
  same_table (Users (log_df [bob_home; ann_play; ann_later]))
             (Users (log_df [ann_later; ann_play; bob_home])).
Proof.
  apply (proj1 (proj2 (tables_independent_of_delivery_order UTC
           numbering (fun i => 8589934592 + Z.of_nat i)
           [bob_home; ann_play; ann_later] [ann_later; ann_play; bob_home]
           [S1_short; S1_long] [S1_long; S1_short]
           (Permutation_rev [bob_home; ann_play; ann_later])
           (Permutation_rev [S1_short; S1_long])))).
Defined.

(** C9 (as stated) fails on Items: the survivor of [dropDuplicates] is the
    record the engine delivers first, so the same two catalog records give
    two different Items tables. *)
Lemma items_depend_on_delivery_order :
  Permutation [S1_short; S1_long] [S1_long; S1_short]
  /\ songs_table (song_df [S1_short; S1_long])
     = Ok (mkDataFrame song_columns [item_row S1_short])
  /\ songs_table (song_df [S1_long; S1_short])
     = Ok (mkDataFrame song_columns [item_row S1_long])
  /\ ~ same_table (songs_table (song_df [S1_short; S1_long]))
                  (songs_table (song_df [S1_long; S1_short])).
Proof.
  split; [apply perm_swap|]. split; [reflexivity|]. split; [reflexivity|].
  intros [_ P]. cbn in P. apply Permutation_length_1_inv in P.
  discriminate P.
Qed.

(** ** The globs of the readers *)

Lemma string_app_assoc (a b c : string) :
  ((a ++ b) ++ c = a ++ (b ++ c))%string.
Proof. induction a as [|x a IH]; cbn; [reflexivity|rewrite IH; reflexivity]. Qed.

Lemma string_app_nil (a : string) : (a ++ "")%string = a.
Proof. induction a as [|x a IH]; cbn; [reflexivity|rewrite IH; reflexivity]. Qed.

(** *** A suffix appended to a path *)

Lemma split_scheme_app x v :
  split_scheme (x ++ String "/" v)
  = match split_scheme x with
    | Some (sch, r) => Some (sch, (r ++ String "/" v)%string)
    | None => None
    end.
Proof.
  induction x as [|c x IH]; [reflexivity|].
  cbn [append split_scheme].
  destruct (Ascii.eqb c ":"); [reflexivity|].
  destruct (Ascii.eqb c "/"); [reflexivity|].
  rewrite IH. destruct (split_scheme x) as [[sch r]|]; reflexivity.
Qed.

Lemma rest_of_app x v :
  rest_of (x ++ String "/" v) = (rest_of x ++ String "/" v)%string.
Proof.
  unfold rest_of. rewrite split_scheme_app.
  destruct (split_scheme x) as [[sch r]|]; reflexivity.
Qed.

Lemma until_slash_app u v :
  until_slash (u ++ String "/" v)
  = let '(a, p) := until_slash u in (a, (p ++ String "/" v)%string).
Proof.
  induction u as [|c u IH]; [reflexivity|].
  cbn [append until_slash]. destruct (Ascii.eqb c "/"); [reflexivity|].
  rewrite IH. destruct (until_slash u) as [a p]. reflexivity.
Qed.

Lemma names_starts s : starts_name s = true -> names s <> [].
Proof.
  destruct s as [|c s]; [discriminate|]. cbn [starts_name names].
  intros H. apply negb_true_iff in H. rewrite H.
  destruct (starts_name s); [destruct (names s)|]; discriminate.
Qed.

Lemma names_app_slash a b :
  names (a ++ String "/" b) = names a ++ names b.
Proof.
  induction a as [|c a IH]; [reflexivity|].
  cbn [append names]. destruct (Ascii.eqb c "/"); [exact IH|].
  destruct a as [|d a].
  - reflexivity.
  - change (starts_name (String d a ++ String "/" b))
      with (starts_name (String d a)).
    destruct (starts_name (String d a)) eqn:S.
    + rewrite IH. pose proof (names_starts _ S) as N.
      destruct (names (String d a)); [contradiction|reflexivity].
    + rewrite IH. reflexivity.
Qed.

Lemma parse_path_app x v :
  rest_of x <> "/" -> starts_name v = true ->
  parse_path (x ++ String "/" v) = extend (parse_path x) (names v).
Proof.
  intros R V. unfold parse_path, extend. rewrite rest_of_app, split_scheme_app.
  set (sch := match split_scheme x with
              | Some (sch, _) => Some sch
              | None => None
              end).
  replace (match match split_scheme x with
                 | Some (sch0, r) => Some (sch0, (r ++ String "/" v)%string)
                 | None => None
                 end with
           | Some (sch0, _) => Some sch0
           | None => None
           end) with sch
    by (unfold sch; destruct (split_scheme x) as [[? ?]|]; reflexivity).
  destruct v as [|v0 v]; [discriminate|].
  cbn [starts_name] in V. apply negb_true_iff in V.
  rewrite (names_app_slash (rest_of x)).
  destruct (rest_of x) as [|c [|d [|e t]]].
  - cbn [append after_double_slash]. destruct v; rewrite ?V, ?andb_false_r;
      reflexivity.
  - assert (C : Ascii.eqb c "/" = false).
    { destruct (Ascii.eqb_spec c "/"); [subst; contradiction|reflexivity]. }
    cbn [append after_double_slash]. rewrite C. reflexivity.
  - cbn [append after_double_slash].
    destruct (Ascii.eqb c "/" && Ascii.eqb d "/") eqn:B; [|reflexivity].
    cbn [until_slash]. rewrite Ascii.eqb_refl.
    cbn [path_names scheme authority].
    apply andb_true_iff in B. destruct B as [B1 B2].
    apply Ascii.eqb_eq in B1, B2. subst c d. cbn [names].
    rewrite !Ascii.eqb_refl. reflexivity.
  - cbn [append after_double_slash].
    destruct (Ascii.eqb c "/" && Ascii.eqb d "/") eqn:B; [|reflexivity].
    change (String e (t ++ String "/" (String v0 v)))
      with (String e t ++ String "/" (String v0 v))%string.
    rewrite until_slash_app.
    destruct (until_slash (String e t)) as [a p].
    cbn [path_names scheme authority].
    rewrite names_app_slash. reflexivity.
Qed.

(** *** Matching a component *)

Lemma glob_match_star_cons p d s :
  glob_match (String "*" p) (String d s)
  = glob_match p (String d s) || glob_match (String "*" p) s.
Proof. destruct s; reflexivity. Qed.

Lemma glob_match_star_nil p :
  glob_match (String "*" p) "" = glob_match p "" || false.
Proof. reflexivity. Qed.

Lemma glob_match_star p s :
  glob_match (String "*" p) s = true
  <-> exists x s', s = (x ++ s')%string /\ glob_match p s' = true.
Proof.
  split.
  - induction s as [|d s IH]; intros H.
    + rewrite glob_match_star_nil, orb_false_r in H.
      exists "", "". split; [reflexivity|exact H].
    + rewrite glob_match_star_cons in H. apply orb_true_iff in H.
      destruct H as [H|H].
      * exists "", (String d s). split; [reflexivity|exact H].
      * destruct (IH H) as (x & s' & -> & Hp).
        exists (String d x), s'. split; [reflexivity|exact Hp].
  - intros (x & s' & -> & H). induction x as [|d x IH].
    + cbn [append]. destruct s' as [|e s'].
      * rewrite glob_match_star_nil, H. reflexivity.
      * rewrite glob_match_star_cons, H. reflexivity.
    + cbn [append]. rewrite glob_match_star_cons, IH. apply orb_true_r.
Qed.

Lemma glob_match_literal p : forall s,
  literal p = true -> (glob_match p s = true <-> s = p).
Proof.
  unfold literal. induction p as [|c p IH]; intros s L.
  - destruct s; cbn; split; intros; congruence.
  - cbn [no_char] in L. apply andb_true_iff in L. destruct L as [L1 L2].
    apply andb_true_iff in L1, L2. destruct L1 as [C1 L1], L2 as [C2 L2].
    apply negb_true_iff in C1, C2.
    cbn [glob_match]. rewrite C1, C2.
    assert (L : no_char "*" p && no_char "?" p = true)
      by (rewrite L1, L2; reflexivity).
    destruct s as [|d s]; [split; discriminate|].
    rewrite andb_true_iff, Ascii.eqb_eq, (IH s L).
    split; [intros [-> ->]; reflexivity|intros [= -> ->]; tauto].
Qed.

Lemma match_names_app ps qs : forall ns,
  match_names (ps ++ qs) ns = true
  <-> exists n1 n2, ns = n1 ++ n2 /\ match_names ps n1 = true
                    /\ match_names qs n2 = true.
Proof.
  induction ps as [|p ps IH]; intros ns.
  - cbn [app]. split.
    + intros H. exists [], ns. repeat split; assumption.
    + intros (n1 & n2 & -> & H1 & H2). destruct n1; [exact H2|discriminate].
  - cbn [app match_names]. destruct ns as [|n ns].
    + split; [discriminate|].
      intros (n1 & n2 & E & H1 & _). destruct n1; discriminate.
    + rewrite andb_true_iff, IH. split.
      * intros (G & n1 & n2 & -> & H1 & H2). exists (n :: n1), n2.
        cbn [match_names]. rewrite G, H1. repeat split. exact H2.
      * intros (n1 & n2 & E & H1 & H2). destruct n1 as [|m n1]; [discriminate|].
        injection E as -> ->. cbn [match_names] in H1.
        apply andb_true_iff in H1. destruct H1 as [G H1].
        split; [exact G|]. exists n1, n2. repeat split; assumption.
Qed.

Lemma match_names_literal ps : forall ns,
  forallb literal ps = true -> (match_names ps ns = true <-> ns = ps).
Proof.
  induction ps as [|p ps IH]; intros ns L.
  - destruct ns; cbn; split; intros; congruence.
  - cbn [forallb] in L. apply andb_true_iff in L. destruct L as [Lp L].
    destruct ns as [|n ns]; [split; discriminate|].
    cbn [match_names]. rewrite andb_true_iff, (glob_match_literal p n Lp),
      (IH ns L).
    split; [intros [-> ->]; reflexivity|intros [= -> ->]; tauto].
Qed.

(** The components the two globs end with. *)
Lemma match_song_suffix ns :
  match_names ["A"; "A"; "*"; "*.json"] ns = true
  <-> exists d f, ns = ["A"; "A"; d; (f ++ ".json")%string].
Proof.
  split.
  - destruct ns as [|a [|b [|d [|g [|? ?]]]]]; cbn [match_names];
      rewrite ?andb_false_r; try discriminate.
    rewrite !andb_true_iff. intros (Ha & Hb & _ & Hg & _).
    apply (glob_match_literal "A") in Ha, Hb; try reflexivity. subst a b.
    apply glob_match_star in Hg. destruct Hg as (f & s' & -> & Hs).
    apply (glob_match_literal ".json") in Hs; [|reflexivity]. subst s'.
    exists d, f. reflexivity.
  - intros (d & f & ->). cbn [match_names]. rewrite !andb_true_iff.
    repeat split; try reflexivity.
    + apply glob_match_star. exists d, "". split; [|reflexivity].
      symmetry. apply string_app_nil.
    + apply glob_match_star. exists f, ".json". split; reflexivity.
Qed.

Lemma match_log_suffix ns :
  match_names ["A"; "A"; "*.json"] ns = true
  <-> exists f, ns = ["A"; "A"; (f ++ ".json")%string].
Proof.
  split.
  - destruct ns as [|a [|b [|g [|? ?]]]]; cbn [match_names];
      rewrite ?andb_false_r; try discriminate.
    rewrite !andb_true_iff. intros (Ha & Hb & Hg & _).
    apply (glob_match_literal "A") in Ha, Hb; try reflexivity. subst a b.
    apply glob_match_star in Hg. destruct Hg as (f & s' & -> & Hs).
    apply (glob_match_literal ".json") in Hs; [|reflexivity]. subst s'.
    exists f. reflexivity.
  - intros (f & ->). cbn [match_names]. rewrite !andb_true_iff.
    repeat split; try reflexivity.
    apply glob_match_star. exists f, ".json". split; reflexivity.
Qed.

Lemma scheme_eqb_eq a b : scheme_eqb a b = true <-> a = b.
Proof.
  destruct a as [x|], b as [y|]; cbn; try (split; congruence).
  rewrite String.eqb_eq. split; congruence.
Qed.

(** *** The files the two globs select *)

(** Whatever the base, a selected file lies in a directory [A/A]: two
    levels below it for the catalog, directly in it for the activity. *)
Lemma rest_of_not_root x v : v <> "" -> rest_of (x ++ String "/" v) <> "/".
Proof.
  intros V. rewrite rest_of_app. destruct (rest_of x) as [|c r]; cbn.
  - intros [= E]. contradiction.
  - intros [= _ E]. destruct r; discriminate.
Qed.

Lemma selects_suffix x v path :
  rest_of x <> "/" -> starts_name v = true ->
  selects (x ++ String "/" v) path = true ->
  exists pre ns, path_names (parse_path path) = pre ++ ns
                 /\ match_names (names v) ns = true.
Proof.
  intros R V. unfold selects. rewrite (parse_path_app x v R V).
  cbn [extend path_names]. rewrite !andb_true_iff, match_names_app.
  intros (_ & n1 & n2 & E & _ & H). exists n1, n2. tauto.
Qed.

Lemma song_glob_shape base path :
  selects (base ++ "/song-data/A/A/*/*.json") path = true ->
  exists pre d f,
    path_names (parse_path path)
    = pre ++ ["A"; "A"; d; (f ++ ".json")%string].
Proof.
  replace (base ++ "/song-data/A/A/*/*.json")%string
    with ((base ++ String "/" "song-data") ++ String "/" "A/A/*/*.json")%string
    by (rewrite string_app_assoc; reflexivity).
  intros H. apply selects_suffix in H;
    [|apply rest_of_not_root; discriminate|reflexivity].
  destruct H as (pre & ns & E & H). apply match_song_suffix in H.
  destruct H as (d & f & ->). exists pre, d, f. exact E.
Qed.

Lemma log_glob_shape base path :
  selects (base ++ "/log-data/A/A/*.json") path = true ->
  exists pre f,
    path_names (parse_path path) = pre ++ ["A"; "A"; (f ++ ".json")%string].
Proof.
  replace (base ++ "/log-data/A/A/*.json")%string
    with ((base ++ String "/" "log-data") ++ String "/" "A/A/*.json")%string
    by (rewrite string_app_assoc; reflexivity).
  intros H. apply selects_suffix in H;
    [|apply rest_of_not_root; discriminate|reflexivity].
  destruct H as (pre & ns & E & H). apply match_log_suffix in H.
  destruct H as (f & ->). exists pre, f. exact E.
Qed.

(** Below a plain base the globs select the files of these shapes, and no
    other. *)
Lemma no_char_app c a b : no_char c (a ++ b) = no_char c a && no_char c b.
Proof.
  induction a as [|d a IH]; [reflexivity|].
  cbn [append no_char]. rewrite IH, andb_assoc. reflexivity.
Qed.

Lemma operators_app a b : operators (a ++ b) = operators a || operators b.
Proof.
  unfold operators. rewrite !no_char_app.
  destruct (no_char "[" a), (no_char "{" a), (no_char backslash a),
    (no_char "[" b), (no_char "{" b), (no_char backslash b); reflexivity.
Qed.

Lemma plain_supported base v :
  plain base = true -> operators v = false -> starts_name v = true ->
  forallb (fun n => negb (dots n)) (names v) = true ->
  supported (base ++ String "/" v) = true.
Proof.
  unfold plain, supported. rewrite !andb_true_iff.
  intros [[O R] L] V S D. apply negb_true_iff in O, R.
  rewrite operators_app, O. change (operators (String "/" v)) with (operators v).
  rewrite V. split; [reflexivity|].
  rewrite parse_path_app; [|intros E; rewrite E in R; discriminate|exact S].
  cbn [extend path_names]. rewrite forallb_app, D, andb_true_r.
  rewrite forallb_forall in *. intros n Hn. specialize (L n Hn).
  apply andb_true_iff in L. tauto.
Qed.

Lemma selects_plain base v path :
  plain base = true -> starts_name v = true ->
  (selects (base ++ String "/" v) path = true
   <-> exists ns, located base path ns /\ match_names (names v) ns = true).
Proof.
  unfold plain. rewrite !andb_true_iff. intros [[_ R] L] S.
  apply negb_true_iff in R.
  assert (L' : forallb literal (path_names (parse_path base)) = true).
  { rewrite forallb_forall in *. intros n Hn. specialize (L n Hn).
    apply andb_true_iff in L. tauto. }
  unfold selects, located.
  rewrite parse_path_app; [|intros E; rewrite E in R; discriminate|exact S].
  destruct (parse_path base) as [bs ba bn], (parse_path path) as [ks ka kn].
  cbn [extend scheme authority path_names] in *.
  rewrite !andb_true_iff, scheme_eqb_eq, String.eqb_eq, match_names_app.
  split.
  - intros [[-> ->] (n1 & n2 & -> & H1 & H2)].
    apply (match_names_literal bn n1 L') in H1. subst n1.
    exists n2. split; [reflexivity|exact H2].
  - intros (ns & [= -> -> ->] & H). repeat split.
    exists bn, ns. repeat split; [|exact H].
    apply (match_names_literal bn bn L'). reflexivity.
Qed.

Lemma song_glob_plain base path :
  plain base = true ->
  (selects (base ++ "/song-data/A/A/*/*.json") path = true
   <-> exists d f,
         located base path
                 ["song-data"; "A"; "A"; d; (f ++ ".json")%string]).
Proof.
  intros P.
  change (base ++ "/song-data/A/A/*/*.json")%string
    with (base ++ String "/" "song-data/A/A/*/*.json")%string.
  rewrite (selects_plain base "song-data/A/A/*/*.json" path P eq_refl).
  change (names "song-data/A/A/*/*.json")
    with (["song-data"] ++ ["A"; "A"; "*"; "*.json"]).
  split.
  - intros (ns & Hl & H). apply match_names_app in H.
    destruct H as (n1 & n2 & -> & H1 & H2).
    apply (match_names_literal ["song-data"]) in H1; [|reflexivity].
    subst n1. apply match_song_suffix in H2. destruct H2 as (d & f & ->).
    exists d, f. exact Hl.
  - intros (d & f & Hl). eexists. split; [exact Hl|].
    apply (match_names_app ["song-data"]).
    exists ["song-data"], ["A"; "A"; d; (f ++ ".json")%string].
    repeat split. apply match_song_suffix. exists d, f. reflexivity.
Qed.

Lemma log_glob_plain base path :
  plain base = true ->
  (selects (base ++ "/log-data/A/A/*.json") path = true
   <-> exists f,
         located base path ["log-data"; "A"; "A"; (f ++ ".json")%string]).
Proof.
  intros P.
  change (base ++ "/log-data/A/A/*.json")%string
    with (base ++ String "/" "log-data/A/A/*.json")%string.
  rewrite (selects_plain base "log-data/A/A/*.json" path P eq_refl).
  change (names "log-data/A/A/*.json")
    with (["log-data"] ++ ["A"; "A"; "*.json"]).
  split.
  - intros (ns & Hl & H). apply match_names_app in H.
    destruct H as (n1 & n2 & -> & H1 & H2).
    apply (match_names_literal ["log-data"]) in H1; [|reflexivity].
    subst n1. apply match_log_suffix in H2. destruct H2 as (f & ->).
    exists f. exact Hl.
  - intros (f & Hl). eexists. split; [exact Hl|].
    apply (match_names_app ["log-data"]).
    exists ["log-data"], ["A"; "A"; (f ++ ".json")%string].
    repeat split. apply match_log_suffix. exists f. reflexivity.
Qed.

Lemma song_glob_supported base :
  plain base = true -> supported (song_data ALLOW_READ base) = true.
Proof. intros P. apply (plain_supported base _ P); reflexivity. Qed.

Lemma log_glob_supported base :
  plain base = true -> supported (log_data ALLOW_READ base) = true.
Proof. intros P. apply (plain_supported base _ P); reflexivity. Qed.

(** The name of a file is its last component. *)
Lemma file_name_last path pre n :
  path_names (parse_path path) = pre ++ [n] -> file_name path = n.
Proof. unfold file_name. intros ->. apply last_last. Qed.

Lemma file_name_located base path sub n :
  located base path (sub ++ [n]) -> file_name path = n.
Proof.
  unfold located. intros E.
  apply (file_name_last path (path_names (parse_path base) ++ sub)).
  rewrite E. cbn [extend path_names]. rewrite app_assoc. reflexivity.
Qed.

(** *** What a read returns *)

Lemma records_In {R} pattern (files : list (string * list R)) s :
  In s (records pattern files)
  <-> exists path recs,
        In (path, recs) files /\ selects pattern path = true
        /\ hidden (file_name path) = false /\ In s recs.
Proof.
  unfold records, matching, visible. rewrite in_flat_map. split.
  - intros ([path recs] & H & Hs). rewrite !filter_In in H.
    cbn [fst snd] in *. destruct H as [[Hf Hm] Hv].
    apply negb_true_iff in Hv. exists path, recs. tauto.
  - intros (path & recs & Hf & Hm & Hv & Hs). exists (path, recs).
    rewrite !filter_In. cbn [fst snd]. rewrite Hv. tauto.
Qed.

Lemma read_json_cases {R} (files : list (string * list R)) frame pattern df :
  read_json files frame pattern = Ok df ->
  supported pattern = true
  /\ List.filter visible (matching pattern files) <> []
  /\ ((records pattern files = [] /\ df = mkDataFrame [] [])
      \/ (records pattern files <> []
          /\ df = frame (records pattern files))).
Proof.
  unfold read_json. destruct (supported pattern); [|discriminate].
  cbn [negb]. destruct (matching pattern files) as [|f fs] eqn:M;
    [discriminate|].
  unfold records. rewrite M.
  destruct (List.filter visible (f :: fs)) as [|g gs]; [discriminate|].
  destruct (flat_map snd (g :: gs)) as [|r rs].
  - intros [= <-]. split; [reflexivity|]. split; [discriminate|].
    left. split; reflexivity.
  - intros [= <-]. split; [reflexivity|]. split; [discriminate|].
    right. split; [discriminate|reflexivity].
Qed.

Lemma read_json_ok_iff {R} (files : list (string * list R)) frame pattern :
  is_ok (read_json files frame pattern) = true
  <-> supported pattern = true
      /\ List.filter visible (matching pattern files) <> [].
Proof.
  split.
  - destruct (read_json files frame pattern) as [df|] eqn:E; [|discriminate].
    intros _. apply read_json_cases in E. tauto.
  - intros [S V]. unfold read_json. rewrite S. cbn [negb].
    destruct (matching pattern files) as [|f fs] eqn:M; [contradiction|].
    unfold records. rewrite M.
    destruct (List.filter visible (f :: fs)) as [|g gs]; [contradiction|].
    destruct (flat_map snd (g :: gs)); reflexivity.
Qed.

Lemma read_json_records {R} (files : list (string * list R)) frame pattern :
  supported pattern = true -> records pattern files <> [] ->
  read_json files frame pattern = Ok (frame (records pattern files)).
Proof.
  intros S N. unfold read_json. rewrite S. cbn [negb].
  unfold records in *.
  destruct (matching pattern files) as [|f fs]; [contradiction|].
  destruct (List.filter visible (f :: fs)) as [|g gs]; [contradiction|].
  destruct (flat_map snd (g :: gs)); [contradiction|reflexivity].
Qed.

Lemma visible_nonempty {R} pattern (files : list (string * list R)) :
  List.filter visible (matching pattern files) <> []
  <-> exists path recs, In (path, recs) files /\ selects pattern path = true
                        /\ hidden (file_name path) = false.
Proof.
  split.
  - destruct (List.filter visible (matching pattern files)) as [|[path recs] l]
      eqn:E; [contradiction|].
    intros _. assert (I : In (path, recs) ((path, recs) :: l)) by (left; reflexivity).
    rewrite <- E in I. unfold matching, visible in I. rewrite !filter_In in I.
    cbn [fst] in I. destruct I as [[I1 I2] I3]. apply negb_true_iff in I3.
    exists path, recs. tauto.
  - intros (path & recs & Hf & Hm & Hv) E.
    assert (I : In (path, recs) (List.filter visible (matching pattern files))).
    { unfold matching, visible. rewrite !filter_In. cbn [fst]. rewrite Hv. tauto. }
    rewrite E in I. exact I.
Qed.

Lemma read_song_rows spark input_data df r :
  read_song_data spark input_data = Ok df ->
  (In r (rows df)
   <-> exists s, In s (catalog_of spark input_data) /\ r = song_row s).
Proof.
  unfold read_song_data, catalog_of. intros E. apply read_json_cases in E.
  destruct E as (_ & _ & [[N ->]|[_ ->]]).
  - rewrite N. cbn. split; [tauto|]. intros (s & [] & _).
  - unfold song_df. cbn [rows]. rewrite in_map_iff. split.
    + intros (s & <- & Hs). exists s. tauto.
    + intros (s & Hs & ->). exists s. tauto.
Qed.

Lemma read_log_rows spark input_data df r :
  read_log_data spark input_data = Ok df ->
  (In r (rows df)
   <-> exists a, In a (activity_of spark input_data) /\ r = log_row a).
Proof.
  unfold read_log_data, activity_of. intros E. apply read_json_cases in E.
  destruct E as (_ & _ & [[N ->]|[_ ->]]).
  - rewrite N. cbn. split; [tauto|]. intros (s & [] & _).
  - unfold log_df. cbn [rows]. rewrite in_map_iff. split.
    + intros (s & <- & Hs). exists s. tauto.
    + intros (s & Hs & ->). exists s. tauto.
Qed.

(** C10. Whatever the base path, the catalog reader resolves the one glob
    [<base>/song-data/A/A/*/*.json] and the activity reader the one glob
    [<base>/log-data/A/A/*.json] (with reading switched off, the fixed
    globs [data/song-data/A/A/*/*.json] and [data/log-data/*.json]), and
    the frame a reader returns holds records of files in a directory [A/A]
    only, not of every file below the base: each row is a record of a file
    of the session that is not hidden and whose path ends with
    [A/A/<d>/<f>.json] for the catalog, with [A/A/<f>.json] for the
    activity.  Below a plain base the frame is tied to the glob exactly: a
    reader returns a frame when and only when the session has a file that
    is not hidden at [song-data/A/A/<d>/<f>.json] (at
    [log-data/A/A/<f>.json]) below the base, and the rows of the frame are
    then the records of all these files and of no other. *)
Theorem readers_resolve_fixed_globs
        (spark : SparkSession) (input_data : string) :
  song_data ALLOW_READ input_data
  = (input_data ++ "/song-data/A/A/*/*.json")%string
  /\ log_data ALLOW_READ input_data
     = (input_data ++ "/log-data/A/A/*.json")%string
  /\ song_data false input_data = "data/song-data/A/A/*/*.json"
  /\ log_data false input_data = "data/log-data/*.json"
  /\ (forall df r,
        read_song_data spark input_data = Ok df -> In r (rows df) ->
        exists path recs s pre d f,
          In (path, recs) (song_files spark) /\ In s recs /\ r = song_row s
          /\ path_names (parse_path path)
             = pre ++ ["A"; "A"; d; (f ++ ".json")%string]
          /\ hidden (f ++ ".json") = false)
  /\ (forall df r,
        read_log_data spark input_data = Ok df -> In r (rows df) ->
        exists path recs a pre f,
          In (path, recs) (log_files spark) /\ In a recs /\ r = log_row a
          /\ path_names (parse_path path)
             = pre ++ ["A"; "A"; (f ++ ".json")%string]
          /\ hidden (f ++ ".json") = false)
  /\ (plain input_data = true ->
      (is_ok (read_song_data spark input_data) = true
       <-> exists path recs d f,
             In (path, recs) (song_files spark)
             /\ located input_data path
                        ["song-data"; "A"; "A"; d; (f ++ ".json")%string]
             /\ hidden (f ++ ".json") = false)
      /\ forall df r,
           read_song_data spark input_data = Ok df ->
           (In r (rows df)
            <-> exists path recs s d f,
                  In (path, recs) (song_files spark)
                  /\ located input_data path
                             ["song-data"; "A"; "A"; d; (f ++ ".json")%string]
                  /\ hidden (f ++ ".json") = false
                  /\ In s recs /\ r = song_row s))
  /\ (plain input_data = true ->
      (is_ok (read_log_data spark input_data) = true
       <-> exists path recs f,
             In (path, recs) (log_files spark)
             /\ located input_data path
                        ["log-data"; "A"; "A"; (f ++ ".json")%string]
             /\ hidden (f ++ ".json") = false)
      /\ forall df r,
           read_log_data spark input_data = Ok df ->
           (In r (rows df)
            <-> exists path recs a f,
                  In (path, recs) (log_files spark)
                  /\ located input_data path
                             ["log-data"; "A"; "A"; (f ++ ".json")%string]
                  /\ hidden (f ++ ".json") = false
                  /\ In a recs /\ r = log_row a)).
Proof.
  split; [reflexivity|]. split; [reflexivity|]. split; [reflexivity|].
  split; [reflexivity|]. split; [|split; [|split]].
  - intros df r E Hr. apply (read_song_rows _ _ _ r E) in Hr.
    destruct Hr as (s & Hs & ->). apply records_In in Hs.
    destruct Hs as (path & recs & Hf & Hm & Hv & Hs).
    apply song_glob_shape in Hm. destruct Hm as (pre & d & f & Hn).
    exists path, recs, s, pre, d, f. repeat split; try assumption.
    rewrite <- (file_name_last path (pre ++ ["A"; "A"; d]) (f ++ ".json"));
      [exact Hv|].
    rewrite Hn, <- app_assoc. reflexivity.
  - intros df r E Hr. apply (read_log_rows _ _ _ r E) in Hr.
    destruct Hr as (a & Ha & ->). apply records_In in Ha.
    destruct Ha as (path & recs & Hf & Hm & Hv & Ha).
    apply log_glob_shape in Hm. destruct Hm as (pre & f & Hn).
    exists path, recs, a, pre, f. repeat split; try assumption.
    rewrite <- (file_name_last path (pre ++ ["A"; "A"]) (f ++ ".json"));
      [exact Hv|].
    rewrite Hn, <- app_assoc. reflexivity.
  - intros P. split.
    + unfold read_song_data. rewrite read_json_ok_iff, visible_nonempty.
      split.
      * intros (_ & path & recs & Hf & Hm & Hv).
        apply (song_glob_plain _ _ P) in Hm. destruct Hm as (d & f & Hl).
        exists path, recs, d, f. repeat split; try assumption.
        rewrite <- (file_name_located input_data path ["song-data"; "A"; "A"; d] _ Hl).
        exact Hv.
      * intros (path & recs & d & f & Hf & Hl & Hv).
        split; [apply song_glob_supported, P|].
        exists path, recs. split; [exact Hf|]. split.
        -- apply (song_glob_plain _ _ P). exists d, f. exact Hl.
        -- rewrite (file_name_located input_data path
                      ["song-data"; "A"; "A"; d] _ Hl). exact Hv.
    + intros df r E. rewrite (read_song_rows _ _ _ r E). split.
      * intros (s & Hs & ->). apply records_In in Hs.
        destruct Hs as (path & recs & Hf & Hm & Hv & Hs).
        apply (song_glob_plain _ _ P) in Hm. destruct Hm as (d & f & Hl).
        exists path, recs, s, d, f. repeat split; try assumption.
        rewrite <- (file_name_located input_data path ["song-data"; "A"; "A"; d] _ Hl).
        exact Hv.
      * intros (path & recs & s & d & f & Hf & Hl & Hv & Hs & ->).
        exists s. split; [|reflexivity]. apply records_In.
        exists path, recs. split; [exact Hf|]. split.
        -- apply (song_glob_plain _ _ P). exists d, f. exact Hl.
        -- rewrite (file_name_located input_data path
                      ["song-data"; "A"; "A"; d] _ Hl). tauto.
  - intros P. split.
    + unfold read_log_data. rewrite read_json_ok_iff, visible_nonempty.
      split.
      * intros (_ & path & recs & Hf & Hm & Hv).
        apply (log_glob_plain _ _ P) in Hm. destruct Hm as (f & Hl).
        exists path, recs, f. repeat split; try assumption.
        rewrite <- (file_name_located input_data path ["log-data"; "A"; "A"] _ Hl).
        exact Hv.
      * intros (path & recs & f & Hf & Hl & Hv).
        split; [apply log_glob_supported, P|].
        exists path, recs. split; [exact Hf|]. split.
        -- apply (log_glob_plain _ _ P). exists f. exact Hl.
        -- rewrite (file_name_located input_data path
                      ["log-data"; "A"; "A"] _ Hl). exact Hv.
    + intros df r E. rewrite (read_log_rows _ _ _ r E). split.
      * intros (a & Ha & ->). apply records_In in Ha.
        destruct Ha as (path & recs & Hf & Hm & Hv & Ha).
        apply (log_glob_plain _ _ P) in Hm. destruct Hm as (f & Hl).
        exists path, recs, a, f. repeat split; try assumption.
        rewrite <- (file_name_located input_data path ["log-data"; "A"; "A"] _ Hl).
        exact Hv.
      * intros (path & recs & a & f & Hf & Hl & Hv & Ha & ->).
        exists a. split; [|reflexivity]. apply records_In.
        exists path, recs. split; [exact Hf|]. split.
        -- apply (log_glob_plain _ _ P). exists f. exact Hl.
        -- rewrite (file_name_located input_data path
                      ["log-data"; "A"; "A"] _ Hl). tauto.
Qed.

(** Of the four catalog files of [bucket] one is hidden and two lie
    outside [A/A]: the frame holds the record of the remaining one, and
    the record of the hidden file is a row of it exactly if a file of the
    shape that is not hidden holds that record. *)
Lemma readers_resolve_fixed_globs_witness :
  In (song_row S1_long) (rows (song_df [S1_short]))
  <-> exists path recs s d f,
        In (path, recs) (song_files bucket)
        /\ located "s3a://udacity-dend/" path
                   ["song-data"; "A"; "A"; d; (f ++ ".json")%string]
        /\ hidden (f ++ ".json") = false
        /\ In s recs /\ song_row S1_long = song_row s.
Proof.
  destruct (readers_resolve_fixed_globs bucket "s3a://udacity-dend/")
    as (_ & _ & _ & _ & _ & _ & HS & _).
  destruct (HS eq_refl) as [_ H].
  exact (H (song_df [S1_short]) (song_row S1_long) eq_refl).
Defined.

(** * Further properties of the script *)

Local Ltac div_lia := Z.to_euclidean_division_equations; lia.

(** ** Creators and Users *)

(** The frame of a read: without a column when the files hold no record,
    with the columns of the records otherwise. *)
Lemma read_song_cases spark input_data df :
  read_song_data spark input_data = Ok df ->
  (catalog_of spark input_data = [] /\ df = mkDataFrame [] [])
  \/ (catalog_of spark input_data <> []
      /\ df = song_df (catalog_of spark input_data)).
Proof.
  unfold read_song_data, catalog_of. intros E. apply read_json_cases in E.
  tauto.
Qed.

Lemma read_log_cases spark input_data df :
  read_log_data spark input_data = Ok df ->
  (activity_of spark input_data = [] /\ df = mkDataFrame [] [])
  \/ (activity_of spark input_data <> []
      /\ df = log_df (activity_of spark input_data)).
Proof.
  unfold read_log_data, activity_of. intros E. apply read_json_cases in E.
  tauto.
Qed.

(** X1. [artists_table] (lines 127-133) on the frame the catalog reader
    returns.  When the files read hold no record the frame has no column
    and the projection fails on its first name.  Otherwise the table
    exists; its rows are the projections of the records on the five
    artist columns, compared and returned with the zeros of the
    coordinates made positive, each tuple once.  Nothing is merged by
    [artist_id]: an artist whose records disagree on a column has one row
    per version. *)
Theorem artists_table_distinct_tuples
        (spark : SparkSession) (input_data : string) (df : DataFrame) :
  read_song_data spark input_data = Ok df ->
  let catalog := catalog_of spark input_data in
  (catalog = [] -> artists_table df = Err (UnresolvedColumn "artist_id"))
  /\ (catalog <> [] ->
      exists t,
        artists_table df = Ok t
        /\ columns t = artist_columns
        /\ NoDup (rows t)
        /\ (forall r, In r (rows t)
                      <-> exists s, In s catalog /\ r = grouped_creator_row s)
        /\ (forall s s', In s catalog -> In s' catalog ->
              grouped_creator_row s <> grouped_creator_row s' ->
              In (grouped_creator_row s) (rows t)
              /\ In (grouped_creator_row s') (rows t)
              /\ (2 <= List.length (rows t))%nat)).
Proof.
  intros R catalog. apply read_song_cases in R. fold catalog in R.
  split.
  { intros E. destruct R as [[_ ->]|[N _]]; [reflexivity|contradiction]. }
  intros N. destruct R as [[E _]|[_ ->]]; [contradiction|].
  eexists. split; [apply artists_table_spec|]. cbn [rows columns].
  split; [reflexivity|]. split; [apply dedup_NoDup|].
  assert (M : forall r,
             In r (DF.dedup (fun r => r) (map grouped_creator_row catalog))
             <-> exists s, In s catalog /\ r = grouped_creator_row s).
  { intros r. rewrite dedup_id_In, in_map_iff.
    split; intros (s & H1 & H2); exists s;
      [split; [exact H2|symmetry; exact H1]
      |split; [symmetry; exact H2|exact H1]]. }
  split; [exact M|].
  intros s s' Hs Hs' D.
  assert (I : In (grouped_creator_row s)
                 (DF.dedup (fun r => r) (map grouped_creator_row catalog)))
    by (apply M; exists s; split; [exact Hs|reflexivity]).
  assert (I' : In (grouped_creator_row s')
                  (DF.dedup (fun r => r) (map grouped_creator_row catalog)))
    by (apply M; exists s'; split; [exact Hs'|reflexivity]).
  split; [exact I|]. split; [exact I'|].
  destruct (DF.dedup (fun r => r) (map grouped_creator_row catalog))
    as [|x [|y l]].
  - destruct I.
  - destruct I as [E|[]], I' as [E'|[]]. congruence.
  - cbn. lia.
Qed.

(** One artist at two locations, and once more with the latitude [-0.0]
    for [0.0]: two Creators rows with the same [artist_id], the zero
    positive. *)
Lemma artists_table_distinct_tuples_witness :
  exists t,
    artists_table (song_df [S1_north; S1_moved; S1_south]) = Ok t
    /\ rows t = [creator_row S1_north; creator_row S1_moved].
Proof.
  destruct (artists_table_distinct_tuples equator "s3a://udacity-dend/"
              (song_df [S1_north; S1_moved; S1_south]) eq_refl)
    as [_ H].
  destruct H as (t & E & _); [discriminate|].
  exists t. split; [exact E|].
  assert (E' : artists_table (song_df [S1_north; S1_moved; S1_south])
               = Ok (mkDataFrame artist_columns
                       [creator_row S1_north; creator_row S1_moved]))
    by reflexivity.
  rewrite E' in E. injection E as <-. reflexivity.
Defined.

(** X2. [user_table] (lines 171-187) on the frame the activity reader
    returns.  When the files read hold no record the frame has no column
    and line 173 raises on [df.userId].  Otherwise the Users table exists;
    its rows are the projections of the "NextSong" records on the five
    user columns, each tuple once.  Nothing is merged by [userId]: a user
    who plays at two levels has two rows. *)
Theorem user_table_distinct_tuples
        (spark : SparkSession) (input_data : string) (df : DataFrame) :
  read_log_data spark input_data = Ok df ->
  let log := activity_of spark input_data in
  (log = [] -> Users df = Err (AttributeError "userId"))
  /\ (log <> [] ->
      exists t,
        Users df = Ok t
        /\ columns t = user_columns
        /\ NoDup (rows t)
        /\ (forall r, In r (rows t)
                      <-> exists a, In a log /\ page a = Some "NextSong"
                                    /\ r = user_row a)
        /\ (forall a a', In a log -> In a' log ->
              page a = Some "NextSong" -> page a' = Some "NextSong" ->
              userId a = userId a' -> level a <> level a' ->
              exists r r', In r (rows t) /\ In r' (rows t) /\ r <> r'
                           /\ cell 4 r = cell 4 r')).
Proof.
  intros R log. apply read_log_cases in R. fold log in R.
  split.
  { intros E. destruct R as [[_ ->]|[N _]]; [reflexivity|contradiction]. }
  intros N. destruct R as [[E _]|[_ ->]]; [contradiction|].
  eexists. split; [apply Users_spec|]. cbn [rows columns].
  split; [reflexivity|]. split; [apply dedup_NoDup|].
  assert (M : forall r,
             In r (DF.dedup (fun r => r) (map user_row (next_songs log)))
             <-> exists a, In a log /\ page a = Some "NextSong"
                           /\ r = user_row a).
  { intros r. rewrite dedup_id_In, in_map_iff. split.
    - intros (a & <- & Ha). apply next_songs_In in Ha. exists a. tauto.
    - intros (a & Ha & Hp & ->). exists a. split; [reflexivity|].
      apply next_songs_In. tauto. }
  split; [exact M|].
  intros a a' Ha Ha' Hp Hp' Eu Nl.
  exists (user_row a), (user_row a').
  split; [apply M; exists a; tauto|]. split; [apply M; exists a'; tauto|].
  split.
  - intros E. apply Nl. unfold user_row in E. injection E as _ _ _ E _.
    apply str_inj. exact E.
  - cbn. rewrite Eu. reflexivity.
Qed.

Lemma user_table_distinct_tuples_witness :
  exists r r',
    In r [user_row ann_play; user_row ann_free]
    /\ In r' [user_row ann_play; user_row ann_free]
    /\ r <> r' /\ cell 4 r = cell 4 r'.
Proof.
  destruct (user_table_distinct_tuples udacity_in_place "s3a://udacity-dend/"
              (log_df [bob_home; ann_play; ann_again; ann_free]) eq_refl)
    as [_ H].
  destruct H as (t & E & _ & _ & _ & H); [discriminate|].
  assert (E' : Users (log_df [bob_home; ann_play; ann_again; ann_free])
               = Ok (mkDataFrame user_columns
                       [user_row ann_play; user_row ann_free]))
    by reflexivity.
  rewrite E' in E. injection E as <-.
  apply (H ann_play ann_free); cbn; auto; discriminate.
Defined.

(** ** Plays after [distinct] and the ids *)

Lemma number_rows_combine ids cols name rs : forall i,
  DF.number_rows ids cols name i rs
  = map (fun ir => DF.put cols name (VLong (ids (fst ir))) (snd ir))
        (combine (seq i (List.length rs)) rs).
Proof.
  induction rs as [|r rs IH]; intros i; [reflexivity|].
  cbn. rewrite IH. reflexivity.
Qed.

Lemma play_row_id_cell utcoffset p v :
  cell 8 (play_row utcoffset p ++ [v]) = v.
Proof. destruct p. reflexivity. Qed.

(** X3. [songplays_table] (lines 263-279): whenever Plays is produced, it
    is a list of pairwise distinct projected rows, exactly those of the
    matched pairs, each extended by one cell: the row at position [i] gets
    the id the run hands out for [i].  Two plays that agree on the eight
    projected columns are one row; and when the run's ids are pairwise
    different, so are the [songplay_id] cells. *)
Theorem plays_rows_are_distinct_and_numbered
        (utcoffset : Z -> Z) (ids : nat -> Z)
        (log : list log_record) (catalog : list song_record) (df : DataFrame) :
  Plays utcoffset ids (log_df log) (song_df catalog) = Ok df ->
  exists rs,
    NoDup rs
    /\ (forall r, In r rs <-> exists p, In p (matched_pairs log catalog)
                                       /\ r = play_row utcoffset p)
    /\ columns df = plays_columns
    /\ rows df = map (fun ir => snd ir ++ [VLong (ids (fst ir))])
                     (combine (seq 0 (List.length rs)) rs)
    /\ ((forall i j, (i < List.length rs)%nat -> (j < List.length rs)%nat ->
                     ids i = ids j -> i = j) ->
        NoDup (map (cell 8) (rows df))).
Proof.
  intros E.
  assert (F : Forall (ts_ok utcoffset) (next_songs log)).
  { unfold Plays in E.
    destruct (timed utcoffset (log_df log)) eqn:T; [|discriminate].
    eapply timed_inv; eassumption. }
  rewrite (Plays_ok utcoffset ids log catalog F) in E. injection E as <-.
  set (rs := DF.dedup (fun r => r)
               (map (play_row utcoffset) (matched_pairs log catalog))).
  assert (M : forall r, In r rs <-> exists p, In p (matched_pairs log catalog)
                                             /\ r = play_row utcoffset p).
  { intros r. unfold rs. rewrite dedup_id_In, in_map_iff.
    split; intros (p & H1 & H2); exists p;
      [split; [exact H2|symmetry; exact H1]
      |split; [symmetry; exact H2|exact H1]]. }
  assert (R : rows (DF.withColumn_id ids "songplay_id"
                      (mkDataFrame songplays_columns rs))
              = map (fun ir => snd ir ++ [VLong (ids (fst ir))])
                    (combine (seq 0 (List.length rs)) rs)).
  { unfold DF.withColumn_id. cbn [rows columns].
    rewrite number_rows_combine. apply map_ext. intros [i r]. reflexivity. }
  exists rs. split; [apply dedup_NoDup|]. split; [exact M|].
  split; [reflexivity|]. split; [exact R|].
  intros Inj. rewrite R, map_map. cbv beta.
  assert (C : map (fun ir : nat * row =>
                     cell 8 (snd ir ++ [VLong (ids (fst ir))]))
                  (combine (seq 0 (List.length rs)) rs)
              = map (fun i => VLong (ids i)) (seq 0 (List.length rs))).
  { assert (G : forall l i,
               (forall r, In r l -> exists p, r = play_row utcoffset p) ->
               map (fun ir : nat * row =>
                      cell 8 (snd ir ++ [VLong (ids (fst ir))]))
                   (combine (seq i (List.length l)) l)
               = map (fun i => VLong (ids i)) (seq i (List.length l))).
    { induction l as [|r l IH]; intros i H; [reflexivity|].
      cbn [List.length seq combine map fst snd].
      rewrite IH by (intros; apply H; right; assumption).
      destruct (H r (or_introl eq_refl)) as (p & ->).
      rewrite play_row_id_cell. reflexivity. }
    apply G. intros r Hr. apply M in Hr. destruct Hr as (p & _ & ->).
    exists p. reflexivity. }
  change (NoDup (map (fun ir : nat * row =>
                        cell 8 (snd ir ++ [VLong (ids (fst ir))]))
                     (combine (seq 0 (List.length rs)) rs))).
  rewrite C. apply NoDup_map_NoDup_ForallPairs; [|apply seq_NoDup].
  intros i j Hi Hj Eij. apply in_seq in Hi, Hj. injection Eij as Eij.
  apply Inj; lia || exact Eij.
Qed.

(** The same play delivered twice, against the two "S1" records (which
    agree on [song_id] and [artist_id]): four joined pairs, one Plays row. *)
Lemma plays_rows_are_distinct_and_numbered_witness :
  exists rs,
    NoDup rs
    /\ rows (mkDataFrame plays_columns
               [play_row UTC (ann_play, S1_short) ++ [VLong 0]])
       = map (fun ir => snd ir ++ [VLong (numbering (fst ir))])
             (combine (seq 0 (List.length rs)) rs).
Proof.
  destruct (plays_rows_are_distinct_and_numbered UTC numbering
              [ann_play; ann_again] [S1_short; S1_long]
              (mkDataFrame plays_columns
                 [play_row UTC (ann_play, S1_short) ++ [VLong 0]])
              eq_refl)
    as (rs & N & _ & _ & R & _).
  exists rs. split; [exact N|exact R].
Defined.

(** ** The outcome of the two transformers *)

Lemma append_inj_l (o a b : string) :
  (o ++ a)%string = (o ++ b)%string -> a = b.
Proof.
  induction o as [|c o IH]; cbn; [tauto|]. intros [= E]. apply IH, E.
Qed.

Lemma write_fresh partitionBy path df st :
  forallb (fun c => DF.has_column c (columns df)) partitionBy = true ->
  exists_path path st = false ->
  write_if_allowed partitionBy path df st
  = Ok ((path, mkTable partitionBy df) :: st).
Proof.
  intros P E. unfold write_if_allowed, write_parquet. cbn [ALLOW_WRITE].
  assert (M : mapM (check_partition_column df) partitionBy
              = Ok (map (fun _ => tt) partitionBy)).
  { induction partitionBy as [|c l IH]; [reflexivity|].
    cbn in P. apply andb_true_iff in P. destruct P as [Pc Pl].
    cbn. unfold check_partition_column at 1. rewrite Pc. cbn.
    rewrite (IH Pl). reflexivity. }
  rewrite M. cbn [bind]. rewrite E. reflexivity.
Qed.

Lemma write_existing partitionBy path df st :
  forallb (fun c => DF.has_column c (columns df)) partitionBy = true ->
  exists_path path st = true ->
  write_if_allowed partitionBy path df st = Err (PathAlreadyExists path).
Proof.
  intros P E. unfold write_if_allowed, write_parquet. cbn [ALLOW_WRITE].
  assert (M : mapM (check_partition_column df) partitionBy
              = Ok (map (fun _ => tt) partitionBy)).
  { induction partitionBy as [|c l IH]; [reflexivity|].
    cbn in P. apply andb_true_iff in P. destruct P as [Pc Pl].
    cbn. unfold check_partition_column at 1. rewrite Pc. cbn.
    rewrite (IH Pl). reflexivity. }
  rewrite M. cbn [bind]. rewrite E. reflexivity.
Qed.

Lemma exists_path_cons path p t st :
  exists_path path ((p, t) :: st) = String.eqb path p || exists_path path st.
Proof. reflexivity. Qed.

Lemma output_paths_differ (o a b : string) :
  a <> b -> String.eqb (o ++ a) (o ++ b) = false.
Proof.
  intros N. apply String.eqb_neq. intros E. apply N.
  apply (append_inj_l o). exact E.
Qed.

Lemma read_song_records spark input_data :
  plain input_data = true -> catalog_of spark input_data <> [] ->
  read_song_data spark input_data
  = Ok (song_df (catalog_of spark input_data)).
Proof.
  intros P N. apply read_json_records; [apply song_glob_supported, P|exact N].
Qed.

Lemma read_log_records spark input_data :
  plain input_data = true -> activity_of spark input_data <> [] ->
  read_log_data spark input_data
  = Ok (log_df (activity_of spark input_data)).
Proof.
  intros P N. apply read_json_records; [apply log_glob_supported, P|exact N].
Qed.

Lemma process_song_data_fresh spark input_data output_data st :
  plain input_data = true -> catalog_of spark input_data <> [] ->
  exists_path (output_data ++ "songs/songs_table.parquet")%string st = false ->
  exists_path (output_data ++ "artists/artists_table.parquet")%string st
  = false ->
  process_song_data spark input_data output_data st
  = Ok ([((output_data ++ "artists/artists_table.parquet")%string,
          mkTable [] (mkDataFrame artist_columns
                        (DF.dedup (fun r => r)
                           (map grouped_creator_row
                                (catalog_of spark input_data)))));
         ((output_data ++ "songs/songs_table.parquet")%string,
          mkTable ["year"; "artist_id"]
                  (mkDataFrame song_columns
                     (DF.dedup (pick [0%nat])
                        (map item_row (catalog_of spark input_data)))))]
        ++ st).
Proof.
  intros P A B C. unfold process_song_data.
  rewrite (read_song_records spark input_data P A). cbn [bind].
  rewrite songs_table_spec. cbn [bind].
  rewrite write_fresh by (reflexivity || exact B). cbn [bind].
  rewrite artists_table_spec. cbn [bind].
  rewrite write_fresh; [reflexivity|reflexivity|].
  rewrite exists_path_cons, C.
  rewrite output_paths_differ by discriminate. reflexivity.
Qed.

(** X4. For a plain base path, [process_song_data] (lines 82-139) returns
    normally exactly when the files it reads hold at least one record and
    neither of its two destination paths exists; it then leaves exactly
    two new tables: Items, partitioned by [year] and [artist_id] (both are
    Items columns), and Creators, unpartitioned.  When the read succeeds on
    files without a record, the frame has no column and the run stops at
    line 110 on the name [song_id]. *)
Theorem process_song_data_outcome
        (spark : SparkSession) (input_data output_data : string)
        (st : storage) :
  plain input_data = true ->
  let songs_path := (output_data ++ "songs/songs_table.parquet")%string in
  let artists_path := (output_data ++ "artists/artists_table.parquet")%string in
  let catalog := catalog_of spark input_data in
  (is_ok (process_song_data spark input_data output_data st) = true
   <-> catalog <> []
       /\ exists_path songs_path st = false
       /\ exists_path artists_path st = false)
  /\ (is_ok (read_song_data spark input_data) = true -> catalog = [] ->
      process_song_data spark input_data output_data st
      = Err (UnresolvedColumn "song_id"))
  /\ (forall st',
        process_song_data spark input_data output_data st = Ok st' ->
        st' = [(artists_path,
                mkTable [] (mkDataFrame artist_columns
                              (DF.dedup (fun r => r)
                                        (map grouped_creator_row catalog))));
               (songs_path,
                mkTable ["year"; "artist_id"]
                        (mkDataFrame song_columns
                           (DF.dedup (pick [0%nat])
                                     (map item_row catalog))))] ++ st).
Proof.
  intros P songs_path artists_path catalog.
  assert (V : forall st',
             process_song_data spark input_data output_data st = Ok st' ->
             catalog <> []
             /\ exists_path songs_path st = false
             /\ exists_path artists_path st = false
             /\ st' = [(artists_path,
                        mkTable [] (mkDataFrame artist_columns
                                      (DF.dedup (fun r => r)
                                         (map grouped_creator_row catalog))));
                       (songs_path,
                        mkTable ["year"; "artist_id"]
                                (mkDataFrame song_columns
                                   (DF.dedup (pick [0%nat])
                                             (map item_row catalog))))] ++ st).
  { intros st' H. unfold process_song_data in H.
    destruct (read_song_data spark input_data) as [df|] eqn:R;
      [|discriminate].
    cbn [bind] in H. apply read_song_cases in R. fold catalog in R.
    destruct R as [[_ ->]|[N ->]]; [discriminate|].
    rewrite songs_table_spec in H. cbn [bind] in H.
    fold songs_path artists_path in H.
    destruct (exists_path songs_path st) eqn:E1.
    { rewrite write_existing in H by (reflexivity || exact E1). discriminate. }
    rewrite write_fresh in H by (reflexivity || exact E1). cbn [bind] in H.
    rewrite artists_table_spec in H. cbn [bind] in H.
    destruct (exists_path artists_path st) eqn:E2.
    { rewrite write_existing in H; [discriminate|reflexivity|].
      rewrite exists_path_cons, E2. apply orb_true_r. }
    rewrite write_fresh in H; [|reflexivity|].
    - injection H as <-. repeat split; assumption || reflexivity.
    - rewrite exists_path_cons, E2.
      unfold artists_path, songs_path.
      rewrite output_paths_differ by discriminate. reflexivity. }
  split; [split|split].
  - intros H.
    destruct (process_song_data spark input_data output_data st) as [st'|] eqn:E;
      [|discriminate].
    destruct (V st' eq_refl) as (A & B & C & _). tauto.
  - intros (A & B & C).
    rewrite (process_song_data_fresh spark input_data output_data st P A B C).
    reflexivity.
  - intros R E. unfold process_song_data.
    destruct (read_song_data spark input_data) as [df|] eqn:D;
      [|discriminate].
    apply read_song_cases in D. fold catalog in D.
    destruct D as [[_ ->]|[N _]]; [reflexivity|contradiction].
  - intros st' H. apply V in H. tauto.
Qed.

Lemma process_song_data_outcome_witness :
  process_song_data udacity "s3a://udacity-dend/" "out/" []
  = Ok [("out/artists/artists_table.parquet",
         mkTable [] (mkDataFrame artist_columns [creator_row S1_short]));
        ("out/songs/songs_table.parquet",
         mkTable ["year"; "artist_id"]
                 (mkDataFrame song_columns [item_row S1_short]))]
  /\ process_song_data blank "s3a://udacity-dend/" "out/" []
     = Err (UnresolvedColumn "song_id").
Proof.
  destruct (process_song_data_outcome udacity "s3a://udacity-dend/" "out/" []
              eq_refl) as [[_ S] [_ V]].
  destruct (process_song_data_outcome blank "s3a://udacity-dend/" "out/" []
              eq_refl) as [_ [B _]].
  split; [|apply B; reflexivity].
  destruct (process_song_data udacity "s3a://udacity-dend/" "out/" [])
    as [st'|e] eqn:E.
  - rewrite (V st' eq_refl). reflexivity.
  - exfalso. cbn in S.
    assert (H : false = true); [apply S|discriminate H].
    split; [discriminate|split; reflexivity].
Defined.

(** X5. The writes use the default save mode, so the catalog transformer
    does not overwrite: run again on the destination a successful run has
    left, [process_song_data] stops at the Items write because its path
    exists. *)
Theorem process_song_data_does_not_overwrite
        (spark : SparkSession) (input_data output_data : string)
        (st st' : storage) :
  process_song_data spark input_data output_data st = Ok st' ->
  process_song_data spark input_data output_data st'
  = Err (PathAlreadyExists (output_data ++ "songs/songs_table.parquet")%string).
Proof.
  intros H.
  destruct (process_song_data_writes _ _ _ _ _ H)
    as (df & songs & artists & R & S & _ & ->).
  unfold process_song_data. rewrite R. cbn [bind]. rewrite S. cbn [bind].
  apply read_song_cases in R. destruct R as [[_ ->]|[_ ->]]; [discriminate|].
  rewrite songs_table_spec in S. injection S as <-.
  rewrite write_existing; [reflexivity|reflexivity|].
  cbn [app]. rewrite !exists_path_cons, String.eqb_refl.
  rewrite orb_true_l. apply orb_true_r.
Qed.

Lemma process_song_data_does_not_overwrite_witness :
  process_song_data udacity "s3a://udacity-dend/" "out/"
    [("out/artists/artists_table.parquet",
      mkTable [] (mkDataFrame artist_columns [creator_row S1_short]));
     ("out/songs/songs_table.parquet",
      mkTable ["year"; "artist_id"]
              (mkDataFrame song_columns [item_row S1_short]))]
  = Err (PathAlreadyExists "out/songs/songs_table.parquet").
Proof.
  apply (process_song_data_does_not_overwrite udacity "s3a://udacity-dend/"
           "out/" []).
  reflexivity.
Defined.

Lemma user_table_filtered l :
  user_table (mkDataFrame filtered_schema (map filtered_row l))
  = Ok (mkDataFrame user_columns
          (DF.dedup (fun r => r) (map user_row l))).
Proof.
  unfold user_table.
  erewrite (select_map _ _ _ filtered_row user_row);
    [|reflexivity|reflexivity].
  cbn [bind]. rewrite distinct_map; [reflexivity|].
  intros a _. apply user_row_normal.
Qed.

Lemma time_table_timed utcoffset l :
  time_table (mkDataFrame timed_schema (map (timed_row utcoffset) l))
  = Ok (mkDataFrame time_columns
          (DF.dedup (fun r => r)
             (map (fun a => time_row (start_time_of utcoffset a)) l))).
Proof.
  unfold time_table. rewrite time_select. cbn [bind].
  rewrite distinct_map; [reflexivity|].
  intros a _. apply time_row_normal, start_time_of_normal.
Qed.

Lemma process_log_data_after_read
      (utcoffset : Z -> Z) (ids : nat -> Z) (spark : SparkSession)
      (input_data output_data : string) (st : storage) :
  plain input_data = true -> activity_of spark input_data <> [] ->
  process_log_data utcoffset ids spark input_data output_data st
  = (let df := mkDataFrame filtered_schema
                 (map filtered_row
                      (next_songs (activity_of spark input_data))) in
     st <- write_if_allowed []
             (output_data ++ "users/users_table.parquet")%string
             (mkDataFrame user_columns
                (DF.dedup (fun r => r)
                   (map user_row
                        (next_songs (activity_of spark input_data)))))
             st ;;
     df <- with_time_columns utcoffset df ;;
     time <- time_table df ;;
     st <- write_if_allowed ["year"; "month"]
             (output_data ++ "time/time_table.parquet")%string time st ;;
     song_df <- read_song_data spark input_data ;;
     songplays <- songplays_table ids df song_df ;;
     write_if_allowed ["year"; "month"]
       (output_data ++ "songplays/songplays_table.parquet")%string
       songplays st).
Proof.
  intros P N. unfold process_log_data.
  rewrite (read_log_records spark input_data P N). cbn [bind].
  rewrite filtered_spec. cbn [bind]. rewrite user_table_filtered.
  reflexivity.
Qed.

(** The run up to the read of line 256. *)
Lemma process_log_data_after_time
      (utcoffset : Z -> Z) (ids : nat -> Z) (spark : SparkSession)
      (input_data output_data : string) (st : storage) :
  plain input_data = true -> activity_of spark input_data <> [] ->
  exists_path (output_data ++ "users/users_table.parquet")%string st = false ->
  Forall (ts_ok utcoffset) (next_songs (activity_of spark input_data)) ->
  exists_path (output_data ++ "time/time_table.parquet")%string st = false ->
  exists st',
    process_log_data utcoffset ids spark input_data output_data st
    = (song_df <- read_song_data spark input_data ;;
       songplays <- songplays_table ids
                      (mkDataFrame timed_schema
                         (map (timed_row utcoffset)
                              (next_songs (activity_of spark input_data))))
                      song_df ;;
       write_if_allowed ["year"; "month"]
         (output_data ++ "songplays/songplays_table.parquet")%string
         songplays st').
Proof.
  intros P N E F E'.
  rewrite process_log_data_after_read by assumption. cbv zeta.
  rewrite write_fresh by (reflexivity || exact E). cbn [bind].
  rewrite (with_time_columns_ok utcoffset _ F). cbn [bind].
  rewrite time_table_timed. cbn [bind].
  rewrite write_fresh; [|reflexivity|].
  2:{ rewrite exists_path_cons, E'.
      rewrite output_paths_differ by discriminate. reflexivity. }
  cbn [bind]. eexists. reflexivity.
Qed.

Lemma process_log_data_reaches_plays
      (utcoffset : Z -> Z) (ids : nat -> Z) (spark : SparkSession)
      (input_data output_data : string) (st : storage) :
  plain input_data = true -> activity_of spark input_data <> [] ->
  exists_path (output_data ++ "users/users_table.parquet")%string st = false ->
  Forall (ts_ok utcoffset) (next_songs (activity_of spark input_data)) ->
  exists_path (output_data ++ "time/time_table.parquet")%string st = false ->
  catalog_of spark input_data <> [] ->
  process_log_data utcoffset ids spark input_data output_data st
  = Err (PartitionColumnNotFound "year").
Proof.
  intros P N E F E' NS.
  destruct (process_log_data_after_time utcoffset ids spark input_data
              output_data st P N E F E') as [st' ->].
  rewrite (read_song_records spark input_data P NS). cbn [bind].
  destruct (songplays_table ids _ _) as [t|e] eqn:S.
  2:{ exfalso. unfold songplays_table in S.
      rewrite songplays_joined_spec in S. discriminate. }
  cbn [bind]. apply write_plays_fails.
  eapply songplays_table_columns. exact S.
Qed.

Lemma is_ok_false {A} (m : result A) :
  is_ok m = false -> exists e, m = Err e.
Proof. destruct m as [a|e]; [discriminate|]. exists e. reflexivity. Qed.



(** X7. [main] (lines 291-310) runs the catalog transformer and then the
    activity transformer, on the destination the first has written, with
    its two fixed paths.  When the catalog read fails, [main] stops with
    its error; when the catalog files hold no record, at line 110 on the
    name [song_id].  With catalog and activity records, a UDF that raises
    on no "NextSong" record and none of the four first table paths
    present, the catalog transformer leaves Items and Creators, and [main]
    then stops at the Plays write on the missing partition column. *)
Theorem main_outcome
        (utcoffset : Z -> Z) (ids : nat -> Z) (spark : SparkSession)
        (st : storage) :
  let input_data := "s3a://udacity-dend/" in
  let output_data :=
    "s3a://aws-logs-368346057517-us-west-2/elasticmapreduce/" in
  (is_ok (read_song_data spark input_data) = false ->
   exists e, read_song_data spark input_data = Err e
             /\ main utcoffset ids spark st = Err e)
  /\ (is_ok (read_song_data spark input_data) = true ->
      catalog_of spark input_data = [] ->
      main utcoffset ids spark st = Err (UnresolvedColumn "song_id"))
  /\ (catalog_of spark input_data <> [] ->
      activity_of spark input_data <> [] ->
      Forall (ts_ok utcoffset) (next_songs (activity_of spark input_data)) ->
      exists_path (output_data ++ "songs/songs_table.parquet")%string st
      = false ->
      exists_path (output_data ++ "artists/artists_table.parquet")%string st
      = false ->
      exists_path (output_data ++ "users/users_table.parquet")%string st
      = false ->
      exists_path (output_data ++ "time/time_table.parquet")%string st
      = false ->
      is_ok (process_song_data spark input_data output_data st) = true
      /\ main utcoffset ids spark st = Err (PartitionColumnNotFound "year")).
Proof.
  intros input_data output_data.
  assert (P : plain input_data = true) by reflexivity.
  split; [|split].
  - intros R. apply is_ok_false in R. destruct R as [e R]. exists e.
    split; [exact R|]. unfold main. fold input_data output_data.
    unfold process_song_data. rewrite R. reflexivity.
  - intros R E. unfold main. fold input_data output_data.
    unfold process_song_data.
    destruct (read_song_data spark input_data) as [df|] eqn:D; [|discriminate].
    apply read_song_cases in D.
    destruct D as [[_ ->]|[N _]]; [reflexivity|contradiction].
  - intros NS NL F E1 E2 E3 E4.
    pose proof (process_song_data_fresh spark input_data output_data st
                  P NS E1 E2) as S.
    split; [rewrite S; reflexivity|].
    unfold main. fold input_data output_data. rewrite S. cbn [bind].
    apply process_log_data_reaches_plays;
      [exact P|exact NL| |exact F| |exact NS]; cbn [app];
      rewrite !exists_path_cons.
    + rewrite E3. reflexivity.
    + rewrite E4. reflexivity.
Qed.

Lemma main_outcome_witness :
  main UTC numbering udacity_in_place []
  = Err (PartitionColumnNotFound "year").
Proof.
  apply (proj2 (proj2 (main_outcome UTC numbering udacity_in_place [])));
    try reflexivity; try discriminate.
  repeat constructor.
Defined.

(** ** The calendar, for every day *)

Lemma civil_roundtrip z :
  let '(y, m, d) := Calendar.civil_from_days z in
  1 <= m <= 12 /\ 1 <= d <= 31 /\ Calendar.days_from_civil y m d = z.
Proof.
  unfold Calendar.civil_from_days, Calendar.days_from_civil.
  set (z' := z + 719468).
  set (era := z' / 146097).
  set (doe := z' - era * 146097).
  set (yoe := (doe - doe / 1460 + doe / 36524 - doe / 146096) / 365).
  set (doy := doe - (365 * yoe + yoe / 4 - yoe / 100)).
  set (mp := (5 * doy + 2) / 153).
  assert (Hdoe : 0 <= doe < 146097) by (subst doe era; div_lia).
  assert (Hy : 0 <= yoe <= 399 /\ 0 <= doy <= 365) by (subst doy yoe; div_lia).
  assert (Hmp : 0 <= mp <= 11) by (subst mp; div_lia).
  destruct (mp <? 10) eqn:Emp.
  - apply Z.ltb_lt in Emp.
    replace (mp + 3 <=? 2) with false by (symmetry; apply Z.leb_gt; lia).
    split; [lia|]. split; [subst mp; div_lia|].
    replace (mp + 3 - 3) with mp by lia.
    assert (E1 : (yoe + era * 400) / 400 = era) by div_lia.
    rewrite E1.
    replace (yoe + era * 400 - era * 400) with yoe by lia.
    subst mp doy doe z'; div_lia.
  - apply Z.ltb_ge in Emp.
    replace (mp - 9 <=? 2) with true by (symmetry; apply Z.leb_le; lia).
    split; [lia|]. split; [subst mp; div_lia|].
    replace (mp - 9 + 9) with mp by lia.
    replace (yoe + era * 400 + 1 - 1) with (yoe + era * 400) by lia.
    assert (E1 : (yoe + era * 400) / 400 = era) by div_lia.
    rewrite E1.
    replace (yoe + era * 400 - era * 400) with yoe by lia.
    subst mp doy doe z'; div_lia.
Qed.

Lemma day_of_year_bound y m d :
  1 <= m <= 12 -> 1 <= d <= 31 ->
  0 <= Calendar.days_from_civil y m d - Calendar.days_from_civil y 1 1 <= 365.
Proof.
  intros Hm Hd. unfold Calendar.days_from_civil.
  change (1 <=? 2) with true. cbv iota.
  destruct (m <=? 2) eqn:E; [apply Z.leb_le in E | apply Z.leb_gt in E].
  - div_lia.
  - div_lia.
Qed.

Lemma iso_week_bounds z : 1 <= Calendar.iso_week z <= 53.
Proof.
  unfold Calendar.iso_week.
  set (th := z - (Calendar.iso_weekday z - 1) + 3).
  pose proof (civil_roundtrip th) as R.
  destruct (Calendar.civil_from_days th) as [[y m] d].
  destruct R as (Hm & Hd & E).
  pose proof (day_of_year_bound y m d Hm Hd) as B. rewrite E in B.
  div_lia.
Qed.


Lemma is_leap_spec y :
  Calendar.is_leap y = true
  <-> y mod 4 = 0 /\ (y mod 100 <> 0 \/ y mod 400 = 0).
Proof.
  unfold Calendar.is_leap.
  destruct (Z.eqb_spec (y mod 4) 0), (Z.eqb_spec (y mod 100) 0),
    (Z.eqb_spec (y mod 400) 0); cbn; split; intros H;
    try reflexivity; try discriminate; try tauto;
    exfalso; Z.to_euclidean_division_equations; lia.
Qed.

Lemma civil_day_in_month z :
  let '(y, m, d) := Calendar.civil_from_days z in
  d <= Calendar.days_in_month y m.
Proof.
  unfold Calendar.civil_from_days.
  set (z' := z + 719468).
  set (era := z' / 146097).
  set (doe := z' - era * 146097).
  set (yoe := (doe - doe / 1460 + doe / 36524 - doe / 146096) / 365).
  set (doy := doe - (365 * yoe + yoe / 4 - yoe / 100)).
  set (mp := (5 * doy + 2) / 153).
  assert (Hdoe : 0 <= doe < 146097) by (subst doe era; div_lia).
  assert (Hy : 0 <= yoe <= 399 /\ 0 <= doy <= 365) by (subst doy yoe; div_lia).
  assert (Hmp : 0 <= mp <= 11) by (subst mp; div_lia).
  assert (Hleap : doy = 365 ->
                  (yoe + 1) mod 4 = 0
                  /\ ((yoe + 1) mod 100 <> 0 \/ (yoe + 1) mod 400 = 0)).
  { intros D. subst doy yoe. div_lia. }
  assert (Hd : mp = (5 * doy + 2) / 153) by reflexivity.
  clearbody mp doy. clear Hdoe. clearbody yoe era.
  unfold Calendar.days_in_month.
  destruct (mp <? 10) eqn:Emp;
    [apply Z.ltb_lt in Emp | apply Z.ltb_ge in Emp].
  - replace (mp + 3 =? 2) with false by (symmetry; apply Z.eqb_neq; lia).
    destruct (Z.eqb_spec (mp + 3) 4), (Z.eqb_spec (mp + 3) 6),
      (Z.eqb_spec (mp + 3) 9), (Z.eqb_spec (mp + 3) 11); cbn [orb];
      div_lia.
  - replace (mp - 9 <=? 2) with true by (symmetry; apply Z.leb_le; lia).
    destruct (Z.eqb_spec (mp - 9) 2) as [E2|E2].
    + destruct (Calendar.is_leap (yoe + era * 400 + 1)) eqn:L; [div_lia|].
      assert (doy <> 365).
      { intros D. destruct (Hleap D) as [H4 H100].
        assert (Calendar.is_leap (yoe + era * 400 + 1) = true); [|congruence].
        apply is_leap_spec. Z.to_euclidean_division_equations; lia. }
      div_lia.
    + destruct (Z.eqb_spec (mp - 9) 4), (Z.eqb_spec (mp - 9) 6),
        (Z.eqb_spec (mp - 9) 9), (Z.eqb_spec (mp - 9) 11); cbn [orb];
        div_lia.
Qed.

(** ** What the UDF prints, the cast reads *)


(** The digits [zero_padded] prints are read back, whatever follows. *)
Lemma digits_from_zero_padded w : forall n rest acc k,
  Sql.digits_from (Py.zero_padded w n ++ rest)%string acc k
  = Sql.digits_from rest (acc * 10 ^ Z.of_nat w + n mod 10 ^ Z.of_nat w)
                    (k + w)%nat.
Proof.
  induction w as [|w IH]; intros n rest acc k.
  - cbn [Py.zero_padded append]. rewrite Nat.add_0_r.
    f_equal. cbn. rewrite Z.mod_1_r. lia.
  - cbn [Py.zero_padded]. rewrite string_app_assoc. cbn [append].
    rewrite IH. cbn [Sql.digits_from].
    destruct (digit_spec n) as [D V]. rewrite D, V.
    rewrite Nat.add_succ_r. f_equal.
    rewrite Nat2Z.inj_succ, Z.pow_succ_r by lia.
    rewrite (Z.rem_mul_r n 10 (10 ^ Z.of_nat w)) by lia.
    lia.
Qed.

Lemma digits_zero_padded w n c rest :
  0 <= n < 10 ^ Z.of_nat w -> Sql.is_digit c = false ->
  Sql.digits (Py.zero_padded w n ++ String c rest)%string
  = (n, w, String c rest).
Proof.
  intros Hn Hc. unfold Sql.digits. rewrite digits_from_zero_padded.
  cbn [Sql.digits_from]. rewrite Hc, Z.mod_small by lia. reflexivity.
Qed.

Lemma digits_zero_padded_end w n :
  0 <= n < 10 ^ Z.of_nat w ->
  Sql.digits (Py.zero_padded w n) = (n, w, "").
Proof.
  intros Hn. unfold Sql.digits.
  rewrite <- (string_app_nil (Py.zero_padded w n)), digits_from_zero_padded.
  cbn [Sql.digits_from]. rewrite Z.mod_small by lia. reflexivity.
Qed.

Lemma parse_time_of_day_isoformat h m s us :
  0 <= h < 24 -> 0 <= m < 60 -> 0 <= s < 60 ->
  Sql.parse_time_of_day
    (Py.zero_padded 2 h ++ String ":" (Py.zero_padded 2 m ++ String ":"
       (Py.zero_padded 2 s ++
          (if (us =? 0)%Z then "" else String "." (Py.zero_padded 6 us)))))%string
  = Some ((h * 3600 + m * 60 + s) * Sql.MICROS_PER_SECOND + us mod 1000000).
Proof.
  intros Hh Hm Hs. unfold Sql.parse_time_of_day.
  rewrite (digits_zero_padded 2 h), expect_same by (try reflexivity; cbn; lia).
  cbv beta iota.
  rewrite (digits_zero_padded 2 m), expect_same by (try reflexivity; cbn; lia).
  cbv beta iota.
  replace (h <? 24) with true by (symmetry; apply Z.ltb_lt; lia).
  replace (m <? 60) with true by (symmetry; apply Z.ltb_lt; lia).
  destruct (Z.eqb_spec us 0) as [->|N].
  - rewrite string_app_nil, (digits_zero_padded_end 2 s) by (cbn; lia).
    cbv beta iota.
    replace (s <? 60) with true by (symmetry; apply Z.ltb_lt; lia).
    cbn. f_equal. lia.
  - rewrite (digits_zero_padded 2 s) by (try reflexivity; cbn; lia).
    cbv beta iota.
    replace (s <? 60) with true by (symmetry; apply Z.ltb_lt; lia).
    cbn [andb Sql.one_or_two Nat.leb]. 
    change (Ascii.eqb "." ".") with true. cbv iota.
    unfold Sql.digits.
    rewrite <- (string_app_nil (Py.zero_padded 6 us)), digits_from_zero_padded.
    cbn [Sql.digits_from]. cbv beta iota.
    change (Z.of_nat (0 + 6)) with 6. change (6 <=? 6) with true. cbv iota.
    change (10 ^ (6 - 6)) with 1. change (10 ^ Z.of_nat 6) with 1000000.
    f_equal. lia.
Qed.

Lemma isoformat_shape dt :
  Py.isoformat dt
  = (Py.zero_padded 4 (Py.dt_year dt) ++ String "-"
      (Py.zero_padded 2 (Py.dt_month dt) ++ String "-"
        (Py.zero_padded 2 (Py.dt_day dt) ++ String "T"
          (Py.zero_padded 2 (Py.dt_hour dt) ++ String ":"
            (Py.zero_padded 2 (Py.dt_minute dt) ++ String ":"
              (Py.zero_padded 2 (Py.dt_second dt) ++
                (if (Py.dt_microsecond dt =? 0)%Z then ""
                 else String "." (Py.zero_padded 6 (Py.dt_microsecond dt)))))))))%string.
Proof. unfold Py.isoformat. destruct (Py.dt_microsecond dt =? 0); reflexivity. Qed.

Lemma parse_timestamp_isoformat dt :
  valid_datetime dt ->
  Sql.parse_timestamp (Py.isoformat dt)
  = Some (wall_clock_seconds dt * Sql.MICROS_PER_SECOND
          + Py.dt_microsecond dt mod 1000000).
Proof.
  intros (Hy & Hm & Hd & Hh & Hmi & Hs).
  rewrite isoformat_shape. unfold Sql.parse_timestamp.
  rewrite (digits_zero_padded 4), expect_same by (try reflexivity; cbn; lia).
  cbv beta iota.
  rewrite (digits_zero_padded 2), expect_same by (try reflexivity; cbn; lia).
  cbv beta iota.
  assert (Hd31 : Calendar.days_in_month (Py.dt_year dt) (Py.dt_month dt) <= 31).
  { unfold Calendar.days_in_month.
    repeat match goal with
           | |- context [if ?b then _ else _] => destruct b
           end; lia. }
  rewrite (digits_zero_padded 2) by (try reflexivity; cbn; lia).
  cbv beta iota.
  replace (1 <=? Py.dt_month dt) with true by (symmetry; apply Z.leb_le; lia).
  replace (Py.dt_month dt <=? 12) with true by (symmetry; apply Z.leb_le; lia).
  replace (1 <=? Py.dt_day dt) with true by (symmetry; apply Z.leb_le; lia).
  replace (Py.dt_day dt <=? _) with true by (symmetry; apply Z.leb_le; lia).
  cbn [andb Sql.one_or_two Nat.leb Nat.eqb].
  change (Ascii.eqb "T" "T") with true. cbn [orb].
  rewrite parse_time_of_day_isoformat by assumption.
  f_equal. unfold wall_clock_seconds, Sql.MICROS_PER_DAY, Sql.MICROS_PER_SECOND.
  lia.
Qed.

Lemma fromtimestamp_inv utcoffset x dt :
  Py.fromtimestamp utcoffset x = Ok dt ->
  valid_datetime dt
  /\ exists W,
       Calendar.civil_from_days (W / 86400)
       = (Py.dt_year dt, Py.dt_month dt, Py.dt_day dt)
       /\ Py.dt_hour dt = W mod 86400 / 3600
       /\ wall_clock_seconds dt = W.
Proof.
  unfold Py.fromtimestamp.
  destruct (Py.modf x) as [[frac ip]|]; [|discriminate].
  destruct (Py.round_half_even _) as [us|]; [|discriminate].
  set (tu := if 1000000 <=? us then (ip + 1, us - 1000000)
             else if us <? 0 then (ip - 1, us + 1000000) else (ip, us)).
  destruct tu as [t us']. unfold Py.local at 1. unfold Py.localtime.
  set (W := t + Py.gmtoff utcoffset t).
  pose proof (civil_roundtrip (W / 86400)) as R.
  pose proof (civil_day_in_month (W / 86400)) as D.
  destruct (Calendar.civil_from_days (W / 86400)) as [[y m] d] eqn:C.
  destruct R as (Hm & Hd & E).
  destruct ((Py.MINYEAR <=? y) && (y <=? Py.MAXYEAR)) eqn:Y; [|discriminate].
  cbn [bind].
  destruct (Py.local utcoffset (t - Py.max_fold_seconds)) as [p|];
    [|discriminate].
  cbn [bind]. destruct (if _ <? 0 then _ else _) as [q|]; [|discriminate].
  cbn [bind].
  intros [= <-]. apply andb_true_iff in Y. destruct Y as [Y1 Y2].
  apply Z.leb_le in Y1, Y2. unfold Py.MINYEAR, Py.MAXYEAR in *.
  pose proof (Z.mod_pos_bound W 86400 ltac:(lia)) as Hsod.
  destruct (seconds_of_day _ Hsod) as (Hh & Hmi & Hs & Esum).
  rewrite Z.min_l by lia.
  unfold valid_datetime, wall_clock_seconds.
  cbn [Py.dt_year Py.dt_month Py.dt_day Py.dt_hour Py.dt_minute Py.dt_second].
  split; [repeat split; lia|].
  exists W. split; [exact C|]. split; [reflexivity|].
  rewrite E. pose proof (Z.div_mod W 86400 ltac:(lia)). lia.
Qed.

Lemma get_timestamp_inv utcoffset v s :
  get_timestamp utcoffset v = Ok s ->
  exists x dt, Py.fromtimestamp utcoffset x = Ok dt
               /\ s = VString (Py.isoformat dt).
Proof.
  unfold get_timestamp. intros H.
  destruct v; try discriminate.
  - destruct (Py.truediv _ 1000) as [x|]; [|discriminate]. cbn [bind] in H.
    destruct (Py.fromtimestamp utcoffset x) as [dt|] eqn:F; [|discriminate].
    injection H as <-. exists x, dt. split; [exact F|reflexivity].
  - destruct (Py.truediv n 1000) as [x|]; [|discriminate]. cbn [bind] in H.
    destruct (Py.fromtimestamp utcoffset x) as [dt|] eqn:F; [|discriminate].
    injection H as <-. exists x, dt. split; [exact F|reflexivity].
  - destruct (Py.truediv n 1000) as [x|]; [|discriminate]. cbn [bind] in H.
    destruct (Py.fromtimestamp utcoffset x) as [dt|] eqn:F; [|discriminate].
    injection H as <-. exists x, dt. split; [exact F|reflexivity].
  - destruct (Py.fromtimestamp utcoffset _) as [dt|] eqn:F; [|discriminate].
    injection H as <-. eexists; exists dt. split; [exact F|reflexivity].
Qed.

Lemma start_time_is_timestamp utcoffset v st :
  start_time utcoffset v = Ok st ->
  exists W f y m d,
    st = VTimestamp (W * 1000000 + f)
    /\ 0 <= f < 1000000
    /\ Calendar.civil_from_days (W / 86400) = (y, m, d)
    /\ 1 <= y <= 9999.
Proof.
  unfold start_time. intros H.
  destruct (get_timestamp utcoffset v) as [s|] eqn:G; [|discriminate].
  injection H as <-.
  apply get_timestamp_inv in G. destruct G as (x & dt & F & ->).
  apply fromtimestamp_inv in F. destruct F as (V & W & C & _ & E).
  unfold Sql.cast_value. rewrite (parse_timestamp_isoformat dt V), E.
  exists W, (Py.dt_microsecond dt mod 1000000), (Py.dt_year dt),
    (Py.dt_month dt), (Py.dt_day dt).
  repeat split; try exact C; try apply Z.mod_pos_bound; try lia;
    apply V.
Qed.
Lemma days_in_month_cases y m :
  1 <= m <= 12 ->
  (m = 2 /\ Calendar.is_leap y = true /\ Calendar.days_in_month y m = 29)
  \/ (m = 2 /\ Calendar.is_leap y = false /\ Calendar.days_in_month y m = 28)
  \/ ((m = 4 \/ m = 6 \/ m = 9 \/ m = 11) /\ Calendar.days_in_month y m = 30)
  \/ ((m = 1 \/ m = 3 \/ m = 5 \/ m = 7 \/ m = 8 \/ m = 10 \/ m = 12)
      /\ Calendar.days_in_month y m = 31).
Proof.
  intros H. unfold Calendar.days_in_month.
  destruct (Z.eqb_spec m 2).
  - destruct (Calendar.is_leap y); [left|right; left]; tauto.
  - destruct (Z.eqb_spec m 4), (Z.eqb_spec m 6), (Z.eqb_spec m 9),
      (Z.eqb_spec m 11); cbn [orb]; try (right; right; left; split; [lia|reflexivity]).
    right; right; right. split; [lia|reflexivity].
Qed.


Lemma is_leap_shift y k : Calendar.is_leap (y + 400 * k) = Calendar.is_leap y.
Proof.
  unfold Calendar.is_leap.
  replace ((y + 400 * k) mod 4) with (y mod 4) by div_lia.
  replace ((y + 400 * k) mod 100) with (y mod 100) by div_lia.
  replace ((y + 400 * k) mod 400) with (y mod 400) by div_lia.
  reflexivity.
Qed.

Lemma civil_of_days_from_civil y m d :
  1 <= m <= 12 -> 1 <= d <= Calendar.days_in_month y m ->
  Calendar.civil_from_days (Calendar.days_from_civil y m d) = (y, m, d).
Proof.
  intros Hm Hd.
  unfold Calendar.days_from_civil.
  set (y' := if m <=? 2 then y - 1 else y).
  set (era := y' / 400).
  set (yoe := y' - era * 400).
  set (mp := if m <=? 2 then m + 9 else m - 3).
  set (doy := (153 * mp + 2) / 5 + d - 1).
  set (doe := yoe * 365 + yoe / 4 - yoe / 100 + doy).
  assert (Hyoe : 0 <= yoe <= 399) by (subst yoe era; div_lia).
  assert (Hmp : 0 <= mp <= 11 /\ (m <= 2 -> mp = m + 9) /\ (2 < m -> mp = m - 3)
                /\ (m <= 2 -> y' = y - 1) /\ (2 < m -> y' = y)).
  { subst mp y'. destruct (Z.leb_spec m 2); lia. }
  assert (Hleap : Calendar.is_leap y = true
                  <-> y mod 4 = 0 /\ (y mod 100 <> 0 \/ y mod 400 = 0))
    by apply is_leap_spec.
  assert (Hdoy : 0 <= doy <= 365 /\ mp = (5 * doy + 2) / 153
                 /\ d = doy - (153 * mp + 2) / 5 + 1
                 /\ (doy = 365 ->
                     (yoe + 1) mod 4 = 0
                     /\ ((yoe + 1) mod 100 <> 0 \/ (yoe + 1) mod 400 = 0))).
  { destruct (days_in_month_cases y m Hm) as [(A & L & B)|[(A & L & B)|[(A & B)|(A & B)]]];
      rewrite B in Hd.
    - apply Hleap in L.
      assert (mp = 11) by lia. assert (y' = y - 1) by lia.
      subst doy. split; [div_lia|]. split; [div_lia|]. split; [div_lia|].
      intros _. replace (yoe + 1) with (y - 400 * era) by (subst yoe; lia).
      div_lia.
    - assert (mp = 11) by lia.
      subst doy. split; [div_lia|]. split; [div_lia|]. split; [div_lia|].
      intros C. exfalso. div_lia.
    - subst doy. split; [div_lia|]. split; [div_lia|]. split; [div_lia|].
      intros C. exfalso. div_lia.
    - subst doy. split; [div_lia|]. split; [div_lia|]. split; [div_lia|].
      intros C. exfalso. div_lia. }
  destruct Hdoy as (Hdoy & Emp & Ed & Hl).
  clearbody doy mp.
  unfold Calendar.civil_from_days.
  replace (era * 146097 + doe - 719468 + 719468) with (doe + era * 146097) by lia.
  assert (Hdoe : 0 <= doe < 146097).
  { subst doe. clearbody yoe. div_lia. }
  rewrite Z.div_add by lia. rewrite (Z.div_small doe) by lia.
  replace (doe + era * 146097 - (0 + era) * 146097) with doe by lia.
  assert (Eyoe : (doe - doe / 1460 + doe / 36524 - doe / 146096) / 365 = yoe).
  { subst doe. clearbody yoe. div_lia. }
  rewrite Eyoe.
  replace (doe - (365 * yoe + yoe / 4 - yoe / 100)) with doy by (subst doe; lia).
  rewrite <- Emp, <- Ed.
  destruct Hmp as (Hmp & M1 & M2 & Y1 & Y2).
  destruct (Z.leb_spec m 2).
  - replace (mp <? 10) with false by (symmetry; apply Z.ltb_ge; lia).
    replace (mp - 9 <=? 2) with true by (symmetry; apply Z.leb_le; lia).
    repeat f_equal; subst yoe; lia.
  - replace (mp <? 10) with true by (symmetry; apply Z.ltb_lt; lia).
    replace (mp + 3 <=? 2) with false by (symmetry; apply Z.leb_gt; lia).
    repeat f_equal; subst yoe; lia.
Qed.

Lemma micros_split W f :
  0 <= f < 1000000 ->
  (W * 1000000 + f) / 86400000000 = W / 86400
  /\ (W * 1000000 + f) mod 86400000000 / (3600 * 1000000)
     = W mod 86400 / 3600.
Proof.
  intros Hf. change (3600 * 1000000) with 3600000000. div_lia.
Qed.

Lemma timestamp_fields us :
  Sql.year (VTimestamp us)
  = VInt (let '(y, _, _) := Calendar.civil_from_days
                              (us / Sql.MICROS_PER_DAY) in y)
  /\ Sql.month (VTimestamp us)
     = VInt (let '(_, m, _) := Calendar.civil_from_days
                                 (us / Sql.MICROS_PER_DAY) in m)
  /\ Sql.dayofmonth (VTimestamp us)
     = VInt (let '(_, _, d) := Calendar.civil_from_days
                                 (us / Sql.MICROS_PER_DAY) in d)
  /\ Sql.hour (VTimestamp us)
     = VInt (us mod Sql.MICROS_PER_DAY / (3600 * Sql.MICROS_PER_SECOND))
  /\ Sql.weekofyear (VTimestamp us)
     = VInt (Calendar.iso_week (us / Sql.MICROS_PER_DAY))
  /\ Sql.dayofweek (VTimestamp us)
     = VInt ((us / Sql.MICROS_PER_DAY + 4) mod 7 + 1).
Proof. repeat split; reflexivity. Qed.

(** X8. The string stage of lines 196-205 loses nothing: for a datetime
    with a civil date in the years 1 to 9999, a time of day and a
    microsecond below one million, the cast of what [isoformat] prints is
    the timestamp of that wall-clock instant to the microsecond, and the
    engine's [year], [month], [dayofmonth] and [hour] of it are the
    datetime's own fields. *)
Theorem isoformat_cast_round_trip (dt : Py.datetime) :
  valid_datetime dt ->
  0 <= Py.dt_microsecond dt < 1000000 ->
  let st := Sql.cast_value TimestampType (VString (Py.isoformat dt)) in
  st = VTimestamp (wall_clock_seconds dt * Sql.MICROS_PER_SECOND
                   + Py.dt_microsecond dt)
  /\ Sql.year st = VInt (Py.dt_year dt)
  /\ Sql.month st = VInt (Py.dt_month dt)
  /\ Sql.dayofmonth st = VInt (Py.dt_day dt)
  /\ Sql.hour st = VInt (Py.dt_hour dt).
Proof.
  intros V U st.
  assert (E : st = VTimestamp (wall_clock_seconds dt * Sql.MICROS_PER_SECOND
                               + Py.dt_microsecond dt)).
  { unfold st, Sql.cast_value. rewrite (parse_timestamp_isoformat dt V).
    rewrite Z.mod_small by exact U. reflexivity. }
  split; [exact E|]. rewrite E.
  destruct V as (Hy & Hm & Hd & Hh & Hmi & Hs).
  destruct (timestamp_fields (wall_clock_seconds dt * Sql.MICROS_PER_SECOND
                              + Py.dt_microsecond dt))
    as (Fy & Fm & Fd & Fh & _).
  rewrite Fy, Fm, Fd, Fh.
  destruct (micros_split (wall_clock_seconds dt) (Py.dt_microsecond dt) U)
    as [Q M].
  unfold Sql.MICROS_PER_DAY, Sql.MICROS_PER_SECOND. rewrite Q, M.
  assert (D : wall_clock_seconds dt / 86400
              = Calendar.days_from_civil (Py.dt_year dt) (Py.dt_month dt)
                  (Py.dt_day dt))
    by (unfold wall_clock_seconds; div_lia).
  assert (H : wall_clock_seconds dt mod 86400 / 3600 = Py.dt_hour dt)
    by (unfold wall_clock_seconds; div_lia).
  rewrite D, H, (civil_of_days_from_civil _ _ _ Hm Hd).
  repeat split; reflexivity.
Qed.

(** 2020-02-29 12:00:07.000005, a leap day. *)
Lemma isoformat_cast_round_trip_witness :
  Py.isoformat leap_day_noon = "2020-02-29T12:00:07.000005"
  /\ Sql.cast_value TimestampType (VString (Py.isoformat leap_day_noon))
     = VTimestamp 1582977607000005.
Proof.
  split; [reflexivity|].
  apply (proj1 (isoformat_cast_round_trip leap_day_noon
                  ltac:(cbv; intuition discriminate)
                  ltac:(cbv; intuition discriminate))).
Defined.

(** ** Every Time row *)

(** X9. Whatever the activity input and the host zone, every row of the
    Time table (lines 196-248) holds a timestamp and six integers, never a
    null: [year] is between 1 and 9999, [month] between 1 and 12, [day]
    between 1 and the length of that month, [hour] between 0 and 23,
    [week] between 1 and 53, [weekday] between 1 and 7; the date
    ([year], [month], [day]) is the date part of [start_time] and [hour]
    the hour of its time of day. *)
Theorem time_rows_well_formed
        (utcoffset : Z -> Z) (log : list log_record)
        (df : DataFrame) (r : row) :
  Time utcoffset (log_df log) = Ok df -> In r (rows df) ->
  exists us y m d h w wd,
    r = [VTimestamp us; VInt h; VInt d; VInt w; VInt m; VInt y; VInt wd]
    /\ 1 <= y <= 9999
    /\ 1 <= m <= 12
    /\ 1 <= d <= Calendar.days_in_month y m
    /\ 0 <= h < 24
    /\ 1 <= w <= 53
    /\ 1 <= wd <= 7
    /\ Calendar.days_from_civil y m d = us / Sql.MICROS_PER_DAY
    /\ h = us mod Sql.MICROS_PER_DAY / (3600 * Sql.MICROS_PER_SECOND).
Proof.
  intros E Hr.
  assert (F : Forall (ts_ok utcoffset) (next_songs log)).
  { unfold Time in E.
    destruct (timed utcoffset (log_df log)) eqn:T; [|discriminate].
    eapply timed_inv; eassumption. }
  rewrite (Time_ok utcoffset log F) in E. injection E as <-.
  cbn [rows] in Hr. apply dedup_In, in_map_iff in Hr.
  destruct Hr as (a & <- & Ha).
  rewrite Forall_forall in F.
  pose proof (ts_ok_start_time utcoffset a (F a Ha)) as S.
  apply start_time_is_timestamp in S.
  destruct S as (W & f & y & m & d & -> & Hf & C & Hy).
  destruct (micros_split W f Hf) as [Q M].
  pose proof (civil_roundtrip (W / 86400)) as R.
  pose proof (civil_day_in_month (W / 86400)) as D.
  rewrite C in R, D. destruct R as (Hm & Hd & R).
  exists (W * 1000000 + f), y, m, d, (W mod 86400 / 3600),
    (Calendar.iso_week (W / 86400)), ((W / 86400 + 4) mod 7 + 1).
  split.
  { unfold time_row.
    destruct (timestamp_fields (W * 1000000 + f))
      as (Fy & Fm & Fd & Fh & Fw & Fwd).
    rewrite Fy, Fm, Fd, Fh, Fw, Fwd.
    unfold Sql.MICROS_PER_DAY, Sql.MICROS_PER_SECOND. rewrite Q, M, C.
    reflexivity. }
  split; [exact Hy|]. split; [exact Hm|]. split; [lia|].
  split; [div_lia|]. split; [apply iso_week_bounds|]. split; [div_lia|].
  unfold Sql.MICROS_PER_DAY, Sql.MICROS_PER_SECOND. rewrite Q, M.
  split; [exact R|reflexivity].
Qed.

Lemma time_rows_well_formed_witness :
  exists us y m d h w wd,
    time_row (VTimestamp 1541990258796000)
    = [VTimestamp us; VInt h; VInt d; VInt w; VInt m; VInt y; VInt wd]
    /\ 1 <= y <= 9999
    /\ 1 <= m <= 12
    /\ 1 <= d <= Calendar.days_in_month y m
    /\ 0 <= h < 24
    /\ 1 <= w <= 53
    /\ 1 <= wd <= 7
    /\ Calendar.days_from_civil y m d = us / Sql.MICROS_PER_DAY
    /\ h = us mod Sql.MICROS_PER_DAY / (3600 * Sql.MICROS_PER_SECOND).
Proof.
  apply (time_rows_well_formed UTC [bob_home; ann_play]
           (mkDataFrame time_columns [time_row (VTimestamp 1541990258796000)])).
  - reflexivity.
  - left. reflexivity.
Defined.

(** ** The names of the joined frame *)

(** X10. In the frame the join of lines 263-267 builds, each of the eight
    names of the projection of lines 268-275, and [month], denotes exactly
    one column, so the projection never fails on a name; [year] denotes
    two, the calendar year of the play and the release year of the catalog
    record, and cannot be selected by name. *)
Theorem joined_frame_has_two_years
        (utcoffset : Z -> Z) (log : list log_record)
        (catalog : list song_record) (df j : DataFrame) :
  timed utcoffset (log_df log) = Ok df ->
  DF.join df (song_df catalog) (equals (col "artist_name") (col "artist"))
  = Ok j ->
  (forall c, In c ("month" :: songplays_columns) ->
             exists i, resolve (columns j) c = Ok i)
  /\ resolve (columns j) "year" = Err (AmbiguousReference "year")
  /\ DF.select (songplays_columns ++ ["year"; "month"]) j
     = Err (AmbiguousReference "year").
Proof.
  intros T J.
  pose proof (timed_inv utcoffset log df T) as F.
  rewrite (timed_ok utcoffset log F) in T. injection T as <-.
  assert (C : columns j = timed_schema ++ song_schema).
  { unfold DF.join in J. cbn [columns] in J.
    destruct (compile _ _ _) as [f|]; [|discriminate]. cbn [bind] in J.
    destruct (DF.filterM _ _) as [rs|]; [|discriminate].
    injection J as <-. reflexivity. }
  split; [|split].
  - intros c Hc. rewrite C.
    repeat (destruct Hc as [<-|Hc]; [eexists; reflexivity|]).
    destruct Hc.
  - rewrite C. reflexivity.
  - unfold DF.select. rewrite C. reflexivity.
Qed.

Lemma joined_frame_has_two_years_witness :
  resolve
    (columns
       (mkDataFrame (timed_schema ++ song_schema)
          [timed_row UTC ann_play ++ song_row S1_short]))
    "year"
  = Err (AmbiguousReference "year").
Proof.
  apply (joined_frame_has_two_years UTC [bob_home; ann_play]
           [S1_short; S2_elsewhere]
           (mkDataFrame timed_schema [timed_row UTC ann_play])).
  - reflexivity.
  - reflexivity.
Defined.

(** ** A slash at the end of the base path *)

Lemma parse_path_slash x : parse_path (x ++ "/") = parse_path x.
Proof.
  unfold parse_path.
  change (x ++ "/")%string with (x ++ String "/" "")%string.
  rewrite rest_of_app, split_scheme_app.
  set (sch := match split_scheme x with
              | Some (sch, _) => Some sch
              | None => None
              end).
  replace (match match split_scheme x with
                 | Some (sch0, r) => Some (sch0, (r ++ String "/" "")%string)
                 | None => None
                 end with
           | Some (sch0, _) => Some sch0
           | None => None
           end) with sch
    by (unfold sch; destruct (split_scheme x) as [[? ?]|]; reflexivity).
  rewrite (names_app_slash (rest_of x) ""), app_nil_r.
  destruct (rest_of x) as [|c [|d [|e t]]].
  - reflexivity.
  - reflexivity.
  - cbn [append after_double_slash].
    destruct (Ascii.eqb c "/" && Ascii.eqb d "/") eqn:B; [|reflexivity].
    apply andb_true_iff in B. destruct B as [B1 B2].
    apply Ascii.eqb_eq in B1, B2. subst c d. reflexivity.
  - cbn [append after_double_slash].
    destruct (Ascii.eqb c "/" && Ascii.eqb d "/") eqn:B; [|reflexivity].
    change (String e (t ++ String "/" ""))
      with (String e t ++ String "/" "")%string.
    rewrite until_slash_app. destruct (until_slash (String e t)) as [a p].
    rewrite (names_app_slash p ""), app_nil_r. reflexivity.
Qed.

Lemma selects_slash base v path :
  plain base = true -> plain (base ++ "/") = true -> starts_name v = true ->
  selects ((base ++ "/") ++ String "/" v) path
  = selects (base ++ String "/" v) path.
Proof.
  intros P Q V. unfold selects.
  assert (R : forall b, plain b = true -> rest_of b <> "/").
  { intros b. unfold plain. rewrite !andb_true_iff. intros [[_ H] _] E.
    rewrite E in H. discriminate. }
  rewrite (parse_path_app (base ++ "/") v), (parse_path_app base v),
    parse_path_slash by auto.
  reflexivity.
Qed.

Lemma records_slash {R} base v (files : list (string * list R)) :
  plain base = true -> plain (base ++ "/") = true -> starts_name v = true ->
  records ((base ++ "/") ++ String "/" v) files
  = records (base ++ String "/" v) files.
Proof.
  intros P Q V. unfold records, matching. do 2 f_equal.
  apply filter_ext. intros f. apply selects_slash; assumption.
Qed.

Lemma read_json_slash {R} base v (files : list (string * list R)) frame df :
  plain base = true -> plain (base ++ "/") = true -> starts_name v = true ->
  operators v = false ->
  forallb (fun n => negb (dots n)) (names v) = true ->
  (read_json files frame ((base ++ "/") ++ String "/" v) = Ok df
   <-> read_json files frame (base ++ String "/" v) = Ok df).
Proof.
  intros P Q V O D. unfold read_json.
  rewrite !plain_supported by assumption. cbn [negb].
  rewrite records_slash by assumption.
  replace (matching ((base ++ "/") ++ String "/" v) files)
    with (matching (base ++ String "/" v) files).
  2:{ unfold matching. apply filter_ext. intros f. symmetry.
      apply selects_slash; assumption. }
  destruct (matching (base ++ String "/" v) files); [split; discriminate|].
  reflexivity.
Qed.

(** X11. A slash at the end of the base path makes no difference to what
    the readers return: the glob built on [<base>/] has a doubled slash
    ([main] builds [s3a://udacity-dend//song-data/A/A/*/*.json]), which
    the engine reads as one.  For a plain base path that stays plain with
    the slash, each reader returns a frame on [<base>/] exactly when it
    returns it on [<base>], and the records read are the same. *)
Theorem readers_ignore_a_trailing_slash
        (spark : SparkSession) (input_data : string) :
  plain input_data = true -> plain (input_data ++ "/") = true ->
  catalog_of spark (input_data ++ "/") = catalog_of spark input_data
  /\ activity_of spark (input_data ++ "/") = activity_of spark input_data
  /\ (forall df, read_song_data spark (input_data ++ "/") = Ok df
                 <-> read_song_data spark input_data = Ok df)
  /\ (forall df, read_log_data spark (input_data ++ "/") = Ok df
                 <-> read_log_data spark input_data = Ok df).
Proof.
  intros P Q. unfold catalog_of, activity_of, read_song_data, read_log_data.
  split; [|split; [|split]].
  - apply (records_slash input_data "song-data/A/A/*/*.json"); auto.
  - apply (records_slash input_data "log-data/A/A/*.json"); auto.
  - intros df.
    apply (read_json_slash input_data "song-data/A/A/*/*.json"); auto.
  - intros df.
    apply (read_json_slash input_data "log-data/A/A/*.json"); auto.
Qed.

(** The base path of [main] and the same without its slash. *)
Lemma readers_ignore_a_trailing_slash_witness :
  read_song_data bucket "s3a://udacity-dend/" = Ok (song_df [S1_short])
  <-> read_song_data bucket "s3a://udacity-dend" = Ok (song_df [S1_short]).
Proof.
  destruct (readers_ignore_a_trailing_slash bucket "s3a://udacity-dend"
              eq_refl eq_refl) as (_ & _ & H & _).
  exact (H (song_df [S1_short])).
Defined.

(** ** The exception of the UDF *)

Lemma mapM_err_inv {A B} (f : A -> result B) l e :
  mapM f l = Err e -> exists x, In x l /\ f x = Err e.
Proof.
  induction l as [|x l IH]; cbn; [discriminate|].
  destruct (f x) as [y|e'] eqn:F; cbn.
  - destruct (mapM f l) as [ys|e'']; cbn; [discriminate|].
    intros [= ->]. destruct (IH eq_refl) as (z & Hz & Fz).
    exists z. split; [right; exact Hz|exact Fz].
  - intros [= ->]. exists x. split; [left; reflexivity|exact F].
Qed.

Lemma fromtimestamp_err utcoffset x e :
  Py.fromtimestamp utcoffset x = Err e -> exists msg, e = ValueError msg.
Proof.
  unfold Py.fromtimestamp.
  destruct (Py.modf x) as [[frac ip]|]; [|intros [= <-]; eexists; reflexivity].
  destruct (Py.round_half_even _) as [us|];
    [|intros [= <-]; eexists; reflexivity].
  destruct (if 1000000 <=? us then _ else _) as [t us'].
  destruct (Py.localtime utcoffset t) as [[[[[y m] d] hh] mm] ss].
  assert (L : forall u z, Py.local utcoffset u = Err z ->
                          exists msg, z = ValueError msg).
  { intros u z. unfold Py.local.
    destruct (Py.localtime utcoffset u) as [[[[[y' ?] ?] ?] ?] ?].
    destruct (_ && _); [discriminate|]. intros [= <-]. eexists; reflexivity. }
  destruct (Py.local utcoffset t) as [r|z] eqn:R; cbn [bind];
    [|intros [= <-]; exact (L _ _ R)].
  destruct (Py.local utcoffset (t - Py.max_fold_seconds)) as [q|z] eqn:Q;
    cbn [bind]; [|intros [= <-]; exact (L _ _ Q)].
  destruct (_ <? 0).
  - destruct (Py.local utcoffset (t + _)) as [w|z] eqn:W; cbn [bind];
      [discriminate|intros [= <-]; exact (L _ _ W)].
  - cbn [bind]. discriminate.
Qed.

Lemma truediv_err a e :
  Py.truediv a 1000 = Err e -> exists msg, e = OverflowError msg.
Proof.
  unfold Py.truediv. change (1000 =? 0) with false. cbv iota.
  destruct (a =? 0); [discriminate|].
  destruct (SFdiv_core_binary _ _ _ _ _ _) as [[mz ez] lz].
  destruct (binary_round_aux _ _ _ _ _ _); try discriminate;
    intros [= <-]; eexists; reflexivity.
Qed.

Lemma start_time_err utcoffset a e :
  start_time utcoffset (long (ts a)) = Err e ->
  (ts a = None /\ e = TypeError "unsupported operand type(s) for /")
  \/ (exists n msg, ts a = Some n
                    /\ (e = ValueError msg \/ e = OverflowError msg)).
Proof.
  unfold start_time, get_timestamp. destruct (ts a) as [n|]; cbn [long].
  - intros H. right. exists n.
    destruct (Py.truediv n 1000) as [x|e'] eqn:T; cbn [bind] in H.
    + destruct (Py.fromtimestamp utcoffset x) as [d|e'] eqn:F;
        cbn [bind] in H; [discriminate|].
      injection H as <-. apply fromtimestamp_err in F. destruct F as [msg ->].
      exists msg. split; [reflexivity|left; reflexivity].
    + injection H as <-. apply truediv_err in T. destruct T as [msg ->].
      exists msg. split; [reflexivity|right; reflexivity].
  - cbn [bind]. intros [= <-]. left. split; reflexivity.
Qed.

(** X12. Lines 171-238 on the frame the activity reader returns fail
    only at line 173, when the files read hold no record and the frame has
    no column [userId], or through the UDF of lines 196-198: the exception
    is then the one [get_timestamp] raises on the [ts] of some "NextSong"
    record of the input -- a [TypeError] when that record has no [ts], a
    [ValueError] or an [OverflowError] when it has one. *)
Theorem time_columns_fail_with_the_udf
        (utcoffset : Z -> Z) (spark : SparkSession) (input_data : string)
        (df : DataFrame) (e : exn) :
  read_log_data spark input_data = Ok df ->
  timed utcoffset df = Err e ->
  let log := activity_of spark input_data in
  (log = [] /\ e = AttributeError "userId")
  \/ (exists a,
        In a log /\ page a = Some "NextSong"
        /\ start_time utcoffset (long (ts a)) = Err e
        /\ ((ts a = None /\ e = TypeError "unsupported operand type(s) for /")
            \/ (exists n msg, ts a = Some n
                              /\ (e = ValueError msg
                                  \/ e = OverflowError msg)))).
Proof.
  intros R H log. apply read_log_cases in R. fold log in R.
  destruct R as [[E ->]|[_ ->]].
  { left. split; [exact E|]. injection H as <-. reflexivity. }
  right.
  assert (N : ~ Forall (ts_ok utcoffset) (next_songs log)).
  { intros F. rewrite (timed_ok utcoffset log F) in H. discriminate. }
  unfold timed in H. rewrite filtered_spec in H. cbn [bind] in H.
  unfold with_time_columns in H.
  destruct (DF.withColumn "start_time" _ _) as [d|e'] eqn:E.
  - exfalso. apply N. unfold DF.withColumn in E. cbn in E.
    destruct (mapM _ _) as [rs|e'] eqn:M in E; [|discriminate].
    apply mapM_ok_inv in M. rewrite Forall_map in M.
    eapply Forall_impl; [|exact M]. intros a Ha. unfold ts_ok, start_time.
    cbn in Ha.
    destruct (get_timestamp utcoffset (long (ts a)));
      [reflexivity|discriminate].
  - cbn [bind] in H. injection H as ->.
    unfold DF.withColumn in E. cbn in E.
    destruct (mapM _ _) as [rs|e'] eqn:M in E; [discriminate|].
    cbn [bind] in E. injection E as ->.
    apply mapM_err_inv in M. destruct M as (r & Hr & Fr).
    apply in_map_iff in Hr. destruct Hr as (a & <- & Ha).
    apply next_songs_In in Ha. destruct Ha as [Ha Hp].
    assert (S : start_time utcoffset (long (ts a)) = Err e).
    { unfold start_time. cbn in Fr.
      destruct (get_timestamp utcoffset (long (ts a))); [discriminate|].
      cbn [bind] in Fr |- *. injection Fr as ->. reflexivity. }
    exists a. repeat split; try assumption.
    apply start_time_err in S. exact S.
Qed.

Lemma time_columns_fail_with_the_udf_witness :
  (activity_of untimed "s3a://udacity-dend/" = []
   /\ TypeError "unsupported operand type(s) for /" = AttributeError "userId")
  \/ (exists a,
        In a (activity_of untimed "s3a://udacity-dend/")
        /\ page a = Some "NextSong"
        /\ start_time UTC (long (ts a))
           = Err (TypeError "unsupported operand type(s) for /")
        /\ ((ts a = None
             /\ TypeError "unsupported operand type(s) for /"
                = TypeError "unsupported operand type(s) for /")
            \/ (exists n msg,
                  ts a = Some n
                  /\ (TypeError "unsupported operand type(s) for /"
                      = ValueError msg
                      \/ TypeError "unsupported operand type(s) for /"
                         = OverflowError msg)))).
Proof.
  apply (time_columns_fail_with_the_udf UTC untimed "s3a://udacity-dend/"
           (log_df [bob_home; ann_play; ann_untimed])).
  - reflexivity.
  - reflexivity.
Defined.
